(** * Position merger and event classifier of the SQUID DAO reconstruction
      proposal scripts

    A shallow embedding of [merge_all_lenders.js] and of the
    classification loop of [data/analyze_selectors.js] with the object
    it saves, with the properties of their specification and further
    properties of the code stated over it.

    JavaScript numbers are IEEE 754 binary64 values: they are modelled
    by Rocq's primitive [float], whose operations are specified by
    [SpecFloat] through [FloatAxioms].  Strings are [string]s over
    ASCII (addresses and selectors are hexadecimal text).  The [Map]
    of merged records iterates in insertion order and is an
    association list; a record mutated in place is an entry rewritten
    in that list.  A script is a function of the files it reads and of
    the clock; what it prints to the console is modelled where a
    property speaks of it. *)

From Stdlib Require Import ZArith Lia Bool List String Ascii Floats.
From Stdlib Require Import DecimalString.
From Stdlib Require Import Permutation Sorted.
Import ListNotations.

Local Open Scope string_scope.
Local Open Scope list_scope.

(* ================================================================== *)
(** * The ECMAScript built-ins the scripts call *)
(* ================================================================== *)

Module JS.

(** ** [String.prototype.toLowerCase] on ASCII text *)

Definition lowerChar (c : ascii) : ascii :=
  let n := nat_of_ascii c in
  if (65 <=? n)%nat && (n <=? 90)%nat then ascii_of_nat (n + 32) else c.

Fixpoint toLowerCase (s : string) : string :=
  match s with
  | EmptyString => EmptyString
  | String c s' => String (lowerChar c) (toLowerCase s')
  end.

(** ** [String.prototype.includes]: [sub] occurs in [s] *)

Fixpoint includes (s sub : string) : bool :=
  String.prefix sub s ||
  match s with
  | EmptyString => false
  | String _ s' => includes s' sub
  end.

(** ** [parseFloat]

    [parseFloat] drops leading white space, takes the longest prefix that
    is a [StrDecimalLiteral] and returns its value rounded to the nearest
    binary64 (ties to even), as the engines do for literals of any
    length; with no such prefix it returns [NaN]. *)

Definition isWhiteSpace (c : ascii) : bool :=
  let n := nat_of_ascii c in
  ((9 <=? n)%nat && (n <=? 13)%nat) || (n =? 32)%nat.

Fixpoint trimStart (s : string) : string :=
  match s with
  | String c s' => if isWhiteSpace c then trimStart s' else s
  | EmptyString => s
  end.

Definition isDigit (c : ascii) : bool :=
  let n := nat_of_ascii c in (48 <=? n)%nat && (n <=? 57)%nat.

Definition digitValue (c : ascii) : Z := Z.of_nat (nat_of_ascii c) - 48.

(** [DecimalDigits]: the longest run of digits at the head of [s], read
    on top of the value [acc]; returns the value, the number of digits
    read and the rest of the string. *)
Fixpoint scanDigits (s : string) (acc : Z) (n : nat) : Z * nat * string :=
  match s with
  | String c s' =>
      if isDigit c then scanDigits s' (10 * acc + digitValue c) (S n)
      else (acc, n, s)
  | EmptyString => (acc, n, s)
  end.

(** [ExponentPart], when one is complete at the head of [s]; [0] when
    there is none. *)
Definition scanExponent (s : string) : Z :=
  let digits r := let '(v, n, _) := scanDigits r 0 0 in
                  match n with O => None | S _ => Some v end in
  match s with
  | String c s' =>
      if Ascii.eqb c "e" || Ascii.eqb c "E" then
        match s' with
        | String "+" r => match digits r with Some v => v | None => 0 end
        | String "-" r => match digits r with Some v => - v | None => 0 end
        | _ => match digits s' with Some v => v | None => 0 end
        end
      else 0
  | EmptyString => 0
  end%Z.

(** The mathematical value of a literal is [N * 10 ^ E]. *)
Variant literal :=
  | LitInfinity
  | LitDecimal (N E : Z).

(** [StrUnsignedDecimalLiteral]: [Infinity], digits with an optional
    fraction, or a fraction alone, each with an optional exponent. *)
Definition scanUnsigned (s : string) : option literal :=
  if String.prefix "Infinity" s then Some LitInfinity
  else
    let '(i, ni, r) := scanDigits s 0 0 in
    match r with
    | String "." r' =>
        let '(m, nf, r'') := scanDigits r' i 0 in
        match ni, nf with
        | O, O => None
        | _, _ => Some (LitDecimal m (scanExponent r'' - Z.of_nat nf))
        end
    | _ =>
        match ni with
        | O => None
        | S _ => Some (LitDecimal i (scanExponent r))
        end
    end.

(** The binary64 nearest to [N * 10 ^ E] for [N >= 0], ties to even, as
    [SpecFloat] rounds an integer and a quotient of integers. *)
Definition roundDecimal (N E : Z) : spec_float :=
  match N with
  | Zpos n =>
      if (0 <=? E)%Z then
        binary_normalize prec emax (Zpos n * 10 ^ E) 0 false
      else
        let '(q, e, l) :=
          SFdiv_core_binary prec emax (Zpos n) 0 (10 ^ (- E)) 0 in
        binary_round_aux prec emax false q e l
  | _ => S754_zero false
  end.

Definition parseFloat (s : string) : float :=
  let t := trimStart s in
  let '(neg, u) :=
    match t with
    | String "-" u => (true, u)
    | String "+" u => (false, u)
    | _ => (false, t)
    end in
  match scanUnsigned u with
  | None => nan
  | Some LitInfinity => if neg then neg_infinity else infinity
  | Some (LitDecimal N E) =>
      let x := SF2Prim (roundDecimal N E) in
      if neg then (- x)%float else x
  end.

(** ** [Number.prototype.toFixed]

    For a finite [x] below [10 ^ 21] in magnitude, [toFixed] prints the
    integer [n] nearest to [x * 10 ^ f] (the larger one on a tie) with a
    decimal point before its last [f] digits.  Other values are printed
    as [Number::toString] prints them: [NaN], [Infinity], or the
    shortest digit string that reads back as [x], in exponent form. *)

Definition digitsOf (n : Z) : string :=
  NilZero.string_of_uint (N.to_uint (Z.to_N n)).

Fixpoint zeros (n : nat) : string :=
  match n with
  | O => ""
  | S n' => String "0" (zeros n')
  end.

(** The candidates [(k, s, n)] with [10 ^ (k - 1) <= s < 10 ^ k] whose
    value [s * 10 ^ (n - k)] reads back as [x], for the integer [X] that
    [x] denotes, by increasing [k] and then by distance to [X]. *)
Definition shortestDigits (x : float) (X : Z) : option (Z * Z * Z) :=
  let d := Z.of_nat (String.length (digitsOf X)) in
  let candidates :=
    flat_map (fun k =>
      flat_map (fun n =>
        let p := (10 ^ (n - k))%Z in
        map (fun s => (k, s, n)) [(X / p)%Z; (X / p + 1)%Z])
      [d; (d + 1)%Z])
    (map Z.of_nat (seq 1 17)) in
  let readsBack '(k, s, n) :=
    ((10 ^ (k - 1) <=? s)%Z && (s <? 10 ^ k)%Z &&
     (SF2Prim (roundDecimal s (n - k)) =? x)%float) in
  let closer '(k, s, n) '(k', s', n') :=
    ((k <? k')%Z ||
     ((k =? k')%Z &&
      (Z.abs (s * 10 ^ (n - k) - X) <=? Z.abs (s' * 10 ^ (n' - k') - X))%Z)) in
  fold_left (fun best c =>
               match best with
               | None => Some c
               | Some b => if closer b c then Some b else Some c
               end)
            (filter readsBack candidates) None.

Definition toStringExponent (x : float) (X : Z) : string :=
  match shortestDigits x X with
  | Some (k, s, n) =>
      match digitsOf s with
      | String c EmptyString => String c ("e+" ++ digitsOf (n - 1))%string
      | String c rest =>
          String c ("." ++ rest ++ "e+" ++ digitsOf (n - 1))%string
      | EmptyString => ""
      end
  | None => ""
  end.

Definition toFixed (x : float) (f : nat) : string :=
  match Prim2SF x with
  | S754_nan => "NaN"
  | S754_infinity false => "Infinity"
  | S754_infinity true => "-Infinity"
  | S754_zero _ =>
      match f with O => "0" | S _ => ("0." ++ zeros f)%string end
  | S754_finite neg m e =>
      let sign := if neg then "-" else "" in
      let num := (Zpos m * 2 ^ Z.max e 0)%Z in
      let den := (2 ^ Z.max (- e) 0)%Z in
      if (10 ^ 21 * den <=? num)%Z then
        (sign ++ toStringExponent (abs x) (num / den))%string
      else
        let n := ((2 * num * 10 ^ Z.of_nat f + den) / (2 * den))%Z in
        let m := digitsOf n in
        let k := String.length m in
        match f with
        | O => (sign ++ m)%string
        | S _ =>
            let m := (zeros (S f - k) ++ m)%string in
            let k := String.length m in
            (sign ++ substring 0 (k - f) m ++ "." ++ substring (k - f) f m)%string
        end
  end.

(** ** [Array.prototype.sort]

    The sort is stable; [comparefn x y] is positive when [x] goes after
    [y], and a result that is zero, negative or NaN leaves [x] before
    [y].  With a consistent comparator every conforming engine returns
    the list computed here, by insertion from the right.  With an
    inconsistent one, as [b - a] is on a NaN, the order is left to the
    engine and the one computed here is one of those it may return. *)

Section Sort.
Context {A : Type} (comparefn : A -> A -> float).

Fixpoint insert (x : A) (l : list A) : list A :=
  match l with
  | [] => [x]
  | y :: l' =>
      if (0 <? comparefn x y)%float then y :: insert x l'
      else x :: y :: l'
  end.

Definition sort (l : list A) : list A := fold_right insert [] l.
End Sort.

(** ** [JSON.stringify (value, null, 2)]

    The values the scripts write are objects, arrays, strings and
    counts.  An object or array that is not empty has its members one
    on a line, indented two spaces more than the line that opens it. *)

#[warnings="-register-all"]
Inductive JSON :=
  | JString (s : string)
  | JNumber (n : N)
  | JArray (elements : list JSON)
  | JObject (members : list (string * JSON)).

Definition newline : string := String "010" "".
Definition doubleQuote : string := String "034" "".
Definition backslash : string := String "092" "".

Definition hexDigit (n : nat) : ascii :=
  if (n <? 10)%nat then ascii_of_nat (48 + n) else ascii_of_nat (87 + n).

(** [QuoteJSONString] on one character of ASCII text *)
Definition quoteChar (c : ascii) : string :=
  let n := nat_of_ascii c in
  (if (n =? 8)%nat then backslash ++ "b"
   else if (n =? 9)%nat then backslash ++ "t"
   else if (n =? 10)%nat then backslash ++ "n"
   else if (n =? 12)%nat then backslash ++ "f"
   else if (n =? 13)%nat then backslash ++ "r"
   else if (n =? 34)%nat then backslash ++ doubleQuote
   else if (n =? 92)%nat then backslash ++ backslash
   else if (n <? 32)%nat then
     backslash ++ "u00" ++
     String (hexDigit (n / 16)) (String (hexDigit (n mod 16)) "")
   else String c "")%string.

Fixpoint quoteChars (s : string) : string :=
  match s with
  | EmptyString => EmptyString
  | String c s' => (quoteChar c ++ quoteChars s')%string
  end.

Definition quote (s : string) : string :=
  (doubleQuote ++ quoteChars s ++ doubleQuote)%string.

Fixpoint stringify (indent : string) (value : JSON) : string :=
  let inner := (indent ++ "  ")%string in
  let lines (ls : list string) : string :=
    (newline ++ String.concat ("," ++ newline) ls ++ newline ++ indent)%string in
  match value with
  | JString s => quote s
  | JNumber n => NilZero.string_of_uint (N.to_uint n)
  | JArray [] => "[]"
  | JArray elements =>
      ("[" ++ lines (map (fun v => inner ++ stringify inner v) elements)
       ++ "]")%string
  | JObject [] => "{}"
  | JObject members =>
      ("{" ++ lines (map (fun m => inner ++ quote (fst m) ++ ": "
                                   ++ stringify inner (snd m)) members)
       ++ "}")%string
  end.

End JS.

Import JS.

(* ================================================================== *)
(** * Binary64 numbers *)
(* ================================================================== *)

Module Number.

Local Open Scope Z_scope.

Definition isNaN (x : float) : bool := PrimFloat.is_nan x.

(** An order-preserving image of the valid non-NaN binary64 values in
    the integers: a finite value is scaled by [2 ^ 1074], the infinities
    lie beyond every finite image. *)
Definition scale (m : positive) (e : Z) : Z := Zpos m * 2 ^ (e + 1074).
Definition top : Z := 2 ^ 2200.

Definition ord (x : spec_float) : Z :=
  match x with
  | S754_zero _ => 0
  | S754_nan => 0
  | S754_infinity s => cond_Zopp s top
  | S754_finite s m e => cond_Zopp s (scale m e)
  end.

Definition ordF (x : float) : Z := ord (Prim2SF x).

Arguments scale : simpl never.
Arguments top : simpl never.

(** The values of sign [s] that are neither zero nor NaN *)
Variant signed (s : bool) : spec_float -> Prop :=
  | signed_finite m e : signed s (S754_finite s m e)
  | signed_infinity : signed s (S754_infinity s).

End Number.

(* ================================================================== *)
(** * [merge_all_lenders.js] *)
(* ================================================================== *)

(** The script from its first line to the file it writes,
    [all_lenders.json], and the console summary that follows. *)

Module MergeAllLenders.

Local Open Scope float_scope.

(** ** Input files *)

(** A holder entry of either input file; the script reads its
    [address] and [shares] fields, both strings. *)
Record Holder := {
  h_address : string;
  h_shares : string;
}.

Record VaultState := {
  vs_price_per_share : string;
  vs_total_supply_shares : string;
  vs_total_assets_crvusd : string;
}.

Record Contracts := {
  c_vault : string;
  c_gauge : string;
  c_convex_voter_proxy : string;
  c_convex_booster : string;
  c_convex_reward_contract : string;
}.

(** [lender_data.json] *)
Record LenderData := {
  ld_holders : list Holder;
  ld_timestamp : string;
}.

(** [convex_lender_data.json]; [block], a block height, and [chain] are
    copied to the output untouched. *)
Record ConvexData := {
  cd_vault_state : VaultState;
  cd_contracts : Contracts;
  cd_convex_active_holders : list Holder;
  cd_direct_gauge_stakers : list Holder;
  cd_timestamp : string;
  cd_block : N;
  cd_chain : string;
}.

(** ** Merged records *)

Record Position := {
  shares : float;
  crvusd_value : float;
}.

(** [null] is [None]. *)
Record Positions := {
  direct_vault : option Position;
  convex : option Position;
  direct_gauge : option Position;
}.

Record Rec := {
  address : string;
  positions : Positions;
  total_shares : float;
  total_crvusd_value : float;
  pct_of_vault : string;
  sources : list string;
}.

(** The three categories, each the name of a property of [positions]
    and of an entry of [sources]. *)
Variant Category := DirectVault | Convex | DirectGauge.

Definition name (c : Category) : string :=
  match c with
  | DirectVault => "direct_vault"
  | Convex => "convex"
  | DirectGauge => "direct_gauge"
  end.

Definition position (c : Category) (p : Positions) : option Position :=
  match c with
  | DirectVault => direct_vault p
  | Convex => convex p
  | DirectGauge => direct_gauge p
  end.

Definition setPosition (c : Category) (v : Position) (p : Positions)
  : Positions :=
  match c with
  | DirectVault =>
      {| direct_vault := Some v; convex := convex p;
         direct_gauge := direct_gauge p |}
  | Convex =>
      {| direct_vault := direct_vault p; convex := Some v;
         direct_gauge := direct_gauge p |}
  | DirectGauge =>
      {| direct_vault := direct_vault p; convex := convex p;
         direct_gauge := Some v |}
  end.

(** [Array.prototype.includes] and [Set.prototype.has] on strings *)
Definition arrayIncludes (l : list string) (x : string) : bool :=
  existsb (String.eqb x) l.

(** ** The accumulator map

    [merged] is a [Map] from lower-cased address to record; it keeps its
    entries in insertion order.  The loops mutate the record they get
    from [getOrCreate] in place: [update] is that mutation. *)

Definition Merged := list (string * Rec).

Definition has (key : string) (merged : Merged) : bool :=
  existsb (fun e => String.eqb (fst e) key) merged.

Definition get (key : string) (merged : Merged) : option Rec :=
  option_map snd (find (fun e => String.eqb (fst e) key) merged).

Definition blank (addr : string) : Rec :=
  {| address := addr;
     positions := {| direct_vault := None; convex := None;
                     direct_gauge := None |};
     total_shares := 0;
     total_crvusd_value := 0;
     pct_of_vault := "0.00";
     sources := [] |}.

Definition getOrCreate (addr : string) (merged : Merged) : Merged :=
  let key := toLowerCase addr in
  if has key merged then merged else merged ++ [(key, blank addr)].

Definition update (key : string) (f : Rec -> Rec) (merged : Merged)
  : Merged :=
  map (fun e => if String.eqb (fst e) key then (fst e, f (snd e)) else e)
      merged.

(** The body shared by the three loops once a record is accepted: set
    the position of the category, add to the totals, note the source. *)
Definition record (c : Category) (shares crvusdValue : float) (rec : Rec)
  : Rec :=
  {| address := address rec;
     positions :=
       setPosition c {| shares := shares; crvusd_value := crvusdValue |}
                   (positions rec);
     total_shares := total_shares rec + shares;
     total_crvusd_value := total_crvusd_value rec + crvusdValue;
     pct_of_vault := pct_of_vault rec;
     sources :=
       if arrayIncludes (sources rec) (name c) then sources rec
       else sources rec ++ [name c] |}.

(** What a loop does with a record it does not skip: [getOrCreate],
    then the mutations of [record] on the record it returns. *)
Definition accept (c : Category) (pricePerShare : float) (h : Holder)
  (merged : Merged) : Merged :=
  let shares := parseFloat (h_shares h) in
  let crvusdValue := shares * pricePerShare in
  update (toLowerCase (h_address h)) (record c shares crvusdValue)
         (getOrCreate (h_address h) merged).

Section Run.

Variable lenderData : LenderData.
Variable convexData : ConvexData.

Definition pricePerShare : float :=
  parseFloat (vs_price_per_share (cd_vault_state convexData)).
Definition totalVaultShares : float :=
  parseFloat (vs_total_supply_shares (cd_vault_state convexData)).
Definition totalVaultCrvusd : float :=
  parseFloat (vs_total_assets_crvusd (cd_vault_state convexData)).

Definition EXCLUDED_CONTRACTS : list string :=
  [ toLowerCase (c_gauge (cd_contracts convexData));
    toLowerCase (c_convex_voter_proxy (cd_contracts convexData));
    toLowerCase (c_convex_booster (cd_contracts convexData));
    toLowerCase (c_convex_reward_contract (cd_contracts convexData)) ].

(** 1. direct vault holders *)
Definition ingestDirectVault (merged : Merged) (h : Holder) : Merged :=
  let shares := parseFloat (h_shares h) in
  if shares <=? 0 then merged
  else if arrayIncludes EXCLUDED_CONTRACTS (toLowerCase (h_address h))
  then merged
  else accept DirectVault pricePerShare h merged.

(** 2. Convex active depositors *)
Definition ingestConvex (merged : Merged) (h : Holder) : Merged :=
  let shares := parseFloat (h_shares h) in
  if shares <=? 0 then merged
  else accept Convex pricePerShare h merged.

(** 3. direct gauge stakers *)
Definition ingestDirectGauge (merged : Merged) (h : Holder) : Merged :=
  let shares := parseFloat (h_shares h) in
  if shares <=? 0 then merged
  else accept DirectGauge pricePerShare h merged.

Definition ingested : Merged :=
  fold_left ingestDirectGauge (cd_direct_gauge_stakers convexData)
    (fold_left ingestConvex (cd_convex_active_holders convexData)
       (fold_left ingestDirectVault (ld_holders lenderData) [])).

(** [pct_of_vault] of every record *)
Definition setPct (rec : Rec) : Rec :=
  {| address := address rec;
     positions := positions rec;
     total_shares := total_shares rec;
     total_crvusd_value := total_crvusd_value rec;
     pct_of_vault :=
       toFixed ((total_shares rec / totalVaultShares) * 100) 2;
     sources := sources rec |}.

Definition merged : Merged :=
  map (fun e => (fst e, setPct (snd e))) ingested.

(** [[...merged.values()]] *)
Definition values (m : Merged) : list Rec := map snd m.

Definition byValueDesc (a b : Rec) : float :=
  total_crvusd_value b - total_crvusd_value a.

Definition sorted : list Rec := sort byValueDesc (values merged).

(** ** Formatted output *)

Definition fmtShares (n : float) : string := toFixed n 18.
Definition fmtCrvusd (n : float) : string := toFixed n 6.

Record FormattedPosition := {
  fp_shares : string;
  fp_crvusd_value : string;
}.

(** A property of [breakdown] exists only for a non-null position. *)
Record Breakdown := {
  b_direct_vault : option FormattedPosition;
  b_convex : option FormattedPosition;
  b_direct_gauge : option FormattedPosition;
}.

Record Lender := {
  l_rank : nat;
  l_address : string;
  l_total_shares : string;
  l_total_crvusd_value : string;
  l_pct_of_vault : string;
  l_sources : list string;
  l_positions : Breakdown;
}.

Definition fmtPosition (p : Position) : FormattedPosition :=
  {| fp_shares := fmtShares (shares p);
     fp_crvusd_value := fmtCrvusd (crvusd_value p) |}.

Definition formatLender (rec : Rec) (idx : nat) : Lender :=
  {| l_rank := idx + 1;
     l_address := address rec;
     l_total_shares := fmtShares (total_shares rec);
     l_total_crvusd_value := fmtCrvusd (total_crvusd_value rec);
     l_pct_of_vault := pct_of_vault rec;
     l_sources := sources rec;
     l_positions :=
       {| b_direct_vault :=
            option_map fmtPosition (direct_vault (positions rec));
          b_convex := option_map fmtPosition (convex (positions rec));
          b_direct_gauge :=
            option_map fmtPosition (direct_gauge (positions rec)) |} |}.

Definition breakdownOf (c : Category) (b : Breakdown)
  : option FormattedPosition :=
  match c with
  | DirectVault => b_direct_vault b
  | Convex => b_convex b
  | DirectGauge => b_direct_gauge b
  end.

(** [Array.prototype.map] with the index *)
Fixpoint mapIdx {A B : Type} (f : A -> nat -> B) (l : list A) (idx : nat)
  : list B :=
  match l with
  | [] => []
  | x :: l' => f x idx :: mapIdx f l' (S idx)
  end.

Definition formattedLenders : list Lender := mapIdx formatLender sorted 0.

(** ** Aggregate statistics *)

Definition totalMergedShares : float :=
  fold_left (fun sum r => sum + total_shares r) sorted 0.
Definition totalMergedCrvusd : float :=
  fold_left (fun sum r => sum + total_crvusd_value r) sorted 0.

Definition multiSourceCount : nat :=
  List.length (filter (fun r => (1 <? List.length (sources r))%nat) sorted).

Record SourceSummary := {
  ss_count : nat;
  ss_total_crvusd : string;
}.

Definition sourceSummary (c : Category) : SourceSummary :=
  {| ss_count :=
       List.length
         (filter (fun r => arrayIncludes (sources r) (name c)) sorted);
     ss_total_crvusd :=
       fmtCrvusd
         (fold_left
            (fun s r =>
               match position c (positions r) with
               | Some p => s + crvusd_value p
               | None => s
               end)
            (filter (fun r => match position c (positions r) with
                              | Some _ => true
                              | None => false
                              end) sorted)
            0) |}.

Record Summary := {
  unique_lenders : nat;
  multi_source_lenders : nat;
  total_tracked_shares : string;
  total_tracked_crvusd : string;
  coverage_pct : string;
  by_direct_vault : SourceSummary;
  by_convex : SourceSummary;
  by_direct_gauge : SourceSummary;
}.

Record Vault := {
  v_address : string;
  v_total_supply_shares : string;
  v_total_assets_crvusd : string;
  v_price_per_share : string;
  v_block : N;
  v_chain : string;
}.

Record Output := {
  generated_at : string;
  description : string;
  source_timestamps : string * string;
  vault : Vault;
  summary : Summary;
  lenders : list Lender;
}.

(** The object written to [all_lenders.json]; [now] is what
    [new Date().toISOString()] returns. *)
Definition output (now : string) : Output :=
  {| generated_at := now;
     description :=
       "Unified lender view merging direct vault holders, Convex depositors, and direct gauge stakers. Addresses appearing in multiple categories have their positions summed.";
     source_timestamps := (ld_timestamp lenderData, cd_timestamp convexData);
     vault :=
       {| v_address := c_vault (cd_contracts convexData);
          v_total_supply_shares :=
            vs_total_supply_shares (cd_vault_state convexData);
          v_total_assets_crvusd :=
            vs_total_assets_crvusd (cd_vault_state convexData);
          v_price_per_share :=
            vs_price_per_share (cd_vault_state convexData);
          v_block := cd_block convexData;
          v_chain := cd_chain convexData |};
     summary :=
       {| unique_lenders := List.length sorted;
          multi_source_lenders := multiSourceCount;
          total_tracked_shares := fmtShares totalMergedShares;
          total_tracked_crvusd := fmtCrvusd totalMergedCrvusd;
          coverage_pct :=
            toFixed ((totalMergedShares / totalVaultShares) * 100) 2;
          by_direct_vault := sourceSummary DirectVault;
          by_convex := sourceSummary Convex;
          by_direct_gauge := sourceSummary DirectGauge |};
     lenders := formattedLenders |}.

(** ** The file written *)

Definition positionJSON (p : FormattedPosition) : JSON :=
  JObject [("shares", JString (fp_shares p));
           ("crvusd_value", JString (fp_crvusd_value p))].

(** The properties of [breakdown], those of the positions held *)
Definition breakdownJSON (b : Breakdown) : JSON :=
  JObject
    (match b_direct_vault b with
     | Some p => [("direct_vault", positionJSON p)]
     | None => []
     end ++
     match b_convex b with
     | Some p => [("convex", positionJSON p)]
     | None => []
     end ++
     match b_direct_gauge b with
     | Some p => [("direct_gauge", positionJSON p)]
     | None => []
     end).

Definition lenderJSON (l : Lender) : JSON :=
  JObject [("rank", JNumber (N.of_nat (l_rank l)));
           ("address", JString (l_address l));
           ("total_shares", JString (l_total_shares l));
           ("total_crvusd_value", JString (l_total_crvusd_value l));
           ("pct_of_vault", JString (l_pct_of_vault l));
           ("sources", JArray (map JString (l_sources l)));
           ("positions", breakdownJSON (l_positions l))].

Definition sourceSummaryJSON (ss : SourceSummary) : JSON :=
  JObject [("count", JNumber (N.of_nat (ss_count ss)));
           ("total_crvusd", JString (ss_total_crvusd ss))].

Definition outputJSON (o : Output) : JSON :=
  JObject
    [("generated_at", JString (generated_at o));
     ("description", JString (description o));
     ("source_timestamps",
      JObject [("lender_data", JString (fst (source_timestamps o)));
               ("convex_lender_data", JString (snd (source_timestamps o)))]);
     ("vault",
      JObject [("address", JString (v_address (vault o)));
               ("total_supply_shares",
                JString (v_total_supply_shares (vault o)));
               ("total_assets_crvusd",
                JString (v_total_assets_crvusd (vault o)));
               ("price_per_share", JString (v_price_per_share (vault o)));
               ("block", JNumber (v_block (vault o)));
               ("chain", JString (v_chain (vault o)))]);
     ("summary",
      JObject [("unique_lenders",
                JNumber (N.of_nat (unique_lenders (summary o))));
               ("multi_source_lenders",
                JNumber (N.of_nat (multi_source_lenders (summary o))));
               ("total_tracked_shares",
                JString (total_tracked_shares (summary o)));
               ("total_tracked_crvusd",
                JString (total_tracked_crvusd (summary o)));
               ("coverage_pct", JString (coverage_pct (summary o)));
               ("by_source",
                JObject [("direct_vault",
                          sourceSummaryJSON (by_direct_vault (summary o)));
                         ("convex",
                          sourceSummaryJSON (by_convex (summary o)));
                         ("direct_gauge",
                          sourceSummaryJSON (by_direct_gauge (summary o)))])]);
     ("lenders", JArray (map lenderJSON (lenders o)))].

(** The contents of [all_lenders.json] after a run at time [now] *)
Definition written (now : string) : string :=
  stringify "" (outputJSON (output now)).

(** ** The console summary

    The lines printed once the file is written; [outPath] is the path
    of [all_lenders.json] beside the script. *)

(** [`${n}`] for an array length or a rank *)
Definition showLength (n : nat) : string :=
  NilZero.string_of_uint (Nat.to_uint n).

(** [`${l.sources[0]}`]: an empty array has no first element and the
    template prints [undefined]. *)
Definition firstSource (l : Lender) : string :=
  match l_sources l with
  | s :: _ => s
  | [] => "undefined"
  end.

Definition srcTag (l : Lender) : string :=
  if (1 <? List.length (l_sources l))%nat
  then (" [" ++ String.concat "+" (l_sources l) ++ "]")%string
  else (" [" ++ firstSource l ++ "]")%string.

Definition topLine (l : Lender) : string :=
  ("  #" ++ showLength (l_rank l) ++ "  " ++ l_address l ++ "  " ++
   l_total_crvusd_value l ++ " crvUSD  (" ++ l_pct_of_vault l ++ "%)" ++
   srcTag l)%string.

(** [sorted.filter (r => r.sources.includes (name)).length] *)
Definition sourceCount (c : Category) : nat :=
  List.length (filter (fun r => arrayIncludes (sources r) (name c)) sorted).

Definition consoleSummary (outPath : string) : list string :=
  [ "=== ALL LENDERS MERGED ===";
    ("Unique addresses:       " ++ showLength (List.length sorted))%string;
    ("Multi-source holders:   " ++ showLength multiSourceCount)%string;
    ("Total tracked crvUSD:   " ++ fmtCrvusd totalMergedCrvusd)%string;
    ("Vault total crvUSD:     " ++
     vs_total_assets_crvusd (cd_vault_state convexData))%string;
    ("Coverage:               " ++
     toFixed ((totalMergedShares / totalVaultShares) * 100) 2 ++ "%")%string;
    "";
    "Per-source breakdown:";
    ("  direct_vault:  " ++ showLength (sourceCount DirectVault) ++
     " addresses")%string;
    ("  convex:        " ++ showLength (sourceCount Convex) ++
     " addresses")%string;
    ("  direct_gauge:  " ++ showLength (sourceCount DirectGauge) ++
     " addresses")%string;
    "";
    "Top 10 lenders by total crvUSD value:" ] ++
  map topLine (firstn 10 formattedLenders) ++
  [ ""; ("Written to: " ++ outPath)%string ].

(** ** The records the loops accept

    What the three loops do to one address is determined by the
    records they do not skip, in the order they meet them. *)

Definition source (c : Category) : list Holder :=
  match c with
  | DirectVault => ld_holders lenderData
  | Convex => cd_convex_active_holders convexData
  | DirectGauge => cd_direct_gauge_stakers convexData
  end.

Definition excluded (c : Category) (h : Holder) : bool :=
  match c with
  | DirectVault =>
      arrayIncludes EXCLUDED_CONTRACTS (toLowerCase (h_address h))
  | _ => false
  end.

Definition accepted (c : Category) (h : Holder) : bool :=
  negb (parseFloat (h_shares h) <=? 0) && negb (excluded c h).

Definition tagged (c : Category) : list (Category * Holder) :=
  map (pair c) (filter (accepted c) (source c)).

Definition events : list (Category * Holder) :=
  tagged DirectVault ++ tagged Convex ++ tagged DirectGauge.

End Run.

(** The case-insensitive identity of a record's address *)
Definition identity (h : Holder) : string := toLowerCase (h_address h).

Definition sharesOf (e : Category * Holder) : float :=
  parseFloat (h_shares (snd e)).

Definition about (k : string) (evs : list (Category * Holder))
  : list (Category * Holder) :=
  filter (fun e => String.eqb (identity (snd e)) k) evs.

(** The position a record leaves under its category *)
Definition positionOf (price : float) (e : Category * Holder) : Position :=
  {| shares := sharesOf e; crvusd_value := sharesOf e * price |}.

(** What one accepted record does to the record of its address, absent
    ([None]) before the address is first met *)
Definition stepRec (price : float) (o : option Rec) (e : Category * Holder)
  : option Rec :=
  Some (record (fst e) (sharesOf e) (sharesOf e * price)
               (match o with
                | Some r => r
                | None => blank (h_address (snd e))
                end)).

Definition replay (price : float) (evs : list (Category * Holder))
  (merged : Merged) : Merged :=
  fold_left (fun m e => accept (fst e) price (snd e) m) evs merged.

Definition sameCategory (c c' : Category) : bool :=
  match c, c' with
  | DirectVault, DirectVault | Convex, Convex | DirectGauge, DirectGauge =>
      true
  | _, _ => false
  end.

(** The last record of category [c] in [evs], if any *)
Fixpoint lastOf (c : Category) (evs : list (Category * Holder))
  : option (Category * Holder) :=
  match evs with
  | [] => None
  | e :: evs' =>
      match lastOf c evs' with
      | Some e' => Some e'
      | None => if sameCategory (fst e) c then Some e else None
      end
  end.

(** The loop of a category *)
Definition ingest (lenderData : LenderData) (convexData : ConvexData)
  (c : Category) : Merged -> Holder -> Merged :=
  match c with
  | DirectVault => ingestDirectVault convexData
  | Convex => ingestConvex convexData
  | DirectGauge => ingestDirectGauge convexData
  end.

(** The value a record adds *)
Definition valueOf (price : float) (e : Category * Holder) : float :=
  sharesOf e * price.

(** How the record [r] of an address stands to the record [r0] it
    started from and the accepted records [hist] met since. *)
Definition follows (price : float) (r r0 : Rec)
  (hist : list (Category * Holder)) : Prop :=
  address r = address r0 /\
  pct_of_vault r = pct_of_vault r0 /\
  total_shares r = fold_left PrimFloat.add (map sharesOf hist) (total_shares r0) /\
  total_crvusd_value r =
    fold_left PrimFloat.add (map (valueOf price) hist) (total_crvusd_value r0) /\
  (forall c, position c (positions r) =
             match lastOf c hist with
             | Some e => Some (positionOf price e)
             | None => position c (positions r0)
             end) /\
  (forall x, In x (sources r) <->
             In x (sources r0) \/ exists e, In e hist /\ name (fst e) = x) /\
  (NoDup (sources r0) -> NoDup (sources r)).

(** The keys of the map are distinct and each is the lower-cased
    address of its record. *)
Definition wf (m : Merged) : Prop :=
  NoDup (map fst m) /\
  Forall (fun e => fst e = toLowerCase (address (snd e))) m.

End MergeAllLenders.

Import MergeAllLenders.

Local Open Scope float_scope.

(* ================================================================== *)
(** * Notions used to state the properties of the merger *)
(* ================================================================== *)

Definition holder (addr shares : string) : Holder :=
  {| h_address := addr; h_shares := shares |}.

Definition sampleLenderData (holders : list Holder) : LenderData :=
  {| ld_holders := holders; ld_timestamp := "2026-02-27T10:00:00.000Z" |}.

Definition sampleConvexData (price supply : string)
  (convexHolders gaugeStakers : list Holder) : ConvexData :=
  {| cd_vault_state :=
       {| vs_price_per_share := price;
          vs_total_supply_shares := supply;
          vs_total_assets_crvusd := "300" |};
     cd_contracts :=
       {| c_vault := "0x5071AE";
          c_gauge := "0xGaUgE1";
          c_convex_voter_proxy := "0xPr0Xy2";
          c_convex_booster := "0xB005t3";
          c_convex_reward_contract := "0xReWaRd4" |};
     cd_convex_active_holders := convexHolders;
     cd_direct_gauge_stakers := gaugeStakers;
     cd_timestamp := "2026-02-28T10:00:00.000Z";
     cd_block := 17000000;
     cd_chain := "Fraxtal (252)" |}.

(** The facts of a ledger entry that the properties below speak of *)
Definition entry (r : Rec) :=
  (address r, total_shares r, total_crvusd_value r, sources r,
   option_map shares (direct_vault (positions r)),
   option_map shares (convex (positions r)),
   option_map shares (direct_gauge (positions r))).

Definition line (l : Lender) :=
  (l_rank l, l_address l, l_total_shares l, l_total_crvusd_value l,
   l_sources l).

Definition c1_lenderData : LenderData :=
  sampleLenderData [holder "0xBaD0001" "n/a"].
Definition c1_convexData : ConvexData := sampleConvexData "2.0" "150" [] [].

(** The positions a record holds, in the order of the categories, and a
    sum over them in the script's arithmetic *)
Definition present (r : Rec) : list Position :=
  match direct_vault (positions r) with Some p => [p] | None => [] end ++
  match convex (positions r) with Some p => [p] | None => [] end ++
  match direct_gauge (positions r) with Some p => [p] | None => [] end.

Definition sumOver (f : Position -> float) (r : Rec) : float :=
  fold_left (fun s p => s + f p) (present r) 0.

Definition conserved (r : Rec) : Prop :=
  total_shares r = sumOver shares r /\
  total_crvusd_value r = sumOver crvusd_value r.

Definition c2_lenderData : LenderData :=
  sampleLenderData [holder "0xAbC0001" "1"; holder "0xabc0001" "2"].
Definition c2_convexData : ConvexData := sampleConvexData "2.0" "150" [] [].

(** The order in which identities are first met *)
Definition firstSeen (ks : list string) : list string :=
  fold_left (fun acc k => if arrayIncludes acc k then acc else acc ++ [k])
            ks [].

Definition geValue (a b : Rec) : Prop :=
  (total_crvusd_value b <=? total_crvusd_value a) = true.

Definition tie (v : float) (r : Rec) : bool := total_crvusd_value r =? v.

Definition numeric (r : Rec) : Prop :=
  Number.isNaN (total_crvusd_value r) = false.

Definition c3_lenderData : LenderData :=
  sampleLenderData [holder "0xAAa0001" "10"; holder "0xBBb0002" "30"].
Definition c3_convexData : ConvexData :=
  sampleConvexData "2.0" "150"
    [holder "0xCCc0003" "10"; holder "0xaaa0001" "5"] [holder "0xDDd0004" "15"].

Definition c3_nan_lenderData : LenderData :=
  sampleLenderData
    [holder "0xAAa0001" "1"; holder "0xBAd0005" "n/a"; holder "0xBBb0002" "2"].

Definition c4_lenderData : LenderData :=
  sampleLenderData [holder "0xGAUGE1" "100"; holder "0xAAa0001" "10"].
Definition c4_convexData : ConvexData :=
  sampleConvexData "2.0" "150" [holder "0xgauge1" "40"] [].

Definition c5_lenderData : LenderData :=
  sampleLenderData [holder "0xAAA" "100"].
Definition c5_convexData : ConvexData :=
  sampleConvexData "2.0" "150" [holder "0xaaa" "50"] [].

(** The input files with the holders of one category replaced *)
Definition withSource (c : Category) (l : list Holder)
  (lenderData : LenderData) (convexData : ConvexData)
  : LenderData * ConvexData :=
  match c with
  | DirectVault =>
      ({| ld_holders := l; ld_timestamp := ld_timestamp lenderData |},
       convexData)
  | Convex =>
      (lenderData,
       {| cd_vault_state := cd_vault_state convexData;
          cd_contracts := cd_contracts convexData;
          cd_convex_active_holders := l;
          cd_direct_gauge_stakers := cd_direct_gauge_stakers convexData;
          cd_timestamp := cd_timestamp convexData;
          cd_block := cd_block convexData;
          cd_chain := cd_chain convexData |})
  | DirectGauge =>
      (lenderData,
       {| cd_vault_state := cd_vault_state convexData;
          cd_contracts := cd_contracts convexData;
          cd_convex_active_holders := cd_convex_active_holders convexData;
          cd_direct_gauge_stakers := l;
          cd_timestamp := cd_timestamp convexData;
          cd_block := cd_block convexData;
          cd_chain := cd_chain convexData |})
  end.

Definition c6_lenderData : LenderData :=
  sampleLenderData
    [holder "0xAAa0001" "10"; holder "0xEEe0006" "0"; holder "0xBBb0002" "30"].

(** The file up to the value of [generated_at] *)
Definition openingLines : string :=
  ("{" ++ newline ++ "  " ++ quote "generated_at" ++ ": ")%string.

Definition withGeneratedAt (t : string) (o : Output) : Output :=
  {| generated_at := t;
     description := description o;
     source_timestamps := source_timestamps o;
     vault := vault o;
     summary := summary o;
     lenders := lenders o |}.

Definition c9_lenderData : LenderData :=
  sampleLenderData
    [holder "0xAbC0001" "1"; holder "0xBBb0002" "5"; holder "0xabc0001" "2"].

(** Whether a record holds a position under a category, and whether a
    line of the output lists one *)
Definition held (c : Category) (r : Rec) : bool :=
  match position c (positions r) with
  | Some _ => true
  | None => false
  end.

Definition listed (c : Category) (l : Lender) : bool :=
  match breakdownOf c (l_positions l) with
  | Some _ => true
  | None => false
  end.

(** The categories in the order of the three loops *)
Definition loopOrder : list Category := [DirectVault; Convex; DirectGauge].

(** The accepted records of a source that carry the identity [k] *)
Definition acceptedAbout (lenderData : LenderData) (convexData : ConvexData)
  (c : Category) (k : string) : list Holder :=
  filter (fun h => String.eqb (identity h) k)
         (filter (accepted convexData c) (source lenderData convexData c)).

(** [sources.push] of a name not yet there *)
Definition pushNew (acc : list string) (k : string) : list string :=
  if arrayIncludes acc k then acc else acc ++ [k].

Definition x2_lenderData : LenderData :=
  sampleLenderData
    [holder "0xAbC0001" "10"; holder "0xBBb0002" "5"; holder "0xbbb0002" "2"].
Definition x2_convexData : ConvexData :=
  sampleConvexData "2.0" "150" [holder "0xabc0001" "4"] [].

Definition x4_lenderData : LenderData :=
  sampleLenderData
    [holder "0xAAa0001" "10"; holder "0xGAUGE1" "100"; holder "0xBBb0002" "30"].

Definition x5_lenderData : LenderData :=
  sampleLenderData [holder "0xAAa0001" "0"; holder "0xgauge1" "7"].
Definition x5_convexData : ConvexData :=
  sampleConvexData "2.0" "150" [holder "0xCCc0003" "-1"] [].



(* ================================================================== *)
(** * [data/analyze_selectors.js]: the classification loop *)
(* ================================================================== *)

(** The loop over [data.borrow_events] that fills [borrowerSummary] and
    prints the warnings, and the object the script saves after it.  The
    selector table printed before the loop (which needs keccak-256) and
    the report printed after it are left out: neither changes what is
    computed.

    [OBSERVED_SELECTORS] and [borrowerSummary] are plain objects used
    as maps and read by [obj[key]] with keys taken from the input: a
    read finds the properties every object inherits from
    [Object.prototype] too, and [Object.keys] and [Object.values] list
    array-index keys before the others.  Both are part of the model. *)

Module AnalyzeSelectors.

Local Open Scope float_scope.

(** An entry of [borrow_events] in [investigate_leverage_results.json].
    The two counts are lengths of arrays of logs. *)
Record Event := {
  timestamp : string;
  txHash : string;
  user : string;
  isSam : bool;
  samWallet : option string;
  collateral_increase_squid : float;
  loan_increase_crvusd : float;
  functionSelector : string;
  totalLogCount : N;
  transferCount : N;
}.

Definition OBSERVED_SELECTORS : list (string * string) :=
  [ ("0x23cfed03", "create_loan (standard)");
    ("0x4ba96d46", "create_loan_extended (LEVERAGE)");
    ("0x24977ef3", "borrow_more_extended (LEVERAGE)");
    ("0xdd171e7c", "borrow_more (standard)");
    ("0x24049e57", "add_collateral (no borrow)") ].

(** ** Objects used as maps

    An object is the list of its own properties in order of creation. *)

(** The own property of that name, if any *)
Fixpoint own {V : Type} (key : string) (obj : list (string * V))
  : option V :=
  match obj with
  | [] => None
  | (k, v) :: obj' => if String.eqb k key then Some v else own key obj'
  end.

(** The names of the properties of [Object.prototype] in Node.js.
    Each names a function, but [__proto__], which gives
    [Object.prototype] itself. *)
Definition inherited : list string :=
  [ "constructor"; "__defineGetter__"; "__defineSetter__"; "hasOwnProperty";
    "__lookupGetter__"; "__lookupSetter__"; "isPrototypeOf";
    "propertyIsEnumerable"; "toString"; "valueOf"; "__proto__";
    "toLocaleString" ].

Definition isInherited (key : string) : bool :=
  existsb (String.eqb key) inherited.

(** What [obj[key]] gives: the value of an own property; or a function
    or object inherited from [Object.prototype], which is truthy, is
    not a string and has none of the fields of a borrower; or
    [undefined]. *)
Variant Value (V : Type) : Type :=
  | Own (v : V)
  | Inherited
  | Undefined.

Arguments Own {V} v.
Arguments Inherited {V}.
Arguments Undefined {V}.

Definition property {V : Type} (key : string) (obj : list (string * V))
  : Value V :=
  match own key obj with
  | Some v => Own v
  | None => if isInherited key then Inherited else Undefined
  end.

(** An array index: the canonical decimal spelling of an integer from
    0 to 2^32 - 2. *)
Fixpoint decimalValue (s : string) (acc : N) : option N :=
  match s with
  | EmptyString => Some acc
  | String c s' =>
      if isDigit c
      then decimalValue s' (10 * acc + Z.to_N (digitValue c))
      else None
  end.

Definition arrayIndex (key : string) : option N :=
  match key with
  | EmptyString => None
  | String c rest =>
      if Ascii.eqb c "0" && negb (String.eqb rest "") then None
      else match decimalValue key 0 with
           | Some n => if (n <? 4294967295)%N then Some n else None
           | None => None
           end
  end.

Definition isArrayIndex (key : string) : bool :=
  match arrayIndex key with
  | Some _ => true
  | None => false
  end.

(** The own properties in the order in which [Object.keys] and
    [Object.values] list them: those with an array-index key in
    ascending order of the index, then the others in order of
    creation. *)
Fixpoint insertIndexed {V : Type} (n : N) (e : string * V)
  (l : list (N * (string * V))) : list (N * (string * V)) :=
  match l with
  | [] => [(n, e)]
  | (m, e') :: l' =>
      if (n <? m)%N then (n, e) :: l else (m, e') :: insertIndexed n e l'
  end.

Definition indexed {V : Type} (obj : list (string * V))
  : list (N * (string * V)) :=
  fold_right (fun e acc => match arrayIndex (fst e) with
                           | Some n => insertIndexed n e acc
                           | None => acc
                           end) [] obj.

Definition ownProperties {V : Type} (obj : list (string * V))
  : list (string * V) :=
  map snd (indexed obj) ++
  filter (fun e => negb (isArrayIndex (fst e))) obj.

Definition objectKeys {V : Type} (obj : list (string * V)) : list string :=
  map fst (ownProperties obj).

Definition objectValues {V : Type} (obj : list (string * V)) : list V :=
  map snd (ownProperties obj).

(** ** The loop *)

(** How a piece of the script ends: normally, or by a [TypeError] that
    nothing catches and that ends the script; [printed] is what the
    console holds by then. *)
Variant Completion (A : Type) : Type :=
  | Normal (a : A)
  | TypeError (printed : list string).

Arguments Normal {A} a.
Arguments TypeError {A} printed.

(** [x || d] on a string or [undefined]: the empty string is falsy. *)
Definition orElse (x : option string) (d : string) : string :=
  match x with
  | Some EmptyString | None => d
  | Some v => v
  end.

(** [`${n}`] for an array length *)
Definition showCount (n : N) : string :=
  NilZero.string_of_uint (N.to_uint n).

(** The entry pushed on a borrower's [events] *)
Record Entry := {
  e_timestamp : string;
  e_txHash : string;
  e_selector : string;
  e_classification : string;
  e_isLeverage : bool;
  e_collateral : float;
  e_borrowed : float;
  e_logCount : N;
  e_transferCount : N;
}.

Record Borrower := {
  b_address : string;
  b_isSam : bool;
  b_samWallet : option string;
  b_events : list Entry;
  totalCollateralDeposited : float;
  totalCrvUSDBorrowed : float;
  leverageCollateral : float;
  leverageBorrowed : float;
  standardCollateral : float;
  standardBorrowed : float;
  firstBorrow : option string;
  lastBorrow : option string;
  leverageCount : float;
  standardCount : float;
}.

(** What the script holds between two events: the [borrowerSummary]
    object, its own properties in order of creation, and the lines
    printed to the console. *)
Record State := {
  borrowerSummary : list (string * Borrower);
  console : list string;
}.

Definition fresh (event : Event) : Borrower :=
  {| b_address := user event;
     b_isSam := isSam event;
     b_samWallet := samWallet event;
     b_events := [];
     totalCollateralDeposited := 0;
     totalCrvUSDBorrowed := 0;
     leverageCollateral := 0;
     leverageBorrowed := 0;
     standardCollateral := 0;
     standardBorrowed := 0;
     firstBorrow := None;
     lastBorrow := None;
     leverageCount := 0;
     standardCount := 0 |}.

(** [!b.firstBorrow]: [null] and the empty string are falsy. *)
Definition unset (t : option string) : bool :=
  match t with
  | None | Some EmptyString => true
  | Some _ => false
  end.

Definition before (s : string) (t : option string) : bool :=
  match t with
  | Some t' => String.ltb s t'
  | None => false
  end.

(** [OBSERVED_SELECTORS[event.functionSelector] || 'UNKNOWN']: a label,
    or ([None]) the inherited function or object that a selector naming
    a property of [Object.prototype] reads, which is truthy and not a
    string. *)
Definition classificationOf (event : Event) : option string :=
  match property (functionSelector event) OBSERVED_SELECTORS with
  | Own v => Some (orElse (Some v) "UNKNOWN")
  | Undefined => Some (orElse None "UNKNOWN")
  | Inherited => None
  end.

Definition warning (event : Event) : string :=
  ("  WARNING: " ++ txHash event ++ " classified as leverage but only " ++
   showCount (totalLogCount event) ++ " logs")%string.

(** The mutations of the loop body on the borrower [b] of the event,
    [classification] being the label of the event *)
Definition tally (classification : string) (event : Event) (b : Borrower)
  : Borrower :=
  let isLeverage := includes classification "LEVERAGE" in
  let isStandard :=
    negb isLeverage &&
    (includes classification "borrow" || includes classification "create") in
  {| b_address := b_address b;
     b_isSam := b_isSam b;
     b_samWallet := b_samWallet b;
     b_events :=
       b_events b ++
       [ {| e_timestamp := timestamp event;
            e_txHash := txHash event;
            e_selector := functionSelector event;
            e_classification := classification;
            e_isLeverage := isLeverage;
            e_collateral := collateral_increase_squid event;
            e_borrowed := loan_increase_crvusd event;
            e_logCount := totalLogCount event;
            e_transferCount := transferCount event |} ];
     totalCollateralDeposited :=
       totalCollateralDeposited b + collateral_increase_squid event;
     totalCrvUSDBorrowed := totalCrvUSDBorrowed b + loan_increase_crvusd event;
     leverageCollateral :=
       if isLeverage
       then leverageCollateral b + collateral_increase_squid event
       else leverageCollateral b;
     leverageBorrowed :=
       if isLeverage then leverageBorrowed b + loan_increase_crvusd event
       else leverageBorrowed b;
     standardCollateral :=
       if isStandard
       then standardCollateral b + collateral_increase_squid event
       else standardCollateral b;
     standardBorrowed :=
       if isStandard then standardBorrowed b + loan_increase_crvusd event
       else standardBorrowed b;
     firstBorrow :=
       if unset (firstBorrow b) || before (timestamp event) (firstBorrow b)
       then Some (timestamp event) else firstBorrow b;
     lastBorrow :=
       if unset (lastBorrow b) ||
          match lastBorrow b with
          | Some t => String.ltb t (timestamp event)
          | None => false
          end
       then Some (timestamp event) else lastBorrow b;
     leverageCount :=
       if isLeverage then leverageCount b + 1 else leverageCount b;
     standardCount :=
       if isStandard then standardCount b + 1 else standardCount b |}.

Definition mutate (key : string) (f : Borrower -> Borrower)
  (obj : list (string * Borrower)) : list (string * Borrower) :=
  map (fun e => if String.eqb (fst e) key then (fst e, f (snd e)) else e) obj.

(** One turn of [for (const event of data.borrow_events)].  It throws
    where the script calls [classification.includes] on an inherited
    value that is not a string, and where it reads [b.events.push] on
    an inherited [b] that has no [events]; the warning is printed
    between the two. *)
Definition step (st : State) (event : Event) : Completion State :=
  match classificationOf event with
  | None => TypeError (console st)
  | Some classification =>
      let isLeverage := includes classification "LEVERAGE" in
      let isExtended := (10 <? totalLogCount event)%N in
      let console :=
        if isLeverage && negb isExtended then console st ++ [warning event]
        else console st in
      let addr := user event in
      match property addr (borrowerSummary st) with
      | Own _ =>
          Normal {| borrowerSummary :=
                      mutate addr (tally classification event)
                             (borrowerSummary st);
                    console := console |}
      | Undefined =>
          Normal {| borrowerSummary :=
                      mutate addr (tally classification event)
                             (borrowerSummary st ++ [(addr, fresh event)]);
                    console := console |}
      | Inherited => TypeError console
      end
  end.

(** The loop from the state [st] on *)
Fixpoint run (events : list Event) (st : State) : Completion State :=
  match events with
  | [] => Normal st
  | event :: events' =>
      match step st event with
      | Normal st' => run events' st'
      | TypeError printed => TypeError printed
      end
  end.

Definition classifyAll (events : list Event) : Completion State :=
  run events {| borrowerSummary := []; console := [] |}.

(** ** After the loop *)

Definition byBorrowedDesc (a b : Borrower) : float :=
  totalCrvUSDBorrowed b - totalCrvUSDBorrowed a.

(** [Object.values (borrowerSummary).sort (...)] *)
Definition sortedBorrowers (st : State) : list Borrower :=
  sort byBorrowedDesc (objectValues (borrowerSummary st)).

Definition wallet1 : string := "0x81f9B40Dee106a4C5822aED7641D5C1e2B40F922".
Definition wallet2 : string := "0xb53009E4dC25a494F3Bee03Ab121517e74b59F75".

(** [Object.keys (obj).find (k => k.toLowerCase () === wallet.toLowerCase ())] *)
Definition findKey (wallet : string) (obj : list (string * Borrower))
  : option string :=
  find (fun k => String.eqb (toLowerCase k) (toLowerCase wallet))
       (objectKeys obj).

(** [obj[key]] for the key found; with none found the key is
    [undefined] and the property read is the one of that name. *)
Definition walletOf (wallet : string) (obj : list (string * Borrower))
  : Value Borrower :=
  property (match findKey wallet obj with
            | Some k => k
            | None => "undefined"
            end) obj.

Definition samWallet1 (st : State) : Value Borrower :=
  walletOf wallet1 (borrowerSummary st).
Definition samWallet2 (st : State) : Value Borrower :=
  walletOf wallet2 (borrowerSummary st).

(** [w.field] on what a read gave.  An inherited function or object
    has none of the fields of a borrower: the read gives [undefined],
    which is NaN in arithmetic. *)
Definition numberOf (field : Borrower -> float) (w : Value Borrower)
  : float :=
  match w with
  | Own b => field b
  | _ => nan
  end.

Definition fieldOf {A : Type} (field : Borrower -> A) (w : Value Borrower)
  : Value A :=
  match w with
  | Own b => Own (field b)
  | _ => Undefined
  end.

Record SamCombined := {
  total_borrowed : float;
  leverage_borrowed : float;
  standard_borrowed : float;
  leverage_count : float;
  standard_count : float;
  wallet1_first : Value (option string);
  wallet2_first : Value (option string);
  wallet2_opened_while_wallet1_active : bool;
}.

(** [samWallet1 && samWallet2 ? {...} : null]: [undefined] alone is
    falsy. *)
Definition samCombined (st : State) : option SamCombined :=
  match samWallet1 st, samWallet2 st with
  | Undefined, _ | _, Undefined => None
  | w1, w2 =>
      Some {| total_borrowed :=
                numberOf totalCrvUSDBorrowed w1 +
                numberOf totalCrvUSDBorrowed w2;
              leverage_borrowed :=
                numberOf leverageBorrowed w1 + numberOf leverageBorrowed w2;
              standard_borrowed :=
                (numberOf totalCrvUSDBorrowed w1 +
                 numberOf totalCrvUSDBorrowed w2) -
                (numberOf leverageBorrowed w1 + numberOf leverageBorrowed w2);
              leverage_count :=
                numberOf leverageCount w1 + numberOf leverageCount w2;
              standard_count :=
                numberOf standardCount w1 + numberOf standardCount w2;
              wallet1_first := fieldOf firstBorrow w1;
              wallet2_first := fieldOf firstBorrow w2;
              wallet2_opened_while_wallet1_active := true |}
  end.

Record LeverageUsage := {
  leveraged_borrowers : float;
  standard_only_borrowers : float;
}.

(** The loop that counts the borrowers who used leverage *)
Definition countUsage (u : LeverageUsage) (b : Borrower) : LeverageUsage :=
  if 0 <? leverageCount b
  then {| leveraged_borrowers := leveraged_borrowers u + 1;
          standard_only_borrowers := standard_only_borrowers u |}
  else {| leveraged_borrowers := leveraged_borrowers u;
          standard_only_borrowers := standard_only_borrowers u + 1 |}.

Definition leverageUsage (st : State) : LeverageUsage :=
  fold_left countUsage (sortedBorrowers st)
            {| leveraged_borrowers := 0; standard_only_borrowers := 0 |}.

Record AnalysisOutput := {
  analysis_date : string;
  selector_map : list (string * string);
  borrower_summaries : list Borrower;
  sam_combined : option SamCombined;
  leverage_usage : LeverageUsage;
}.

(** The object saved to [leverage_analysis.json] after a loop that
    ended in the state [st]; [now] is what [new Date().toISOString()]
    returns. *)
Definition analysisOf (st : State) (now : string) : AnalysisOutput :=
  {| analysis_date := now;
     selector_map := OBSERVED_SELECTORS;
     borrower_summaries := sortedBorrowers st;
     sam_combined := samCombined st;
     leverage_usage := leverageUsage st |}.

(** The script from the loop on: a run whose loop throws saves
    nothing. *)
Definition analysisOutput (events : list Event) (now : string)
  : Completion AnalysisOutput :=
  match classifyAll events with
  | Normal st => Normal (analysisOf st now)
  | TypeError printed => TypeError printed
  end.

(** The heuristic's verdict and the table's, on an event whose
    selector reads a label *)
Definition isExtended (event : Event) : bool := (10 <? totalLogCount event)%N.
Definition isLeverage (event : Event) : bool :=
  match classificationOf event with
  | Some classification => includes classification "LEVERAGE"
  | None => false
  end.

(** The per-borrower totals an event adds to *)
Variant Bucket := Leverage | Standard | Neither.

Definition bucket (classification : string) : Bucket :=
  if includes classification "LEVERAGE" then Leverage
  else if includes classification "borrow" || includes classification "create"
       then Standard
       else Neither.

End AnalyzeSelectors.

Import AnalyzeSelectors.

(* ================================================================== *)
(** * Notions used to state the properties of the classifier *)
(* ================================================================== *)

Definition withLogCount (n : N) (event : Event) : Event :=
  {| timestamp := timestamp event;
     txHash := txHash event;
     user := user event;
     isSam := isSam event;
     samWallet := samWallet event;
     collateral_increase_squid := collateral_increase_squid event;
     loan_increase_crvusd := loan_increase_crvusd event;
     functionSelector := functionSelector event;
     totalLogCount := n;
     transferCount := transferCount event |}.

(** All that a borrower's record holds but the log counts noted in
    its entries *)
Definition apartFromLogCount (b : Borrower) :=
  (b_address b, b_isSam b, b_samWallet b,
   map (fun e => (e_timestamp e, e_txHash e, e_selector e,
                  e_classification e, e_isLeverage e, e_collateral e,
                  e_borrowed e, e_transferCount e))
       (b_events b),
   (totalCollateralDeposited b, totalCrvUSDBorrowed b),
   (leverageCollateral b, leverageBorrowed b, leverageCount b),
   (standardCollateral b, standardBorrowed b, standardCount b),
   (firstBorrow b, lastBorrow b)).

Definition summaryApartFromLogCount (st : State) :=
  map (fun kb => (fst kb, apartFromLogCount (snd kb))) (borrowerSummary st).

Definition sampleEvent (selector : string) (logs : N) : Event :=
  {| timestamp := "2025-03-02T12:00:00.000Z";
     txHash := "0x7e57";
     user := "0x81f9B40Dee106a4C5822aED7641D5C1e2B40F922";
     isSam := true;
     samWallet := Some "Wallet1";
     collateral_increase_squid := 1000;
     loan_increase_crvusd := 25;
     functionSelector := selector;
     totalLogCount := logs;
     transferCount := 2 |}.

Definition start : State := {| borrowerSummary := []; console := [] |}.

(** The label of an event whose selector reads one *)
Definition labelOf (event : Event) : string :=
  match classificationOf event with
  | Some classification => classification
  | None => ""
  end.

(** The state after a turn that completes *)
Definition turn (st : State) (event : Event) : State :=
  {| borrowerSummary :=
       mutate (user event) (tally (labelOf event) event)
              match own (user event) (borrowerSummary st) with
              | Some _ => borrowerSummary st
              | None => borrowerSummary st ++ [(user event, fresh event)]
              end;
     console :=
       console st ++
       (if isLeverage event && (totalLogCount event <=? 10)%N
        then [warning event] else []) |}.

(** An event whose selector and user name no property of
    [Object.prototype] *)
Definition plain (event : Event) : bool :=
  negb (isInherited (functionSelector event)) &&
  negb (isInherited (user event)).

(** The entry the loop pushes for an event of label [classification],
    and for an event whose selector reads a label *)
Definition entryWith (classification : string) (event : Event) : Entry :=
  {| e_timestamp := timestamp event;
     e_txHash := txHash event;
     e_selector := functionSelector event;
     e_classification := classification;
     e_isLeverage := includes classification "LEVERAGE";
     e_collateral := collateral_increase_squid event;
     e_borrowed := loan_increase_crvusd event;
     e_logCount := totalLogCount event;
     e_transferCount := transferCount event |}.

Definition entryOf (event : Event) : option Entry :=
  option_map (fun classification => entryWith classification event)
             (classificationOf event).

(** The events of a user, the address compared as it is spelled *)
Definition eventsOf (u : string) (events : list Event) : list Event :=
  filter (fun e => String.eqb (user e) u) events.

Definition tallyAll (es : list Event) (b : Borrower) : Borrower :=
  fold_left (fun b e => tally (labelOf e) e b) es b.

(** What one event does to the borrower of its user, absent ([None])
    before the first event of that user *)
Definition stepBorrower (o : option Borrower) (e : Event) : option Borrower :=
  Some (tally (labelOf e) e
              match o with
              | Some b => b
              | None => fresh e
              end).

(** Sums and counts as the loop accumulates them, from zero and in
    order *)
Definition sumOf (l : list float) : float := fold_left PrimFloat.add l 0.
Definition countOf {A : Type} (l : list A) : float :=
  fold_left (fun n _ => n + 1) l 0.

Definition standardEntry (e : Entry) : bool :=
  match bucket (e_classification e) with
  | Standard => true
  | _ => false
  end.

(** The totals of a borrower agree with the entries listed for it. *)
Definition consistent (b : Borrower) : Prop :=
  totalCollateralDeposited b = sumOf (map e_collateral (b_events b)) /\
  totalCrvUSDBorrowed b = sumOf (map e_borrowed (b_events b)) /\
  leverageCollateral b =
    sumOf (map e_collateral (filter e_isLeverage (b_events b))) /\
  leverageBorrowed b =
    sumOf (map e_borrowed (filter e_isLeverage (b_events b))) /\
  leverageCount b = countOf (filter e_isLeverage (b_events b)) /\
  standardCollateral b =
    sumOf (map e_collateral (filter standardEntry (b_events b))) /\
  standardBorrowed b =
    sumOf (map e_borrowed (filter standardEntry (b_events b))) /\
  standardCount b = countOf (filter standardEntry (b_events b)).

(** The events the loop warns about *)
Definition warned (event : Event) : bool :=
  isLeverage event && (totalLogCount event <=? 10)%N.

Definition geBorrowed (a b : Borrower) : Prop :=
  (totalCrvUSDBorrowed b <=? totalCrvUSDBorrowed a) = true.

Definition tieBorrowed (v : float) (b : Borrower) : bool :=
  totalCrvUSDBorrowed b =? v.

Definition numericBorrowed (b : Borrower) : Prop :=
  Number.isNaN (totalCrvUSDBorrowed b) = false.

(** Ascending order of array-index keys *)
Definition indexLe (k k' : string) : Prop :=
  match arrayIndex k, arrayIndex k' with
  | Some n, Some m => (n <= m)%N
  | _, _ => False
  end.

(** The first event whose user is the wallet up to letter case *)
Definition firstOf (wallet : string) (events : list Event) : option Event :=
  find (fun e => String.eqb (toLowerCase (user e)) (toLowerCase wallet))
       events.

Definition borrowEvent (t u selector : string) (loan : float) (logs : N)
  : Event :=
  {| timestamp := t;
     txHash := "0x7e57";
     user := u;
     isSam := false;
     samWallet := None;
     collateral_increase_squid := 1000;
     loan_increase_crvusd := loan;
     functionSelector := selector;
     totalLogCount := logs;
     transferCount := 2 |}.

Definition sampleEvents : list Event :=
  [ borrowEvent "2025-03-02T12:00:00.000Z" wallet1 "0x23cfed03" 25 6;
    borrowEvent "2025-03-05T12:00:00.000Z" wallet2 "0x4ba96d46" 100 60;
    borrowEvent "2025-03-01T12:00:00.000Z" (toLowerCase wallet1)
                "0xdd171e7c" 10 6;
    borrowEvent "2025-03-04T12:00:00.000Z" wallet1 "0x24977ef3" 50 8;
    borrowEvent "2025-03-03T12:00:00.000Z" wallet1 "0x24049e57" 0 6 ].

(** Four users with one loan each, two of them spelled as array
    indices *)
Definition indexedEvents : list Event :=
  [ borrowEvent "2025-03-01T12:00:00.000Z" "0xb" "0x23cfed03" 5 6;
    borrowEvent "2025-03-02T12:00:00.000Z" "10" "0x23cfed03" 5 6;
    borrowEvent "2025-03-03T12:00:00.000Z" "0xa" "0x23cfed03" 5 6;
    borrowEvent "2025-03-04T12:00:00.000Z" "7" "0x23cfed03" 5 6 ].

(* ================================================================== *)
(** * The built-ins on sample arguments *)
(* ================================================================== *)

Example parseFloat_samples :
  map parseFloat
      ["100"; " -2.5e3xyz"; ".5"; "1."; "-0"; "1e400"; "-Infinity"; "1e";
       "0x10"; "."; "n/a"; ""] =
  [100; -2500; 0.5; 1; -0; infinity; neg_infinity; 1; 0; nan; nan;
   nan]%float.
Proof. reflexivity. Qed.

Example toFixed_samples :
  [toFixed 150 18; toFixed 2.5 0; toFixed (-2.5) 0; toFixed 0.125 2;
   toFixed (-0) 2; toFixed nan 6; toFixed infinity 2; toFixed 1e21 2;
   toFixed 123456789012345683968 2]%float =
  ["150.000000000000000000"; "3"; "-3"; "0.13"; "0.00"; "NaN"; "Infinity";
   "1e+21"; "123456789012345683968.00"].
Proof. reflexivity. Qed.

Example sort_samples :
  sort (fun a b : float => b - a)%float [1; 3; 2; 3; 5]%float =
  [5; 3; 3; 2; 1]%float.
Proof. reflexivity. Qed.

(* ================================================================== *)
(** * Facts on binary64 numbers *)
(* ================================================================== *)

Module NumberFacts.

Import Number.
Local Open Scope Z_scope.

Lemma digits2_pos_size (m : positive) : digits2_pos m = Pos.size m.
Proof. induction m; simpl; congruence. Qed.

Lemma digits2_bounds (m : positive) :
  2 ^ (Zpos (digits2_pos m) - 1) <= Zpos m < 2 ^ Zpos (digits2_pos m).
Proof.
  rewrite digits2_pos_size.
  pose proof (Pos.size_gt m) as Hgt.
  pose proof (Pos.size_le m) as Hle.
  assert (Hp : forall k : positive, Zpos (2 ^ k) = 2 ^ Zpos k).
  { intros k. rewrite Pos2Z.inj_pow. reflexivity. }
  split.
  - assert (H2 : 2 ^ Zpos (Pos.size m) <= 2 * Zpos m).
    { rewrite <- Hp. change (2 * Zpos m) with (Zpos m~0). exact Hle. }
    replace (Zpos (Pos.size m)) with (Zpos (Pos.size m) - 1 + 1) in H2 by lia.
    rewrite Z.pow_add_r in H2 by lia. change (2 ^ 1) with 2 in H2. lia.
  - rewrite <- Hp. exact Hgt.
Qed.

Lemma canonical_inv (m : positive) (e : Z) :
  bounded prec emax m e = true ->
  -1074 <= e <= 971 /\ Zpos m < 2 ^ 53 /\ (-1074 < e -> 2 ^ 52 <= Zpos m).
Proof.
  unfold bounded, canonical_mantissa, fexp, SpecFloat.emin, prec, emax.
  intros H. apply andb_prop in H. destruct H as [Hc Hb].
  apply Z.eqb_eq in Hc. apply Z.leb_le in Hb.
  pose proof (digits2_bounds m) as [Hlo Hhi].
  set (d := Zpos (digits2_pos m)) in *.
  assert (Hd : d <= 53) by lia.
  repeat split; try lia.
  - apply Z.lt_le_trans with (1 := Hhi). apply Z.pow_le_mono_r; lia.
  - intros He. assert (d = 53) by lia. subst d.
    replace (52) with (Zpos (digits2_pos m) - 1) by lia. exact Hlo.
Qed.

Lemma finite_ord_bound (m : positive) (e : Z) :
  bounded prec emax m e = true -> 0 < scale m e < top.
Proof.
  unfold scale, top. intros H. destruct (canonical_inv _ _ H) as (He & Hm & _).
  assert (0 < 2 ^ (e + 1074)) by (apply Z.pow_pos_nonneg; lia).
  split; [lia|].
  apply Z.lt_le_trans with (2 ^ 53 * 2 ^ (e + 1074)).
  - apply Z.mul_lt_mono_pos_r; lia.
  - rewrite <- Z.pow_add_r by lia. apply Z.pow_le_mono_r; lia.
Qed.

Lemma finite_ord_lt (m1 m2 : positive) (e1 e2 : Z) :
  bounded prec emax m1 e1 = true -> bounded prec emax m2 e2 = true ->
  e1 < e2 -> scale m1 e1 < scale m2 e2.
Proof.
  unfold scale. intros H1 H2 Hlt.
  destruct (canonical_inv _ _ H1) as (He1 & Hm1 & _).
  destruct (canonical_inv _ _ H2) as (He2 & _ & Hm2).
  specialize (Hm2 ltac:(lia)).
  assert (0 < 2 ^ (e1 + 1074)) by (apply Z.pow_pos_nonneg; lia).
  assert (0 < 2 ^ (e2 + 1074)) by (apply Z.pow_pos_nonneg; lia).
  apply Z.lt_le_trans with (2 ^ 53 * 2 ^ (e1 + 1074)).
  { apply Z.mul_lt_mono_pos_r; lia. }
  apply Z.le_trans with (2 ^ 52 * 2 ^ (e2 + 1074)).
  - rewrite <- !Z.pow_add_r by lia. apply Z.pow_le_mono_r; lia.
  - apply Z.mul_le_mono_nonneg_r; lia.
Qed.

Lemma finite_ord_compare (m1 m2 : positive) (e1 e2 : Z) :
  bounded prec emax m1 e1 = true -> bounded prec emax m2 e2 = true ->
  (scale m1 e1 ?= scale m2 e2) =
  match e1 ?= e2 with
  | Lt => Lt
  | Gt => Gt
  | Eq => Pos.compare_cont Eq m1 m2
  end.
Proof.
  intros H1 H2. destruct (Z.compare_spec e1 e2) as [He | He | He].
  - subst e2. destruct (canonical_inv _ _ H1) as (He1 & _). unfold scale.
    assert (0 < 2 ^ (e1 + 1074)) by (apply Z.pow_pos_nonneg; lia).
    change (Pos.compare_cont Eq m1 m2) with (Zpos m1 ?= Zpos m2).
    destruct (Z.compare_spec (Zpos m1) (Zpos m2)) as [Hm | Hm | Hm].
    + rewrite Hm. apply Z.compare_refl.
    + apply Z.compare_lt_iff. apply Z.mul_lt_mono_pos_r; lia.
    + apply Z.compare_gt_iff. apply Z.mul_lt_mono_pos_r; lia.
  - apply Z.compare_lt_iff. now apply finite_ord_lt.
  - apply Z.compare_gt_iff. now apply finite_ord_lt.
Qed.

Ltac solve_compare :=
  match goal with
  | |- (_ ?= _) = Lt => apply Z.compare_lt_iff; lia
  | |- (_ ?= _) = Gt => apply Z.compare_gt_iff; lia
  | |- (_ ?= _) = Eq => apply Z.compare_eq_iff; lia
  end.

(** On valid values other than NaN, [SFcompare] is the comparison of
    the integer images. *)
Lemma SFcompare_ord (x y : spec_float) :
  valid_binary x = true -> valid_binary y = true ->
  x <> S754_nan -> y <> S754_nan ->
  SFcompare x y = Some (ord x ?= ord y).
Proof.
  intros Vx Vy Nx Ny.
  assert (0 < top) by (unfold top; apply Z.pow_pos_nonneg; lia).
  destruct x as [sx | sx | | sx mx ex], y as [sy | sy | | sy my ey];
    try congruence; cbn [valid_binary] in Vx, Vy;
    try pose proof (finite_ord_bound _ _ Vx);
    try pose proof (finite_ord_bound _ _ Vy);
    cbn [SFcompare ord].
  - reflexivity.
  - destruct sy; cbn [cond_Zopp]; f_equal; symmetry; solve_compare.
  - destruct sy; cbn [cond_Zopp]; f_equal; symmetry; solve_compare.
  - destruct sx; cbn [cond_Zopp]; f_equal; symmetry; solve_compare.
  - destruct sx, sy; cbn [cond_Zopp]; f_equal; symmetry; solve_compare.
  - destruct sx, sy; cbn [cond_Zopp]; f_equal; symmetry; solve_compare.
  - destruct sx; cbn [cond_Zopp]; f_equal; symmetry; solve_compare.
  - destruct sx, sy; cbn [cond_Zopp]; f_equal; symmetry; solve_compare.
  - pose proof (finite_ord_compare _ _ _ _ Vx Vy) as Hc.
    pose proof (finite_ord_compare _ _ _ _ Vy Vx) as Hc'.
    destruct sx, sy; cbn [cond_Zopp]; f_equal.
    + rewrite Z.compare_opp. rewrite Hc'.
      rewrite (Z.compare_antisym ey ex).
      destruct (ey ?= ex); cbn [CompOpp]; try reflexivity.
      rewrite (Pos.compare_cont_antisym mx my Eq). reflexivity.
    + symmetry. solve_compare.
    + symmetry. solve_compare.
    + rewrite Hc. reflexivity.
Qed.

(** *** Rounding keeps the sign of a non-zero value *)

Lemma shr_1_m (mrs : shr_record) :
  0 <= shr_m mrs -> shr_m (shr_1 mrs) = shr_m mrs / 2.
Proof.
  destruct mrs as [m r s]. cbn [shr_m]. intros Hm.
  destruct m as [| p | p]; [reflexivity | | lia].
  rewrite <- Z.div2_div. destruct p; reflexivity.
Qed.

Lemma pow2_xO (p : positive) : 2 ^ Zpos p~0 = 2 ^ Zpos p * 2 ^ Zpos p.
Proof. rewrite <- Z.pow_add_r by lia. f_equal. lia. Qed.

Lemma pow2_xI (p : positive) : 2 ^ Zpos p~1 = 2 * (2 ^ Zpos p * 2 ^ Zpos p).
Proof.
  rewrite <- Z.pow_add_r, <- Z.pow_succ_r by lia. f_equal. lia.
Qed.

Lemma iter_pos_shr_1_m (p : positive) (mrs : shr_record) :
  0 <= shr_m mrs ->
  shr_m (iter_pos shr_1 p mrs) = shr_m mrs / 2 ^ Zpos p.
Proof.
  revert mrs. induction p as [p IH | p IH |]; intros mrs Hm; cbn [iter_pos].
  - assert (0 < 2 ^ Zpos p) by (apply Z.pow_pos_nonneg; lia).
    assert (H1 : 0 <= shr_m (shr_1 mrs)).
    { rewrite shr_1_m by assumption. apply Z.div_pos; lia. }
    assert (H2 : 0 <= shr_m (iter_pos shr_1 p (shr_1 mrs))).
    { rewrite IH by assumption. apply Z.div_pos; assumption. }
    rewrite pow2_xI, IH, IH, shr_1_m by assumption.
    rewrite !Z.div_div by lia. reflexivity.
  - assert (0 < 2 ^ Zpos p) by (apply Z.pow_pos_nonneg; lia).
    assert (H2 : 0 <= shr_m (iter_pos shr_1 p mrs)).
    { rewrite IH by assumption. apply Z.div_pos; assumption. }
    rewrite pow2_xO, IH, IH by assumption.
    rewrite !Z.div_div by lia. reflexivity.
  - rewrite shr_1_m by assumption. reflexivity.
Qed.

Lemma shr_record_of_loc_m (m : Z) (l : location) :
  shr_m (shr_record_of_loc m l) = m.
Proof. destruct l as [| []]; reflexivity. Qed.

Lemma shr_fexp_pos (m e : Z) (l : location) :
  0 < m -> -1074 <= e ->
  0 < shr_m (fst (shr_fexp prec emax m e l)) /\
  -1074 <= snd (shr_fexp prec emax m e l).
Proof.
  intros Hm He. unfold shr_fexp, shr.
  destruct m as [| p | p]; try lia. cbn [Zdigits2].
  pose proof (digits2_bounds p) as [Hlo _].
  set (d := Zpos (digits2_pos p)) in *.
  assert (Hd : 1 <= d) by (unfold d; lia).
  unfold fexp, SpecFloat.emin, prec, emax.
  destruct (Z.max (d + e - 53) (3 - 1024 - 53) - e) as [| n | n] eqn:Hn;
    cbn [fst snd]; rewrite ?shr_record_of_loc_m; try lia.
  split; [|lia].
  rewrite iter_pos_shr_1_m by (rewrite shr_record_of_loc_m; lia).
  rewrite shr_record_of_loc_m.
  assert (Hle : 2 ^ Zpos n <= Zpos p).
  { apply Z.le_trans with (2 := Hlo). apply Z.pow_le_mono_r; lia. }
  assert (0 < 2 ^ Zpos n) by (apply Z.pow_pos_nonneg; lia).
  apply Z.div_str_pos. lia.
Qed.

Lemma round_nearest_even_le (m : Z) (l : location) :
  m <= round_nearest_even m l.
Proof.
  destruct l as [| []]; cbn [round_nearest_even]; try lia.
  destruct (Z.even m); lia.
Qed.

Lemma binary_round_aux_signed (s : bool) (m e : Z) (l : location) :
  0 < m -> -1074 <= e -> signed s (binary_round_aux prec emax s m e l).
Proof.
  intros Hm He. unfold binary_round_aux.
  pose proof (shr_fexp_pos m e l Hm He) as [H1 H1e].
  destruct (shr_fexp prec emax m e l) as [mrs' e']. cbn [fst snd] in H1, H1e.
  pose proof (round_nearest_even_le (shr_m mrs') (loc_of_shr_record mrs')) as Hr.
  pose proof (shr_fexp_pos _ e' loc_Exact
                ltac:(eapply Z.lt_le_trans; [exact H1 | exact Hr]) H1e)
    as [H2 _].
  destruct (shr_fexp prec emax _ e' loc_Exact) as [mrs'' e''].
  cbn [fst] in H2.
  destruct (shr_m mrs'') as [| q | q]; try lia.
  destruct (e'' <=? emax - prec); constructor.
Qed.

Lemma iter_xO (m d : positive) :
  Zpos (Pos.iter xO m d) = Zpos m * 2 ^ Zpos d.
Proof.
  induction d as [| d IH] using Pos.peano_ind.
  - cbn [Pos.iter]. lia.
  - rewrite Pos.iter_succ, Pos2Z.inj_xO, IH, Pos2Z.inj_succ, Z.pow_succ_r by lia.
    lia.
Qed.

Lemma shl_align_spec (m : positive) (e e' : Z) :
  e' <= e ->
  Zpos (fst (shl_align m e e')) = Zpos m * 2 ^ (e - e') /\
  snd (shl_align m e e') = e'.
Proof.
  intros Hle. unfold shl_align.
  destruct (e' - e) as [| d | d] eqn:Hd; cbn [fst snd]; try lia.
  - replace (e - e') with 0 by lia. change (2 ^ 0) with 1. lia.
  - rewrite iter_xO. replace (e - e') with (Zpos d) by lia. lia.
Qed.

Lemma binary_round_signed (s : bool) (m : positive) (e : Z) :
  -1074 <= e -> signed s (binary_round prec emax s m e).
Proof.
  intros He. unfold binary_round.
  set (f := fexp prec emax (Zpos (digits2_pos m) + e)).
  assert (Hf : -1074 <= f).
  { unfold f, fexp, SpecFloat.emin, prec, emax. lia. }
  destruct (shl_align m e f) as [mz ez] eqn:Hs.
  apply binary_round_aux_signed; [lia|].
  unfold shl_align in Hs.
  destruct (f - e); injection Hs as <- <-; lia.
Qed.

(** The sign of a difference of two binary64 values decides their
    order: [0 < y - x] exactly when [x < y]. *)
Lemma SFsub_pos (x y : spec_float) :
  valid_binary x = true -> valid_binary y = true ->
  SFltb (S754_zero false) (SFsub prec emax y x) = SFltb x y.
Proof.
  intros Vx Vy.
  destruct x as [sx | sx | | sx mx ex], y as [sy | sy | | sy my ey];
    try reflexivity;
    try (destruct sx; reflexivity);
    try (destruct sy; reflexivity);
    try (destruct sx, sy; reflexivity).
  unfold SFltb at 2.
  rewrite (SFcompare_ord _ _ Vx Vy) by discriminate.
  cbn [valid_binary] in Vx, Vy.
  destruct (canonical_inv _ _ Vx) as (Hex & _).
  destruct (canonical_inv _ _ Vy) as (Hey & _).
  cbn [SFsub ord].
  set (ez := Z.min ey ex).
  assert (Hez : ez <= ey /\ ez <= ex /\ -1074 <= ez) by (unfold ez; lia).
  clearbody ez.
  destruct (shl_align_spec my ey ez ltac:(lia)) as [Hy _].
  destruct (shl_align_spec mx ex ez ltac:(lia)) as [Hx _].
  set (D := cond_Zopp sy (Zpos (fst (shl_align my ey ez))) -
            cond_Zopp sx (Zpos (fst (shl_align mx ex ez)))).
  assert (Hz : 0 < 2 ^ (ez + 1074)) by (apply Z.pow_pos_nonneg; lia).
  assert (HD : D * 2 ^ (ez + 1074) =
               cond_Zopp sy (scale my ey) - cond_Zopp sx (scale mx ex)).
  { subst D. unfold scale. rewrite Hx, Hy.
    replace (ey + 1074) with ((ey - ez) + (ez + 1074)) by lia.
    replace (ex + 1074) with ((ex - ez) + (ez + 1074)) by lia.
    rewrite (Z.pow_add_r 2 (ey - ez)), (Z.pow_add_r 2 (ex - ez)) by lia.
    destruct sx, sy; cbn [cond_Zopp]; ring. }
  clearbody D. destruct D as [| d | d]; cbn [binary_normalize].
  - replace (cond_Zopp sx (scale mx ex)) with (cond_Zopp sy (scale my ey)) by lia.
    rewrite Z.compare_refl. reflexivity.
  - replace (_ ?= _) with Lt by (symmetry; apply Z.compare_lt_iff; nia).
    destruct (binary_round_signed false d ez ltac:(lia)); reflexivity.
  - replace (_ ?= _) with Gt by (symmetry; apply Z.compare_gt_iff; nia).
    destruct (binary_round_signed true d ez ltac:(lia)); reflexivity.
Qed.

(** *** The same facts on primitive floats *)

Local Open Scope float_scope.

Lemma Prim2SF_nan (x : float) : Prim2SF x = S754_nan <-> isNaN x = true.
Proof.
  unfold isNaN, Prim2SF. destruct (is_nan x); [tauto|].
  split; [|discriminate].
  destruct (is_zero x); [discriminate|].
  destruct (is_infinity x); [discriminate|].
  destruct (Z.frexp x) as [r ex].
  destruct (shr_fexp _ _ _ _ _) as [mrs e'].
  destruct (shr_m mrs); discriminate.
Qed.

Lemma isNaN_nan (x : float) : isNaN x = true -> x = nan.
Proof.
  intros H. apply Prim2SF_inj. apply Prim2SF_nan in H. rewrite H. reflexivity.
Qed.

Lemma not_nan (x : float) : isNaN x = false -> Prim2SF x <> S754_nan.
Proof. intros H E. apply Prim2SF_nan in E. congruence. Qed.

Lemma add_nan_l (y : float) : nan + y = nan.
Proof. apply Prim2SF_inj. rewrite add_spec. reflexivity. Qed.

Lemma add_nan_r (x : float) : x + nan = nan.
Proof.
  apply Prim2SF_inj. rewrite add_spec.
  change (Prim2SF nan) with S754_nan. destruct (Prim2SF x); reflexivity.
Qed.

Lemma mul_nan_l (y : float) : nan * y = nan.
Proof. apply Prim2SF_inj. rewrite mul_spec. reflexivity. Qed.

Lemma leb_nan_l (y : float) : (nan <=? y) = false.
Proof. rewrite leb_spec. reflexivity. Qed.

Lemma ltb_nan_l (y : float) : (nan <? y) = false.
Proof. rewrite ltb_spec. reflexivity. Qed.

Lemma ltb_nan_r (x : float) : (x <? nan) = false.
Proof.
  rewrite ltb_spec. change (Prim2SF nan) with S754_nan.
  unfold SFltb. destruct (Prim2SF x); reflexivity.
Qed.

Lemma leb_nan_r (x : float) : (x <=? nan) = false.
Proof.
  rewrite leb_spec. change (Prim2SF nan) with S754_nan.
  unfold SFleb. destruct (Prim2SF x); reflexivity.
Qed.

Lemma compare_ordF (x y : float) :
  isNaN x = false -> isNaN y = false ->
  SFcompare (Prim2SF x) (Prim2SF y) = Some (ordF x ?= ordF y)%Z.
Proof.
  intros Hx Hy. apply SFcompare_ord; auto using Prim2SF_valid, not_nan.
Qed.

Lemma ltb_ord (x y : float) :
  isNaN x = false -> isNaN y = false -> (x <? y) = (ordF x <? ordF y)%Z.
Proof.
  intros Hx Hy. rewrite ltb_spec. unfold SFltb, Z.ltb.
  rewrite compare_ordF by assumption. reflexivity.
Qed.

Lemma leb_ord (x y : float) :
  isNaN x = false -> isNaN y = false -> (x <=? y) = (ordF x <=? ordF y)%Z.
Proof.
  intros Hx Hy. rewrite leb_spec. unfold SFleb, Z.leb.
  rewrite compare_ordF by assumption. destruct (_ ?= _)%Z; reflexivity.
Qed.

Lemma eqb_ord (x y : float) :
  isNaN x = false -> isNaN y = false -> (x =? y) = (ordF x =? ordF y)%Z.
Proof.
  intros Hx Hy. rewrite eqb_spec, Z.eqb_compare. unfold SFeqb.
  rewrite compare_ordF by assumption. reflexivity.
Qed.

Lemma eqb_not_nan (x y : float) :
  (x =? y) = true -> isNaN x = false /\ isNaN y = false.
Proof.
  intros H. split.
  - destruct (isNaN x) eqn:E; [|reflexivity].
    apply isNaN_nan in E. subst x. rewrite eqb_spec in H. discriminate H.
  - destruct (isNaN y) eqn:E; [|reflexivity].
    apply isNaN_nan in E. subst y. rewrite eqb_spec in H.
    change (Prim2SF nan) with S754_nan in H. unfold SFeqb in H.
    destruct (Prim2SF x); discriminate H.
Qed.

(** The comparator [b - a] of a descending sort is positive exactly
    when [a < b]; with a NaN operand neither holds. *)
Lemma sub_pos (x y : float) : (0 <? y - x) = (x <? y).
Proof.
  rewrite !ltb_spec, sub_spec.
  change (Prim2SF 0) with (S754_zero false).
  apply SFsub_pos; apply Prim2SF_valid.
Qed.

Lemma ltb_not_nan (x y : float) :
  (x <? y) = true -> isNaN x = false /\ isNaN y = false.
Proof.
  intros H. split.
  - destruct (isNaN x) eqn:E; [|reflexivity].
    apply isNaN_nan in E. subst x. rewrite ltb_nan_l in H. discriminate.
  - destruct (isNaN y) eqn:E; [|reflexivity].
    apply isNaN_nan in E. subst y. rewrite ltb_nan_r in H. discriminate.
Qed.

Lemma leb_not_nan (x y : float) :
  (x <=? y) = true -> isNaN x = false /\ isNaN y = false.
Proof.
  intros H. split.
  - destruct (isNaN x) eqn:E; [|reflexivity].
    apply isNaN_nan in E. subst x. rewrite leb_nan_l in H. discriminate.
  - destruct (isNaN y) eqn:E; [|reflexivity].
    apply isNaN_nan in E. subst y. rewrite leb_nan_r in H. discriminate.
Qed.

Lemma ltb_leb (x y : float) : (x <? y) = true -> (x <=? y) = true.
Proof.
  intros H. destruct (ltb_not_nan _ _ H) as [Hx Hy].
  rewrite ltb_ord in H by assumption. rewrite leb_ord by assumption.
  apply Z.ltb_lt in H. apply Z.leb_le. lia.
Qed.

Lemma ltb_false_leb (x y : float) :
  isNaN x = false -> isNaN y = false -> (x <? y) = false -> (y <=? x) = true.
Proof.
  intros Hx Hy H. rewrite ltb_ord in H by assumption.
  rewrite leb_ord by assumption.
  apply Z.ltb_ge in H. apply Z.leb_le. exact H.
Qed.

Lemma leb_trans (x y z : float) :
  (x <=? y) = true -> (y <=? z) = true -> (x <=? z) = true.
Proof.
  intros H1 H2.
  destruct (leb_not_nan _ _ H1) as [Hx Hy].
  destruct (leb_not_nan _ _ H2) as [_ Hz].
  rewrite leb_ord in * by assumption.
  apply Z.leb_le in H1, H2. apply Z.leb_le. lia.
Qed.

Lemma eqb_not_ltb (x y v : float) :
  (x =? v) = true -> (y =? v) = true -> (x <? y) = false.
Proof.
  intros H1 H2.
  destruct (eqb_not_nan _ _ H1) as [Hx Hv].
  destruct (eqb_not_nan _ _ H2) as [Hy _].
  rewrite eqb_ord in H1, H2 by assumption. rewrite ltb_ord by assumption.
  apply Z.eqb_eq in H1, H2. apply Z.ltb_ge. lia.
Qed.

Lemma ltb_0_not_leb (x : float) : (0 <? x) = true -> (x <=? 0) = false.
Proof.
  intros H. destruct (ltb_not_nan _ _ H) as [H0 Hx].
  rewrite ltb_ord in H by assumption. rewrite leb_ord by assumption.
  apply Z.ltb_lt in H. apply Z.leb_gt. exact H.
Qed.

End NumberFacts.

(* ================================================================== *)
(** * Facts on the accumulator map *)
(* ================================================================== *)

Module MergeFacts.

Import MergeAllLenders.
Local Open Scope float_scope.

Lemma get_update_same (k : string) (f : Rec -> Rec) (m : Merged) :
  get k (update k f m) = option_map f (get k m).
Proof.
  unfold get, update. induction m as [| [k' r] m IH]; [reflexivity|].
  cbn [map find fst snd].
  destruct (String.eqb k' k) eqn:E; cbn [fst snd find]; rewrite E.
  - reflexivity.
  - exact IH.
Qed.

Lemma get_update_other (k k' : string) (f : Rec -> Rec) (m : Merged) :
  k <> k' -> get k (update k' f m) = get k m.
Proof.
  intros Hne. unfold get, update.
  induction m as [| [k0 r] m IH]; [reflexivity|].
  cbn [map find fst snd].
  destruct (String.eqb k0 k') eqn:E'; cbn [fst snd find].
  - apply String.eqb_eq in E'. subst k0.
    destruct (String.eqb k' k) eqn:E.
    + apply String.eqb_eq in E. congruence.
    + exact IH.
  - destruct (String.eqb k0 k); [reflexivity | exact IH].
Qed.

Lemma has_get (k : string) (m : Merged) :
  has k m = match get k m with Some _ => true | None => false end.
Proof.
  unfold has, get. induction m as [| [k' r] m IH]; [reflexivity|].
  cbn [existsb find fst]. destruct (String.eqb k' k); [reflexivity | exact IH].
Qed.

Lemma get_snoc (k k' : string) (r : Rec) (m : Merged) :
  get k (m ++ [(k', r)]) =
  match get k m with
  | Some r0 => Some r0
  | None => if String.eqb k' k then Some r else None
  end.
Proof.
  unfold get. induction m as [| [k0 r0] m IH]; cbn [app find fst].
  - destruct (String.eqb k' k); reflexivity.
  - destruct (String.eqb k0 k); [reflexivity | exact IH].
Qed.

Lemma get_getOrCreate (k addr : string) (m : Merged) :
  get k (getOrCreate addr m) =
  match get k m with
  | Some r => Some r
  | None => if String.eqb (toLowerCase addr) k then Some (blank addr) else None
  end.
Proof.
  unfold getOrCreate. rewrite has_get.
  destruct (get (toLowerCase addr) m) as [r0 |] eqn:E.
  - destruct (get k m) eqn:Ek; [reflexivity|].
    destruct (String.eqb (toLowerCase addr) k) eqn:Eq; [|reflexivity].
    apply String.eqb_eq in Eq. congruence.
  - apply get_snoc.
Qed.

Lemma get_accept (k : string) (c : Category) (price : float) (h : Holder)
  (m : Merged) :
  get k (accept c price h m) =
  if String.eqb (identity h) k then stepRec price (get k m) (c, h)
  else get k m.
Proof.
  unfold accept, identity.
  destruct (String.eqb (toLowerCase (h_address h)) k) eqn:E.
  - apply String.eqb_eq in E. subst k.
    rewrite get_update_same, get_getOrCreate, String.eqb_refl.
    destruct (get _ m); reflexivity.
  - rewrite get_update_other, get_getOrCreate, E.
    + destruct (get k m); reflexivity.
    + intros ->. rewrite String.eqb_refl in E. discriminate.
Qed.

Lemma get_replay (k : string) (price : float)
  (evs : list (Category * Holder)) (m : Merged) :
  get k (replay price evs m) = fold_left (stepRec price) (about k evs) (get k m).
Proof.
  unfold replay. revert m.
  induction evs as [| [c h] evs IH]; intros m; [reflexivity|].
  cbn [fold_left about filter fst snd]. rewrite IH, get_accept.
  fold (about k evs). destruct (String.eqb (identity h) k); reflexivity.
Qed.

(** ** Keys *)

Lemma has_false (k : string) (m : Merged) :
  has k m = false -> ~ In k (map fst m).
Proof.
  unfold has. intros H Hin. apply in_map_iff in Hin.
  destruct Hin as ([k' r] & <- & Hin). cbn [fst] in H.
  assert (existsb (fun e => String.eqb (fst e) k') m = true).
  { apply existsb_exists. exists (k', r). split; [exact Hin|].
    apply String.eqb_refl. }
  congruence.
Qed.

Lemma keys_update (k : string) (f : Rec -> Rec) (m : Merged) :
  map fst (update k f m) = map fst m.
Proof.
  unfold update. rewrite map_map. apply map_ext.
  intros [k' r]. cbn [fst snd]. destruct (String.eqb k' k); reflexivity.
Qed.

Lemma wf_update (k : string) (f : Rec -> Rec) (m : Merged) :
  (forall r, address (f r) = address r) -> wf m -> wf (update k f m).
Proof.
  intros Hf [Hnd Hall]. split.
  - rewrite keys_update. exact Hnd.
  - unfold update. apply Forall_map. apply Forall_impl with (2 := Hall).
    intros [k' r] Hk. cbn [fst snd] in *.
    destruct (String.eqb k' k); cbn [fst snd]; [rewrite Hf|]; exact Hk.
Qed.

Lemma wf_getOrCreate (addr : string) (m : Merged) :
  wf m -> wf (getOrCreate addr m).
Proof.
  intros [Hnd Hall]. unfold getOrCreate.
  destruct (has (toLowerCase addr) m) eqn:E; [split; assumption|].
  apply has_false in E. split.
  - rewrite map_app. cbn [map fst].
    apply NoDup_app_remove_l with (l := []). cbn [app].
    apply Permutation_NoDup with (l := toLowerCase addr :: map fst m).
    + apply Permutation_cons_append.
    + constructor; assumption.
  - apply Forall_app. split; [exact Hall|]. constructor; [reflexivity|constructor].
Qed.

Lemma wf_accept (c : Category) (price : float) (h : Holder) (m : Merged) :
  wf m -> wf (accept c price h m).
Proof.
  intros H. unfold accept. apply wf_update; [reflexivity|].
  apply wf_getOrCreate. exact H.
Qed.

Lemma wf_replay (price : float) (evs : list (Category * Holder)) (m : Merged) :
  wf m -> wf (replay price evs m).
Proof.
  unfold replay. revert m. induction evs as [| e evs IH]; intros m H.
  - exact H.
  - cbn [fold_left]. apply IH. apply wf_accept. exact H.
Qed.

Lemma get_In (k : string) (r : Rec) (m : Merged) :
  get k m = Some r -> In (k, r) m.
Proof.
  unfold get. destruct (find _ m) as [[k' r'] |] eqn:E; [|discriminate].
  cbn [option_map snd]. intros [= <-].
  apply find_some in E. destruct E as [Hin Hk]. cbn [fst] in Hk.
  apply String.eqb_eq in Hk. subst k'. exact Hin.
Qed.

Lemma In_get (k : string) (r : Rec) (m : Merged) :
  NoDup (map fst m) -> In (k, r) m -> get k m = Some r.
Proof.
  unfold get. induction m as [| [k' r'] m IH]; intros Hnd Hin; [contradiction|].
  cbn [map fst] in Hnd. apply NoDup_cons_iff in Hnd. destruct Hnd as [Hk Hnd].
  cbn [find fst]. destruct Hin as [[= -> ->] | Hin].
  - rewrite String.eqb_refl. reflexivity.
  - destruct (String.eqb k' k) eqn:E.
    + apply String.eqb_eq in E. subst k'. exfalso. apply Hk.
      apply in_map_iff. exists (k, r). split; [reflexivity | exact Hin].
    + apply IH; assumption.
Qed.

(** ** The loops replay the accepted records *)

Section Loops.

Variable lenderData : LenderData.
Variable convexData : ConvexData.

Let price := pricePerShare convexData.

Lemma ingest_accept (c : Category) (m : Merged) (h : Holder) :
  ingest lenderData convexData c m h =
  if accepted convexData c h then accept c price h m else m.
Proof.
  unfold accepted, excluded.
  destruct c; cbn [ingest];
    unfold ingestDirectVault, ingestConvex, ingestDirectGauge;
    destruct (parseFloat (h_shares h) <=? 0); cbn [negb andb];
    try reflexivity.
  destruct (arrayIncludes _ _); reflexivity.
Qed.

Lemma fold_ingest (c : Category) (l : list Holder) (m : Merged) :
  fold_left (ingest lenderData convexData c) l m =
  replay price (map (pair c) (filter (accepted convexData c) l)) m.
Proof.
  unfold replay. revert m. induction l as [| h l IH]; intros m.
  - reflexivity.
  - cbn [fold_left filter]. rewrite IH, ingest_accept.
    destruct (accepted convexData c h); reflexivity.
Qed.

Lemma ingested_replay :
  ingested lenderData convexData =
  replay price (events lenderData convexData) [].
Proof.
  unfold ingested, events, tagged.
  change (ingestDirectGauge convexData)
    with (ingest lenderData convexData DirectGauge).
  change (ingestConvex convexData)
    with (ingest lenderData convexData Convex).
  change (ingestDirectVault convexData)
    with (ingest lenderData convexData DirectVault).
  rewrite !fold_ingest. unfold replay. rewrite !fold_left_app. reflexivity.
Qed.

Lemma wf_ingested : wf (ingested lenderData convexData).
Proof.
  rewrite ingested_replay. apply wf_replay.
  split; constructor.
Qed.

Lemma get_ingested (k : string) :
  get k (ingested lenderData convexData) =
  fold_left (stepRec price) (about k (events lenderData convexData)) None.
Proof. rewrite ingested_replay. apply get_replay. Qed.

End Loops.

(** ** The record an address ends with *)

Lemma arrayIncludes_In (l : list string) (x : string) :
  arrayIncludes l x = true <-> In x l.
Proof.
  unfold arrayIncludes. rewrite existsb_exists. split.
  - intros (y & Hin & E). apply String.eqb_eq in E. subst y. exact Hin.
  - intros Hin. exists x. split; [exact Hin | apply String.eqb_refl].
Qed.

Lemma position_setPosition (c c' : Category) (v : Position) (p : Positions) :
  position c (setPosition c' v p) =
  if sameCategory c' c then Some v else position c p.
Proof. destruct c, c'; reflexivity. Qed.

Lemma sameCategory_eq (c c' : Category) : sameCategory c c' = true <-> c = c'.
Proof. destruct c, c'; cbn; split; congruence. Qed.

Lemma name_inj (c c' : Category) : name c = name c' -> c = c'.
Proof. destruct c, c'; cbn; congruence. Qed.

Section Final.

Variable price : float.

Lemma follows_record (e : Category * Holder) (r0 : Rec) :
  follows price (record (fst e) (sharesOf e) (valueOf price e) r0) r0 [e].
Proof.
  unfold follows. cbn [record address pct_of_vault total_shares
    total_crvusd_value positions sources map fold_left lastOf].
  repeat split; try reflexivity.
  - intros c. rewrite position_setPosition.
    destruct (sameCategory (fst e) c); reflexivity.
  - destruct (arrayIncludes (sources r0) (name (fst e))) eqn:E.
    + intros H. left. exact H.
    + intros H. apply in_app_or in H. destruct H as [H | [<- | []]].
      * left. exact H.
      * right. exists e. split; [left|]; reflexivity.
  - destruct (arrayIncludes (sources r0) (name (fst e))) eqn:E.
    + intros [H | (e' & [<- | []] & <-)]; [exact H|].
      apply arrayIncludes_In. exact E.
    + intros [H | (e' & [<- | []] & <-)]; apply in_or_app;
        [left; exact H | right; left; reflexivity].
  - intros Hnd. destruct (arrayIncludes (sources r0) (name (fst e))) eqn:E.
    + exact Hnd.
    + apply NoDup_app_remove_l with (l := []). cbn [app].
      apply Permutation_NoDup with (l := name (fst e) :: sources r0).
      * apply Permutation_cons_append.
      * constructor; [|exact Hnd]. intros Hin.
        apply arrayIncludes_In in Hin. congruence.
Qed.

Lemma follows_cons (e : Category * Holder) (r r1 r0 : Rec)
  (hist : list (Category * Holder)) :
  follows price r1 r0 [e] -> follows price r r1 hist -> follows price r r0 (e :: hist).
Proof.
  intros (A1 & P1 & S1 & V1 & Q1 & I1 & N1) (A & P & S & V & Q & I & N).
  unfold follows. repeat split.
  - congruence.
  - congruence.
  - rewrite S, S1. reflexivity.
  - rewrite V, V1. reflexivity.
  - intros c. rewrite Q, Q1. cbn [lastOf].
    destruct (lastOf c hist); reflexivity.
  - intros H. apply I in H. destruct H as [H | (e' & Hin & Hn)].
    + apply I1 in H. destruct H as [H | (e' & [<- | []] & Hn)].
      * left. exact H.
      * right. exists e. split; [left; reflexivity | exact Hn].
    + right. exists e'. split; [right; exact Hin | exact Hn].
  - intros [H | (e' & [<- | Hin] & Hn)]; apply I.
    + left. apply I1. left. exact H.
    + left. apply I1. right. exists e. split; [left; reflexivity | exact Hn].
    + right. exists e'. split; assumption.
  - intros H. apply N, N1, H.
Qed.

Lemma fold_stepRec_some (hist : list (Category * Holder)) (r0 : Rec) :
  hist <> [] ->
  exists r, fold_left (stepRec price) hist (Some r0) = Some r /\
            follows price r r0 hist.
Proof.
  revert r0. induction hist as [| e hist IH]; intros r0 Hne; [congruence|].
  cbn [fold_left]. unfold stepRec at 2.
  destruct hist as [| e' hist].
  - eexists. split; [reflexivity|]. apply follows_record.
  - destruct (IH (record (fst e) (sharesOf e) (sharesOf e * price) r0)
                ltac:(discriminate)) as (r & Hr & Hf).
    exists r. split; [exact Hr|].
    eapply follows_cons; [apply follows_record | exact Hf].
Qed.

(** The record of an address is the blank record of the first
    accepted spelling, followed by all the accepted records of that
    address. *)
Lemma fold_stepRec_none (hist : list (Category * Holder)) (r : Rec) :
  fold_left (stepRec price) hist None = Some r ->
  exists e rest, hist = e :: rest /\ follows price r (blank (h_address (snd e))) hist.
Proof.
  destruct hist as [| e rest]; [discriminate|].
  intros H. exists e, rest. split; [reflexivity|].
  cbn [fold_left] in H. unfold stepRec at 2 in H.
  destruct rest as [| e' rest].
  - cbn [fold_left] in H. injection H as <-. apply follows_record.
  - destruct (fold_stepRec_some (e' :: rest)
                (record (fst e) (sharesOf e) (sharesOf e * price)
                        (blank (h_address (snd e))))
                ltac:(discriminate)) as (r' & Hr & Hf).
    rewrite Hr in H. injection H as <-.
    eapply follows_cons; [apply follows_record | exact Hf].
Qed.

Lemma fold_stepRec_nonempty (e : Category * Holder)
  (hist : list (Category * Holder)) :
  exists r, fold_left (stepRec price) (e :: hist) None = Some r.
Proof.
  cbn [fold_left]. unfold stepRec at 2.
  destruct hist as [| e' hist]; [eexists; reflexivity|].
  destruct (fold_stepRec_some (e' :: hist)
              (record (fst e) (sharesOf e) (sharesOf e * price)
                      (blank (h_address (snd e))))
              ltac:(discriminate)) as (r & Hr & _).
  exists r. exact Hr.
Qed.

End Final.

(** ** The sort *)

Section SortFacts.

Context {A : Type} (comparefn : A -> A -> float).

Lemma insert_perm (x : A) (l : list A) :
  Permutation (insert comparefn x l) (x :: l).
Proof.
  induction l as [| y l IH]; cbn [insert]; [reflexivity|].
  destruct (0 <? comparefn x y); [|reflexivity].
  rewrite IH. apply perm_swap.
Qed.

Lemma sort_perm (l : list A) : Permutation (sort comparefn l) l.
Proof.
  unfold sort. induction l as [| x l IH]; cbn [fold_right]; [reflexivity|].
  rewrite insert_perm. constructor. exact IH.
Qed.

(** Elements that a predicate [p] selects and the comparator never
    puts after one another keep their order. *)
Lemma insert_filter (p : A -> bool) (x : A) (l : list A) :
  (forall y, p x = true -> p y = true -> (0 <? comparefn x y) = false) ->
  filter p (insert comparefn x l) = filter p (x :: l).
Proof.
  intros Hp. induction l as [| y l IH]; cbn [insert]; [reflexivity|].
  destruct (0 <? comparefn x y) eqn:E; [|reflexivity].
  cbn [filter] in *. rewrite IH.
  destruct (p x) eqn:Px, (p y) eqn:Py; try reflexivity.
  rewrite Hp in E by auto. discriminate.
Qed.

Lemma sort_filter (p : A -> bool) (l : list A) :
  (forall x y, p x = true -> p y = true -> (0 <? comparefn x y) = false) ->
  filter p (sort comparefn l) = filter p l.
Proof.
  intros Hp. unfold sort.
  induction l as [| x l IH]; cbn [fold_right]; [reflexivity|].
  rewrite insert_filter by (intros y; apply Hp).
  cbn [filter]. rewrite IH. reflexivity.
Qed.

(** With the comparator deciding a total preorder [ge] on the
    elements, the result is sorted. *)
Lemma insert_sorted (ge : A -> A -> Prop) (x : A) (l : list A) :
  (forall a b c, ge a b -> ge b c -> ge a c) ->
  (forall y, In y l -> (0 <? comparefn x y) = true -> ge y x) ->
  (forall y, In y l -> (0 <? comparefn x y) = false -> ge x y) ->
  StronglySorted ge l -> StronglySorted ge (insert comparefn x l).
Proof.
  intros Htrans Hlt Hge Hs.
  induction Hs as [| y l Hs IH Hall]; cbn [insert].
  - repeat constructor.
  - destruct (0 <? comparefn x y) eqn:E.
    + constructor.
      * apply IH; intros z Hz; [apply Hlt | apply Hge]; right; exact Hz.
      * apply Forall_forall. intros z Hz.
        apply (Permutation_in _ (insert_perm x l)) in Hz.
        destruct Hz as [<- | Hz].
        -- apply Hlt; [left; reflexivity | exact E].
        -- rewrite Forall_forall in Hall. apply Hall, Hz.
    + assert (Hxy : ge x y) by (apply Hge; [left; reflexivity | exact E]).
      constructor; [constructor; assumption|].
      constructor; [exact Hxy|].
      apply Forall_impl with (2 := Hall). intros z Hz.
      apply Htrans with y; assumption.
Qed.

Lemma sort_sorted (ge : A -> A -> Prop) (l : list A) :
  (forall a b c, ge a b -> ge b c -> ge a c) ->
  (forall x y, In x l -> In y l -> (0 <? comparefn x y) = true -> ge y x) ->
  (forall x y, In x l -> In y l -> (0 <? comparefn x y) = false -> ge x y) ->
  StronglySorted ge (sort comparefn l).
Proof.
  intros Htrans Hlt Hge. unfold sort.
  induction l as [| x l IH]; cbn [fold_right]; [constructor|].
  apply insert_sorted.
  - exact Htrans.
  - intros y Hy. apply Hlt; [left; reflexivity|].
    right. apply (Permutation_in _ (sort_perm l)). exact Hy.
  - intros y Hy. apply Hge; [left; reflexivity|].
    right. apply (Permutation_in _ (sort_perm l)). exact Hy.
  - apply IH; intros a b Ha Hb; [apply Hlt | apply Hge]; right; assumption.
Qed.

End SortFacts.

(** ** From the map to the sorted ledger *)

Section Ledger.

Variable lenderData : LenderData.
Variable convexData : ConvexData.

Let price := pricePerShare convexData.
Let evs := events lenderData convexData.

Lemma values_merged :
  values (merged lenderData convexData) =
  map (fun e => setPct convexData (snd e)) (ingested lenderData convexData).
Proof. unfold values, merged. rewrite map_map. reflexivity. Qed.

Lemma In_values (r : Rec) :
  In r (values (merged lenderData convexData)) <->
  exists r0,
    get (toLowerCase (address r0)) (ingested lenderData convexData) = Some r0 /\
    r = setPct convexData r0.
Proof.
  rewrite values_merged, in_map_iff.
  destruct (wf_ingested lenderData convexData) as [Hnd Hall].
  rewrite Forall_forall in Hall. split.
  - intros ([k r0] & <- & Hin). exists r0. split; [|reflexivity].
    pose proof (Hall _ Hin) as Hk. cbn [fst snd] in Hk. subst k.
    apply In_get; assumption.
  - intros (r0 & Hget & ->). apply get_In in Hget.
    exists (toLowerCase (address r0), r0). split; [reflexivity | exact Hget].
Qed.

Lemma In_sorted (r : Rec) :
  In r (sorted lenderData convexData) <->
  In r (values (merged lenderData convexData)).
Proof.
  unfold sorted. split; apply Permutation_in;
    [|symmetry]; apply sort_perm.
Qed.

Lemma identities_NoDup :
  NoDup (map (fun r => toLowerCase (address r))
             (sorted lenderData convexData)).
Proof.
  apply Permutation_NoDup
    with (l := map (fun r => toLowerCase (address r))
                   (values (merged lenderData convexData))).
  - apply Permutation_map. symmetry. apply sort_perm.
  - rewrite values_merged, map_map.
    destruct (wf_ingested lenderData convexData) as [Hnd Hall].
    erewrite map_ext_in; [exact Hnd|].
    rewrite Forall_forall in Hall. intros e He. cbn [setPct address].
    symmetry. apply Hall, He.
Qed.

(** Every record of the ledger is the record of the accepted records
    of its address. *)
Lemma sorted_history (r : Rec) :
  In r (sorted lenderData convexData) ->
  exists r0 e rest,
    r = setPct convexData r0 /\
    about (toLowerCase (address r)) evs = e :: rest /\
    follows price r0 (blank (h_address (snd e))) (e :: rest).
Proof.
  intros Hin. apply In_sorted, In_values in Hin.
  destruct Hin as (r0 & Hget & ->).
  rewrite get_ingested in Hget.
  destruct (fold_stepRec_none _ _ _ Hget) as (e & rest & Hev & Hf).
  exists r0, e, rest. cbn [setPct address]. fold evs.
  split; [reflexivity|]. split; [exact Hev|].
  fold price. rewrite <- Hev. exact Hf.
Qed.

(** Every address with an accepted record has its record in the
    ledger. *)
Lemma history_sorted (k : string) (e : Category * Holder)
  (rest : list (Category * Holder)) :
  about k evs = e :: rest ->
  exists r0,
    In (setPct convexData r0) (sorted lenderData convexData) /\
    toLowerCase (address r0) = k /\
    follows price r0 (blank (h_address (snd e))) (e :: rest).
Proof.
  intros Hev.
  pose proof (get_ingested lenderData convexData k) as Hget.
  fold evs price in Hget. rewrite Hev in Hget.
  destruct (fold_stepRec_nonempty price e rest) as (r0 & Hr0).
  rewrite Hr0 in Hget.
  destruct (fold_stepRec_none _ _ _ Hr0) as (e' & rest' & [= <- <-] & Hf).
  assert (Hk : toLowerCase (address r0) = k).
  { destruct Hf as (-> & _). cbn [blank address].
    assert (Hin : In e (about k evs)) by (rewrite Hev; left; reflexivity).
    apply filter_In in Hin. destruct Hin as [_ Hin].
    apply String.eqb_eq in Hin. exact Hin. }
  exists r0. split; [|split; assumption].
  apply In_sorted, In_values. exists r0. split; [|reflexivity].
  rewrite Hk. exact Hget.
Qed.

Lemma In_events (c : Category) (h : Holder) :
  In (c, h) evs <->
  In h (source lenderData convexData c) /\ accepted convexData c h = true.
Proof.
  unfold evs, events, tagged. rewrite !in_app_iff, !in_map_iff.
  split.
  - intros [(h' & [= <- <-] & Hin) | [(h' & [= <- <-] & Hin)
                                      | (h' & [= <- <-] & Hin)]];
      apply filter_In in Hin; exact Hin.
  - intros [Hin Hacc].
    destruct c; [left | right; left | right; right];
      exists h; (split; [reflexivity|]); apply filter_In; split; assumption.
Qed.

Lemma In_about (k : string) (e : Category * Holder) :
  In e (about k evs) <-> In e evs /\ identity (snd e) = k.
Proof.
  unfold about. rewrite filter_In, String.eqb_eq. reflexivity.
Qed.

End Ledger.

Lemma In_about_gen (k : string) (e : Category * Holder)
  (evs : list (Category * Holder)) :
  In e (about k evs) <-> In e evs /\ identity (snd e) = k.
Proof. unfold about. rewrite filter_In, String.eqb_eq. reflexivity. Qed.

(** ** The formatted list *)

Lemma In_mapIdx {A B : Type} (f : A -> nat -> B) (l : list A) (i : nat) (y : B) :
  In y (mapIdx f l i) -> exists x n, In x l /\ y = f x n.
Proof.
  revert i. induction l as [| x l IH]; intros i; cbn [mapIdx]; [intros []|].
  intros [<- | H].
  - exists x, i. split; [left|]; reflexivity.
  - destruct (IH _ H) as (x' & n & Hin & ->).
    exists x', n. split; [right; exact Hin | reflexivity].
Qed.

Lemma mapIdx_In {A B : Type} (f : A -> nat -> B) (l : list A) (i : nat) (x : A) :
  In x l -> exists n, In (f x n) (mapIdx f l i).
Proof.
  revert i. induction l as [| x' l IH]; intros i; [intros []|].
  intros [-> | H]; cbn [mapIdx].
  - exists i. left. reflexivity.
  - destruct (IH (S i) H) as (n & Hn). exists n. right. exact Hn.
Qed.

Lemma mapIdx_length {A B : Type} (f : A -> nat -> B) (l : list A) (i : nat) :
  List.length (mapIdx f l i) = List.length l.
Proof.
  revert i. induction l as [| x l IH]; intros i; cbn [mapIdx List.length];
    [reflexivity | rewrite IH; reflexivity].
Qed.

Lemma rank_mapIdx (l : list Rec) (i : nat) :
  map l_rank (mapIdx formatLender l i) = seq (i + 1) (List.length l).
Proof.
  revert i. induction l as [| r l IH]; intros i; [reflexivity|].
  cbn [mapIdx map List.length seq formatLender l_rank].
  rewrite IH. reflexivity.
Qed.

Lemma Forall2_mapIdx (P : Lender -> Rec -> Prop) (l : list Rec) (i : nat) :
  (forall r n, P (formatLender r n) r) ->
  Forall2 P (mapIdx formatLender l i) l.
Proof.
  intros HP. revert i. induction l as [| r l IH]; intros i; cbn [mapIdx];
    constructor; auto.
Qed.

(** ** Sums with a NaN term *)

Lemma fold_add_nan (l : list float) : fold_left PrimFloat.add l nan = nan.
Proof.
  induction l as [| x l IH]; [reflexivity|].
  cbn [fold_left]. rewrite NumberFacts.add_nan_l. exact IH.
Qed.

Lemma fold_add_In_nan (l : list float) (a : float) :
  In nan l -> fold_left PrimFloat.add l a = nan.
Proof.
  revert a. induction l as [| x l IH]; intros a; [intros []|].
  cbn [fold_left]. intros [-> | H].
  - rewrite NumberFacts.add_nan_r. apply fold_add_nan.
  - apply IH, H.
Qed.

Lemma lastOf_In (c : Category) (h : Holder) (evs : list (Category * Holder)) :
  In (c, h) evs ->
  exists h', lastOf c evs = Some (c, h') /\ In (c, h') evs.
Proof.
  induction evs as [| e evs IH]; [intros []|].
  intros Hin. cbn [lastOf].
  destruct (lastOf c evs) as [e' |] eqn:E.
  - assert (He' : exists h', e' = (c, h') /\ In (c, h') evs).
    { clear IH Hin. revert e' E. induction evs as [| e0 evs IH];
        intros e' E; [discriminate|].
      cbn [lastOf] in E. destruct (lastOf c evs) as [e1 |].
      - injection E as <-. destruct (IH _ eq_refl) as (h' & -> & H).
        exists h'. split; [reflexivity | right; exact H].
      - destruct (sameCategory (fst e0) c) eqn:Es; [|discriminate].
        injection E as <-. apply sameCategory_eq in Es.
        destruct e0 as [c0 h0]. cbn [fst] in Es. subst c0.
        exists h0. split; [reflexivity | left; reflexivity]. }
    destruct He' as (h' & -> & H). exists h'. split; [reflexivity|].
    right. exact H.
  - destruct Hin as [-> | Hin].
    + cbn [fst]. replace (sameCategory c c) with true
        by (symmetry; apply sameCategory_eq; reflexivity).
      exists h. split; [reflexivity | left; reflexivity].
    + destruct (IH Hin) as (h' & Hl & _). discriminate.
Qed.

End MergeFacts.

Import MergeFacts.

(* ================================================================== *)
(** * Properties of the position merger *)
(* ================================================================== *)

(** ** C1: a record whose shares do not parse *)

Lemma lender_of_sorted (lenderData : LenderData) (convexData : ConvexData)
  (now : string) (r : Rec) :
  In r (sorted lenderData convexData) ->
  exists idx,
    In (formatLender r idx) (lenders (output lenderData convexData now)).
Proof. intros H. apply mapIdx_In. exact H. Qed.

Lemma sorted_of_lender (lenderData : LenderData) (convexData : ConvexData)
  (now : string) (l : Lender) :
  In l (lenders (output lenderData convexData now)) ->
  exists r idx, In r (sorted lenderData convexData) /\ l = formatLender r idx.
Proof. intros H. apply In_mapIdx in H. exact H. Qed.

(** C1 (as the code behaves): a record whose shares field does not parse
    to a number is not rejected.  [parseFloat] gives NaN, the test
    [shares <= 0] is false for it, and unless it is a direct-holder
    record of an excluded contract the record is ingested: the output
    holds an entry for its address, with a position under its category
    and NaN for both totals. *)
Theorem C1_unparsed_shares_are_ingested
  (lenderData : LenderData) (convexData : ConvexData) (now : string)
  (c : Category) (h : Holder) :
  In h (source lenderData convexData c) ->
  Number.isNaN (parseFloat (h_shares h)) = true ->
  excluded convexData c h = false ->
  exists l,
    In l (lenders (output lenderData convexData now)) /\
    toLowerCase (l_address l) = toLowerCase (h_address h) /\
    l_total_shares l = "NaN" /\
    l_total_crvusd_value l = "NaN" /\
    In (name c) (l_sources l) /\
    breakdownOf c (l_positions l) <> None.
Proof.
  intros Hin Hnan Hex.
  apply NumberFacts.isNaN_nan in Hnan.
  assert (Hacc : accepted convexData c h = true).
  { unfold accepted. rewrite Hnan, Hex. reflexivity. }
  assert (Hev : In (c, h) (about (identity h) (events lenderData convexData))).
  { apply In_about. split; [|reflexivity]. apply In_events. split; assumption. }
  destruct (about (identity h) (events lenderData convexData))
    as [| e rest] eqn:Eh; [destruct Hev|].
  destruct (history_sorted _ _ _ _ _ Eh) as (r0 & Hr0 & Hk & Hf).
  destruct Hf as (_ & _ & Hs & Hv & Hp & Hi & _).
  destruct (lender_of_sorted _ _ now _ Hr0) as (idx & Hl).
  exists (formatLender (setPct convexData r0) idx).
  split; [exact Hl|].
  cbn [formatLender setPct l_address l_total_shares l_total_crvusd_value
       l_sources l_positions address total_shares total_crvusd_value
       sources positions].
  split; [exact Hk|].
  assert (Hts : total_shares r0 = nan).
  { rewrite Hs. apply fold_add_In_nan. apply in_map_iff.
    exists (c, h). split; [exact Hnan | exact Hev]. }
  assert (Htv : total_crvusd_value r0 = nan).
  { rewrite Hv. apply fold_add_In_nan. apply in_map_iff.
    exists (c, h). split; [|exact Hev].
    unfold valueOf, sharesOf. cbn [snd]. rewrite Hnan.
    apply NumberFacts.mul_nan_l. }
  split; [rewrite Hts; reflexivity|].
  split; [rewrite Htv; reflexivity|].
  split.
  - apply Hi. right. exists (c, h). split; [exact Hev | reflexivity].
  - destruct (lastOf_In _ _ _ Hev) as (h' & Hlast & _).
    specialize (Hp c). rewrite Hlast in Hp.
    destruct c; cbn [breakdownOf position] in *; rewrite Hp; discriminate.
Qed.

Lemma C1_unparsed_shares_are_ingested_witness :
  In (holder "0xBaD0001" "n/a") (source c1_lenderData c1_convexData DirectVault) /\
  Number.isNaN (parseFloat "n/a") = true /\
  excluded c1_convexData DirectVault (holder "0xBaD0001" "n/a") = false /\
  exists l,
    In l (lenders (output c1_lenderData c1_convexData "t")) /\
    toLowerCase (l_address l) = "0xbad0001" /\
    l_total_shares l = "NaN" /\
    l_total_crvusd_value l = "NaN" /\
    In "direct_vault" (l_sources l) /\
    breakdownOf DirectVault (l_positions l) <> None.
Proof.
  split; [left; reflexivity|].
  split; [reflexivity|].
  split; [reflexivity|].
  apply (C1_unparsed_shares_are_ingested c1_lenderData c1_convexData "t"
           DirectVault (holder "0xBaD0001" "n/a")).
  - left. reflexivity.
  - reflexivity.
  - reflexivity.
Defined.

(** C1 fails as stated: on a direct-holder record with shares ["n/a"]
    the merge runs to its end and lists the record, with NaN totals. *)
Lemma C1_counterexample :
  parseFloat "n/a" = nan /\
  map line (lenders (output c1_lenderData c1_convexData "t")) =
  [(1%nat, "0xBaD0001", "NaN", "NaN", ["direct_vault"])].
Proof. split; reflexivity. Qed.

(** ** C2: conservation *)

(** C2 (where the code departs from it): with the same address twice
    among the direct holders, shares ["1"] then ["2"], the one record
    holds the position of the second only, 2 shares worth 4, while its
    totals are 3 shares worth 6. *)
Theorem C2_duplicate_address_breaks_conservation :
  map entry (sorted c2_lenderData c2_convexData) =
    [("0xAbC0001", 3, 6, ["direct_vault"], Some 2, None, None)] /\
  map (sumOver shares) (sorted c2_lenderData c2_convexData) = [2] /\
  map (sumOver crvusd_value) (sorted c2_lenderData c2_convexData) = [4] /\
  ~ Forall conserved (sorted c2_lenderData c2_convexData).
Proof.
  split; [reflexivity|]. split; [reflexivity|]. split; [reflexivity|].
  intros H. inversion H as [| r l [Hs _] _ E]; subst.
  vm_compute in Hs. discriminate Hs.
Qed.

Lemma about_tagged (k : string) (c : Category) (l : list Holder) :
  about k (map (pair c) l) =
  map (pair c) (filter (fun h => String.eqb (identity h) k) l).
Proof.
  unfold about. induction l as [| h l IH]; [reflexivity|].
  cbn [map filter snd]. destruct (String.eqb (identity h) k); cbn [map];
    rewrite IH; reflexivity.
Qed.

Lemma unique_about (k : string) (l : list Holder) :
  NoDup (map identity l) ->
  filter (fun h => String.eqb (identity h) k) l = [] \/
  exists h, filter (fun h => String.eqb (identity h) k) l = [h].
Proof.
  induction l as [| h l IH]; [left; reflexivity|].
  cbn [map filter]. intros Hnd. apply NoDup_cons_iff in Hnd.
  destruct Hnd as [Hh Hnd]. specialize (IH Hnd).
  destruct (String.eqb (identity h) k) eqn:E; [|exact IH].
  right. exists h. f_equal.
  destruct (filter _ l) as [| x xs] eqn:F; [reflexivity|].
  exfalso. apply Hh.
  assert (Hx : In x (filter (fun h => String.eqb (identity h) k) l))
    by (rewrite F; left; reflexivity).
  apply filter_In in Hx. destruct Hx as [Hx Ek].
  apply String.eqb_eq in E, Ek. rewrite E, <- Ek. apply in_map. exact Hx.
Qed.

(** Where no address occurs twice among the accepted records of one
    source, every record's totals are the sums over its positions. *)
Theorem conservation_without_duplicates
  (lenderData : LenderData) (convexData : ConvexData) :
  (forall c, NoDup (map identity (filter (accepted convexData c)
                                         (source lenderData convexData c)))) ->
  Forall conserved (sorted lenderData convexData).
Proof.
  intros Hnd. apply Forall_forall. intros r Hr.
  destruct (sorted_history _ _ _ Hr) as (r0 & e & rest & -> & Hev & Hf).
  cbn [setPct address] in Hev.
  destruct Hf as (_ & _ & Hs & Hv & Hp & _).
  rewrite <- Hev in Hs, Hv, Hp.
  assert (Hne : about (toLowerCase (address r0))
                  (events lenderData convexData) <> [])
    by (rewrite Hev; discriminate).
  clear Hev Hr. revert Hne Hs Hv Hp.
  unfold events, tagged, about. rewrite !filter_app.
  fold (about (toLowerCase (address r0))
          (map (pair DirectVault)
               (filter (accepted convexData DirectVault)
                       (source lenderData convexData DirectVault)))).
  fold (about (toLowerCase (address r0))
          (map (pair Convex)
               (filter (accepted convexData Convex)
                       (source lenderData convexData Convex)))).
  fold (about (toLowerCase (address r0))
          (map (pair DirectGauge)
               (filter (accepted convexData DirectGauge)
                       (source lenderData convexData DirectGauge)))).
  rewrite !about_tagged.
  destruct (unique_about (toLowerCase (address r0)) _ (Hnd DirectVault))
    as [-> | (h1 & ->)];
  destruct (unique_about (toLowerCase (address r0)) _ (Hnd Convex))
    as [-> | (h2 & ->)];
  destruct (unique_about (toLowerCase (address r0)) _ (Hnd DirectGauge))
    as [-> | (h3 & ->)];
  cbn [map app fold_left]; intros Hne Hs Hv Hp;
    try (exfalso; apply Hne; reflexivity);
    pose proof (Hp DirectVault) as P1;
    pose proof (Hp Convex) as P2;
    pose proof (Hp DirectGauge) as P3;
    cbn [lastOf fst sameCategory position] in P1, P2, P3;
    unfold conserved, sumOver, present;
    cbn [setPct positions total_shares total_crvusd_value];
    rewrite P1, P2, P3, Hs, Hv; split; reflexivity.
Qed.

(** ** C3: order and ranks *)

Lemma has_keys (k : string) (m : Merged) :
  has k m = arrayIncludes (map fst m) k.
Proof.
  unfold has, arrayIncludes. induction m as [| e m IH]; [reflexivity|].
  cbn [map existsb]. rewrite IH, (String.eqb_sym (fst e) k). reflexivity.
Qed.

Lemma keys_accept (c : Category) (price : float) (h : Holder) (m : Merged) :
  map fst (accept c price h m) =
  if arrayIncludes (map fst m) (identity h) then map fst m
  else map fst m ++ [identity h].
Proof.
  unfold accept. rewrite keys_update. unfold getOrCreate.
  rewrite has_keys. fold (identity h).
  destruct (arrayIncludes (map fst m) (identity h)); [reflexivity|].
  rewrite map_app. reflexivity.
Qed.

Lemma keys_replay (price : float) (evs : list (Category * Holder)) (m : Merged) :
  map fst (replay price evs m) =
  fold_left (fun acc k => if arrayIncludes acc k then acc else acc ++ [k])
            (map (fun e => identity (snd e)) evs) (map fst m).
Proof.
  unfold replay. revert m. induction evs as [| e evs IH]; intros m;
    [reflexivity|].
  cbn [fold_left map]. rewrite IH, keys_accept. reflexivity.
Qed.

Lemma insertion_order (lenderData : LenderData) (convexData : ConvexData) :
  map (fun r => toLowerCase (address r))
      (values (merged lenderData convexData)) =
  firstSeen (map (fun e => identity (snd e)) (events lenderData convexData)).
Proof.
  unfold firstSeen.
  rewrite <- (keys_replay (pricePerShare convexData) _ []).
  rewrite <- ingested_replay, values_merged, map_map.
  destruct (wf_ingested lenderData convexData) as [_ Hall].
  rewrite Forall_forall in Hall. apply map_ext_in.
  intros e He. cbn [setPct address]. symmetry. apply Hall, He.
Qed.

(** A list of two or more records that is non-increasing in total value
    holds no NaN total value. *)
Lemma sorted_numeric (l : list Rec) :
  StronglySorted geValue l -> (2 <= List.length l)%nat -> Forall numeric l.
Proof.
  intros Hs Hlen. destruct Hs as [| a l Hs Hall]; [constructor|].
  destruct l as [| b l]; [cbn in Hlen; lia|].
  assert (Hl : Forall numeric (b :: l)).
  { apply Forall_impl with (2 := Hall). intros r Hr.
    apply (NumberFacts.leb_not_nan _ _ Hr). }
  constructor; [|exact Hl].
  inversion Hall as [| r l' Hab _ E]; subst.
  apply (NumberFacts.leb_not_nan _ _ Hab).
Qed.

(** C3 (as the code behaves): the ledger is a rearrangement of the
    records of the map, whose insertion order is the order in which the
    addresses are first accepted; the ranks are 1..N along the list,
    each line being the formatted record at that place; and when no
    record has a NaN total value the list is non-increasing in total
    value and records of equal total value keep their insertion
    order. *)
Theorem C3_sorted_stable_ranked
  (lenderData : LenderData) (convexData : ConvexData) (now : string) :
  let ledger := sorted lenderData convexData in
  let inserted := values (merged lenderData convexData) in
  let out := lenders (output lenderData convexData now) in
  (Forall numeric inserted ->
   StronglySorted geValue ledger /\
   forall v, filter (tie v) ledger = filter (tie v) inserted) /\
  Permutation ledger inserted /\
  map (fun r => toLowerCase (address r)) inserted =
    firstSeen (map (fun e => identity (snd e))
                   (events lenderData convexData)) /\
  map l_rank out = seq 1 (List.length out) /\
  Forall2 (fun l r => l_address l = address r /\
                      l_total_crvusd_value l =
                        fmtCrvusd (total_crvusd_value r))
          out ledger.
Proof.
  cbv zeta. split; [|split; [|split; [|split]]].
  - intros Hnum. rewrite Forall_forall in Hnum. unfold sorted. split.
    + apply sort_sorted.
      * unfold geValue. intros a b c Hab Hbc.
        eapply NumberFacts.leb_trans; eassumption.
      * unfold geValue, byValueDesc. intros x y _ _ H.
        rewrite NumberFacts.sub_pos in H. apply NumberFacts.ltb_leb. exact H.
      * unfold geValue, byValueDesc. intros x y Hx Hy H.
        rewrite NumberFacts.sub_pos in H.
        apply NumberFacts.ltb_false_leb;
          [apply Hnum, Hx | apply Hnum, Hy | exact H].
    + intros v. apply sort_filter.
      unfold tie, byValueDesc. intros x y Hx Hy.
      rewrite NumberFacts.sub_pos. eapply NumberFacts.eqb_not_ltb; eassumption.
  - apply sort_perm.
  - apply insertion_order.
  - cbn [output lenders]. unfold formattedLenders.
    rewrite mapIdx_length. apply rank_mapIdx.
  - cbn [output lenders]. unfold formattedLenders.
    apply Forall2_mapIdx. intros r n. split; reflexivity.
Qed.

Lemma C3_sorted_stable_ranked_witness :
  Forall numeric (values (merged c3_lenderData c3_convexData)) /\
  map line (lenders (output c3_lenderData c3_convexData "t")) =
    [(1%nat, "0xBBb0002", "30.000000000000000000", "60.000000",
      ["direct_vault"]);
     (2%nat, "0xAAa0001", "15.000000000000000000", "30.000000",
      ["direct_vault"; "convex"]);
     (3%nat, "0xDDd0004", "15.000000000000000000", "30.000000",
      ["direct_gauge"]);
     (4%nat, "0xCCc0003", "10.000000000000000000", "20.000000",
      ["convex"])] /\
  StronglySorted geValue (sorted c3_lenderData c3_convexData) /\
  forall v,
    filter (tie v) (sorted c3_lenderData c3_convexData) =
    filter (tie v) (values (merged c3_lenderData c3_convexData)).
Proof.
  assert (H : Forall numeric (values (merged c3_lenderData c3_convexData))).
  { repeat constructor. }
  split; [exact H|]. split; [reflexivity|].
  apply (proj1 (C3_sorted_stable_ranked c3_lenderData c3_convexData "t")).
  exact H.
Defined.

(** C3 fails as stated: with unparsed shares in the second of three
    direct-holder records the ledger holds a NaN total value, so that no
    arrangement of its records is non-increasing; the comparator is NaN
    against that record, and in the arrangement computed here the three
    records stay as they came, the record of total value 4 ranking
    third, after the record of total value 2. *)
Lemma C3_counterexample :
  map line (lenders (output c3_nan_lenderData c1_convexData "t")) =
    [(1%nat, "0xAAa0001", "1.000000000000000000", "2.000000",
      ["direct_vault"]);
     (2%nat, "0xBAd0005", "NaN", "NaN", ["direct_vault"]);
     (3%nat, "0xBBb0002", "2.000000000000000000", "4.000000",
      ["direct_vault"])] /\
  map total_crvusd_value (sorted c3_nan_lenderData c1_convexData) =
    [2; nan; 4] /\
  (2 <? 4) = true /\
  ~ StronglySorted geValue (sorted c3_nan_lenderData c1_convexData) /\
  (forall l,
     Permutation l (values (merged c3_nan_lenderData c1_convexData)) ->
     ~ StronglySorted geValue l).
Proof.
  assert (Hno : forall l,
            Permutation l (values (merged c3_nan_lenderData c1_convexData)) ->
            ~ StronglySorted geValue l).
  { intros l Hp Hs.
    assert (Hlen : (2 <= List.length l)%nat).
    { rewrite (Permutation_length Hp).
      replace (List.length (values (merged c3_nan_lenderData c1_convexData)))
        with 3%nat by reflexivity.
      lia. }
    pose proof (sorted_numeric l Hs Hlen) as Hnum.
    rewrite Forall_forall in Hnum.
    assert (Hin : In (nth 1 (values (merged c3_nan_lenderData c1_convexData))
                          (blank "")) l).
    { apply (Permutation_in _ (Permutation_sym Hp)). right. left. reflexivity. }
    specialize (Hnum _ Hin). vm_compute in Hnum. discriminate Hnum. }
  split; [reflexivity|]. split; [reflexivity|]. split; [reflexivity|].
  split; [|exact Hno].
  apply Hno. apply sort_perm.
Qed.

(** ** C4: excluded contracts *)

(** C4: an address of the excluded set, in any spelling, has no
    [direct_vault] position and no ["direct_vault"] source in the
    output, while each of its records among the Convex depositors or
    the direct gauge stakers with positive shares gives it an entry
    with a position under that category. *)
Theorem C4_exclusion_only_for_direct_holders
  (lenderData : LenderData) (convexData : ConvexData) (now : string)
  (addr : string) :
  arrayIncludes (EXCLUDED_CONTRACTS convexData) (toLowerCase addr) = true ->
  (forall l,
     In l (lenders (output lenderData convexData now)) ->
     toLowerCase (l_address l) = toLowerCase addr ->
     b_direct_vault (l_positions l) = None /\
     ~ In "direct_vault" (l_sources l)) /\
  (forall c h,
     c <> DirectVault ->
     In h (source lenderData convexData c) ->
     toLowerCase (h_address h) = toLowerCase addr ->
     (0 <? parseFloat (h_shares h)) = true ->
     exists l,
       In l (lenders (output lenderData convexData now)) /\
       toLowerCase (l_address l) = toLowerCase addr /\
       breakdownOf c (l_positions l) <> None /\
       In (name c) (l_sources l)).
Proof.
  intros Hex. split.
  - intros l Hl Hk.
    destruct (sorted_of_lender _ _ _ _ Hl) as (r & idx & Hr & ->).
    destruct (sorted_history _ _ _ Hr) as (r0 & e & rest & -> & Hev & Hf).
    cbn [formatLender setPct l_address l_positions l_sources address
         positions sources b_direct_vault] in *.
    destruct Hf as (_ & _ & _ & _ & Hp & Hi & _).
    assert (Hno : forall h, ~ In (DirectVault, h)
                              (about (toLowerCase (address r0))
                                     (events lenderData convexData))).
    { intros h Hin. apply In_about in Hin. destruct Hin as [Hin Hid].
      apply In_events in Hin. destruct Hin as [_ Hacc].
      unfold accepted, excluded in Hacc. cbn [snd] in Hid.
      unfold identity in Hid. rewrite Hid, Hk, Hex in Hacc.
      rewrite andb_false_r in Hacc. discriminate. }
    rewrite <- Hev in Hp, Hi. split.
    + specialize (Hp DirectVault). cbn [position] in Hp.
      destruct (lastOf DirectVault _) as [e0 |] eqn:El;
        [|rewrite Hp; reflexivity].
      exfalso.
      assert (H0 : exists h, In (DirectVault, h)
                     (about (toLowerCase (address r0))
                            (events lenderData convexData))).
      { clear - El. revert e0 El.
        induction (about _ _) as [| e1 l IH]; intros e0 El; [discriminate|].
        cbn [lastOf] in El. destruct (lastOf DirectVault l) as [e2 |].
        - destruct (IH _ eq_refl) as (h & Hh). exists h. right. exact Hh.
        - destruct (sameCategory (fst e1) DirectVault) eqn:Es; [|discriminate].
          apply sameCategory_eq in Es. destruct e1 as [c1 h1].
          cbn [fst] in Es. subst c1. exists h1. left. reflexivity. }
      destruct H0 as (h & Hh). exact (Hno h Hh).
    + intros Hin. apply Hi in Hin.
      destruct Hin as [[] | ([c h] & Hin & Hn)].
      cbn [fst] in Hn. change "direct_vault" with (name DirectVault) in Hn.
      apply name_inj in Hn. subst c. exact (Hno h Hin).
  - intros c h Hc Hin Hk Hpos.
    assert (Hacc : accepted convexData c h = true).
    { unfold accepted. rewrite (NumberFacts.ltb_0_not_leb _ Hpos).
      destruct c; [congruence | reflexivity | reflexivity]. }
    assert (Hev : In (c, h) (about (identity h) (events lenderData convexData))).
    { apply In_about. split; [|reflexivity]. apply In_events.
      split; assumption. }
    destruct (about (identity h) (events lenderData convexData))
      as [| e rest] eqn:Eh; [destruct Hev|].
    destruct (history_sorted _ _ _ _ _ Eh) as (r0 & Hr0 & Hid & Hf).
    destruct Hf as (_ & _ & _ & _ & Hp & Hi & _).
    destruct (lender_of_sorted _ _ now _ Hr0) as (idx & Hl).
    exists (formatLender (setPct convexData r0) idx).
    split; [exact Hl|].
    cbn [formatLender setPct l_address l_sources l_positions address
         sources positions].
    split; [rewrite Hid; exact Hk|]. split.
    + destruct (lastOf_In _ _ _ Hev) as (h' & Hlast & _).
      specialize (Hp c). rewrite Hlast in Hp.
      destruct c; cbn [breakdownOf position] in *; rewrite Hp; discriminate.
    + apply Hi. right. exists (c, h). split; [exact Hev | reflexivity].
Qed.

Lemma C4_exclusion_only_for_direct_holders_witness :
  arrayIncludes (EXCLUDED_CONTRACTS c4_convexData) (toLowerCase "0xGAUGE1")
    = true /\
  map line (lenders (output c4_lenderData c4_convexData "t")) =
    [(1%nat, "0xgauge1", "40.000000000000000000", "80.000000", ["convex"]);
     (2%nat, "0xAAa0001", "10.000000000000000000", "20.000000",
      ["direct_vault"])] /\
  (forall l,
     In l (lenders (output c4_lenderData c4_convexData "t")) ->
     toLowerCase (l_address l) = "0xgauge1" ->
     b_direct_vault (l_positions l) = None /\
     ~ In "direct_vault" (l_sources l)).
Proof.
  split; [reflexivity|]. split; [reflexivity|].
  apply (C4_exclusion_only_for_direct_holders
           c4_lenderData c4_convexData "t" "0xGAUGE1").
  reflexivity.
Defined.

(** ** C5: one record per case-insensitive address *)

Lemma NoDup_map_In_eq {A B : Type} (f : A -> B) (l : list A) (x y : A) :
  NoDup (map f l) -> In x l -> In y l -> f x = f y -> x = y.
Proof.
  induction l as [| a l IH]; [intros _ []|].
  cbn [map]. intros Hnd Hx Hy E. apply NoDup_cons_iff in Hnd.
  destruct Hnd as [Ha Hnd].
  destruct Hx as [-> | Hx], Hy as [-> | Hy].
  - reflexivity.
  - exfalso. apply Ha. rewrite E. apply in_map. exact Hy.
  - exfalso. apply Ha. rewrite <- E. apply in_map. exact Hx.
  - apply IH; assumption.
Qed.

Lemma lastOf_app (c : Category) (l l' : list (Category * Holder)) :
  lastOf c (l ++ l') =
  match lastOf c l' with
  | Some e => Some e
  | None => lastOf c l
  end.
Proof.
  induction l as [| e l IH]; cbn [app lastOf].
  - destruct (lastOf c l'); reflexivity.
  - rewrite IH. destruct (lastOf c l'); reflexivity.
Qed.

Lemma lastOf_none (c : Category) (l : list (Category * Holder)) :
  (forall e, In e l -> fst e <> c) -> lastOf c l = None.
Proof.
  induction l as [| e l IH]; intros H; [reflexivity|].
  cbn [lastOf]. rewrite IH by (intros e' He'; apply H; right; exact He').
  destruct (sameCategory (fst e) c) eqn:E; [|reflexivity].
  apply sameCategory_eq in E. exfalso. apply (H e); [left; reflexivity | exact E].
Qed.

(** The accepted records of an address, source by source *)
Lemma about_events (lenderData : LenderData) (convexData : ConvexData)
  (k : string) :
  about k (events lenderData convexData) =
  map (pair DirectVault) (acceptedAbout lenderData convexData DirectVault k) ++
  map (pair Convex) (acceptedAbout lenderData convexData Convex k) ++
  map (pair DirectGauge) (acceptedAbout lenderData convexData DirectGauge k).
Proof.
  unfold acceptedAbout. rewrite <- !about_tagged.
  unfold events, tagged, about. rewrite !filter_app. reflexivity.
Qed.

(** Two accepted records, of any sources, whose addresses differ in
    letter case only go to one and the same record of the ledger, the
    only one of that identity.  It holds a position and a source for the
    category of each, its totals are the sums, in the order of
    ingestion, over all accepted records of that identity, both among
    them, and its address is the spelling of the first of these. *)
Lemma same_identity_one_record
  (lenderData : LenderData) (convexData : ConvexData)
  (c1 c2 : Category) (h1 h2 : Holder) :
  In h1 (source lenderData convexData c1) ->
  accepted convexData c1 h1 = true ->
  In h2 (source lenderData convexData c2) ->
  accepted convexData c2 h2 = true ->
  toLowerCase (h_address h1) = toLowerCase (h_address h2) ->
  let ledger := sorted lenderData convexData in
  let k := toLowerCase (h_address h1) in
  let hist := about k (events lenderData convexData) in
  exists r,
    In r ledger /\
    (forall r', In r' ledger -> toLowerCase (address r') = k -> r' = r) /\
    NoDup (map (fun r => toLowerCase (address r)) ledger) /\
    position c1 (positions r) <> None /\
    position c2 (positions r) <> None /\
    (forall c, position c (positions r) =
               option_map (positionOf (pricePerShare convexData))
                          (lastOf c hist)) /\
    In (name c1) (sources r) /\
    In (name c2) (sources r) /\
    In (c1, h1) hist /\
    In (c2, h2) hist /\
    total_shares r = fold_left PrimFloat.add (map sharesOf hist) 0 /\
    total_crvusd_value r =
      fold_left PrimFloat.add
        (map (valueOf (pricePerShare convexData)) hist) 0 /\
    exists e rest, hist = e :: rest /\ address r = h_address (snd e).
Proof.
  intros Hin1 Hacc1 Hin2 Hacc2 Hk. cbv zeta.
  assert (Hev1 : In (c1, h1) (about (toLowerCase (h_address h1))
                                    (events lenderData convexData))).
  { apply In_about. split; [|reflexivity]. apply In_events. split; assumption. }
  assert (Hev2 : In (c2, h2) (about (toLowerCase (h_address h1))
                                    (events lenderData convexData))).
  { apply In_about. split; [|symmetry; exact Hk].
    apply In_events. split; assumption. }
  destruct (about (toLowerCase (h_address h1)) (events lenderData convexData))
    as [| e rest] eqn:Eh; [destruct Hev1|].
  destruct (history_sorted _ _ _ _ _ Eh) as (r0 & Hr0 & Hid & Hf).
  destruct Hf as (Ha & _ & Hs & Hv & Hp & Hi & _).
  exists (setPct convexData r0).
  cbn [setPct address positions sources total_shares total_crvusd_value].
  split; [exact Hr0|]. split.
  { intros r' Hr' Hk'.
    apply (NoDup_map_In_eq (fun r => toLowerCase (address r))
             (sorted lenderData convexData));
      [apply identities_NoDup | exact Hr' | exact Hr0|].
    cbn [setPct address]. congruence. }
  split; [apply identities_NoDup|].
  split.
  { destruct (lastOf_In _ _ _ Hev1) as (h' & Hl & _).
    rewrite Hp, Hl. discriminate. }
  split.
  { destruct (lastOf_In _ _ _ Hev2) as (h' & Hl & _).
    rewrite Hp, Hl. discriminate. }
  split.
  { intros c. rewrite Hp. destruct (lastOf c (e :: rest)); [reflexivity|].
    destruct c; reflexivity. }
  split; [apply Hi; right; exists (c1, h1); split; [exact Hev1 | reflexivity]|].
  split; [apply Hi; right; exists (c2, h2); split; [exact Hev2 | reflexivity]|].
  split; [exact Hev1|]. split; [exact Hev2|].
  split; [exact Hs|]. split; [exact Hv|].
  exists e, rest. split; [reflexivity | exact Ha].
Qed.

Lemma lastOf_about_single (lenderData : LenderData) (convexData : ConvexData)
  (c : Category) (k : string) (h : Holder) :
  acceptedAbout lenderData convexData c k = [h] ->
  lastOf c (about k (events lenderData convexData)) = Some (c, h).
Proof.
  intros H. rewrite about_events.
  assert (Hother : forall c' l, c' <> c -> lastOf c (map (pair c') l) = None).
  { intros c' l Hc. apply lastOf_none. intros e He.
    apply in_map_iff in He. destruct He as (x & <- & _). exact Hc. }
  destruct c; rewrite H; rewrite !lastOf_app;
    rewrite ?Hother by discriminate; reflexivity.
Qed.

Lemma acceptedAbout_In (lenderData : LenderData) (convexData : ConvexData)
  (c : Category) (k : string) (h : Holder) :
  In h (acceptedAbout lenderData convexData c k) ->
  In h (source lenderData convexData c) /\
  accepted convexData c h = true /\
  toLowerCase (h_address h) = k.
Proof.
  unfold acceptedAbout. intros H. apply filter_In in H.
  destruct H as [H Hk]. apply filter_In in H. destruct H as [Hin Hacc].
  apply String.eqb_eq in Hk. repeat split; assumption.
Qed.

(** C5: take two records whose addresses differ in letter case only,
    each the only record of that identity that the loop of its source
    accepts (two such records that are not one and the same come from
    two different sources).  Both go to one and the same record of the
    ledger, the only one of that identity: it holds
    the position of the first under the category of the first and the
    position of the second under the category of the second, names both
    sources, its totals are the sums, in the order of ingestion, over
    the accepted records of that identity, both among them, and its
    address is the spelling of the first accepted of these. *)
Theorem C5_case_insensitive_identity
  (lenderData : LenderData) (convexData : ConvexData)
  (c1 c2 : Category) (h1 h2 : Holder) :
  toLowerCase (h_address h1) = toLowerCase (h_address h2) ->
  acceptedAbout lenderData convexData c1 (toLowerCase (h_address h1)) = [h1] ->
  acceptedAbout lenderData convexData c2 (toLowerCase (h_address h1)) = [h2] ->
  let ledger := sorted lenderData convexData in
  let price := pricePerShare convexData in
  let k := toLowerCase (h_address h1) in
  let hist := about k (events lenderData convexData) in
  exists r,
    In r ledger /\
    (forall r', In r' ledger -> toLowerCase (address r') = k -> r' = r) /\
    position c1 (positions r) = Some (positionOf price (c1, h1)) /\
    position c2 (positions r) = Some (positionOf price (c2, h2)) /\
    In (name c1) (sources r) /\
    In (name c2) (sources r) /\
    In (c1, h1) hist /\
    In (c2, h2) hist /\
    total_shares r = fold_left PrimFloat.add (map sharesOf hist) 0 /\
    total_crvusd_value r =
      fold_left PrimFloat.add (map (valueOf price) hist) 0 /\
    exists e rest, hist = e :: rest /\ address r = h_address (snd e).
Proof.
  intros Hk H1 H2. cbv zeta.
  assert (Hin1 : In h1 (acceptedAbout lenderData convexData c1
                          (toLowerCase (h_address h1))))
    by (rewrite H1; left; reflexivity).
  assert (Hin2 : In h2 (acceptedAbout lenderData convexData c2
                          (toLowerCase (h_address h1))))
    by (rewrite H2; left; reflexivity).
  apply acceptedAbout_In in Hin1. destruct Hin1 as (Hs1 & Ha1 & _).
  apply acceptedAbout_In in Hin2. destruct Hin2 as (Hs2 & Ha2 & _).
  destruct (same_identity_one_record lenderData convexData c1 c2 h1 h2
              Hs1 Ha1 Hs2 Ha2 Hk)
    as (r & Hr & Huniq & _ & _ & _ & Hp & Hn1 & Hn2 & He1 & He2 & Hts & Htv
        & Hfirst).
  exists r. split; [exact Hr|]. split; [exact Huniq|].
  split; [rewrite Hp, (lastOf_about_single _ _ _ _ _ H1); reflexivity|].
  split; [rewrite Hp, (lastOf_about_single _ _ _ _ _ H2); reflexivity|].
  repeat (split; [assumption|]). exact Hfirst.
Qed.

Lemma C5_case_insensitive_identity_witness :
  map entry (sorted c5_lenderData c5_convexData) =
    [("0xAAA", 150, 300, ["direct_vault"; "convex"],
      Some 100, Some 50, None)] /\
  exists r,
    In r (sorted c5_lenderData c5_convexData) /\
    (forall r', In r' (sorted c5_lenderData c5_convexData) ->
                toLowerCase (address r') = "0xaaa" -> r' = r) /\
    position DirectVault (positions r) =
      Some {| shares := 100; crvusd_value := 200 |} /\
    position Convex (positions r) =
      Some {| shares := 50; crvusd_value := 100 |} /\
    In "direct_vault" (sources r) /\
    In "convex" (sources r) /\
    In (DirectVault, holder "0xAAA" "100")
       (about "0xaaa" (events c5_lenderData c5_convexData)) /\
    In (Convex, holder "0xaaa" "50")
       (about "0xaaa" (events c5_lenderData c5_convexData)) /\
    total_shares r =
      fold_left PrimFloat.add
        (map sharesOf (about "0xaaa" (events c5_lenderData c5_convexData))) 0 /\
    total_crvusd_value r =
      fold_left PrimFloat.add
        (map (valueOf (pricePerShare c5_convexData))
             (about "0xaaa" (events c5_lenderData c5_convexData))) 0 /\
    exists e rest,
      about "0xaaa" (events c5_lenderData c5_convexData) = e :: rest /\
      address r = h_address (snd e).
Proof.
  split; [reflexivity|].
  apply (C5_case_insensitive_identity c5_lenderData c5_convexData
           DirectVault Convex (holder "0xAAA" "100") (holder "0xaaa" "50")).
  - reflexivity.
  - reflexivity.
  - reflexivity.
Defined.

(** C5 fails as stated, for every pair of input records.  Of the direct
    holder ["0xGAUGE1"], an excluded contract, and the Convex holder
    ["0xgauge1"] the one record of that identity holds the Convex
    position only; and of the two direct holders ["0xAbC0001"] and
    ["0xabc0001"] the one record holds a single position, of the 2
    shares of the second. *)
Lemma C5_counterexample :
  (In (holder "0xGAUGE1" "100")
      (source c4_lenderData c4_convexData DirectVault) /\
   In (holder "0xgauge1" "40") (source c4_lenderData c4_convexData Convex) /\
   toLowerCase "0xGAUGE1" = toLowerCase "0xgauge1" /\
   accepted c4_convexData DirectVault (holder "0xGAUGE1" "100") = false /\
   map entry (sorted c4_lenderData c4_convexData) =
     [("0xgauge1", 40, 80, ["convex"], None, Some 40, None);
      ("0xAAa0001", 10, 20, ["direct_vault"], Some 10, None, None)] /\
   ~ exists r,
       In r (sorted c4_lenderData c4_convexData) /\
       position DirectVault (positions r) =
         Some (positionOf (pricePerShare c4_convexData)
                          (DirectVault, holder "0xGAUGE1" "100"))) /\
  (source c2_lenderData c2_convexData DirectVault =
     [holder "0xAbC0001" "1"; holder "0xabc0001" "2"] /\
   toLowerCase "0xAbC0001" = toLowerCase "0xabc0001" /\
   map entry (sorted c2_lenderData c2_convexData) =
     [("0xAbC0001", 3, 6, ["direct_vault"], Some 2, None, None)] /\
   ~ exists r c,
       In r (sorted c2_lenderData c2_convexData) /\
       position c (positions r) =
         Some (positionOf (pricePerShare c2_convexData)
                          (DirectVault, holder "0xAbC0001" "1"))).
Proof.
  split.
  - repeat (split; [vm_compute; auto|]).
    intros (r & Hr & Hp). vm_compute in Hr.
    destruct Hr as [<- | [<- | []]]; vm_compute in Hp; discriminate Hp.
  - repeat (split; [vm_compute; auto|]).
    intros (r & c & Hr & Hp). vm_compute in Hr.
    destruct Hr as [<- | []]. destruct c; vm_compute in Hp; discriminate Hp.
Qed.

(** The scenario of the specification: ["0xAAA"] holds 100 shares
    directly and ["0xaaa"] 50 through Convex, at price 2 of a supply of
    150. *)
Example specification_scenario :
  map (fun l => (line l, l_pct_of_vault l))
      (lenders (output c5_lenderData c5_convexData "t")) =
  [((1%nat, "0xAAA", "150.000000000000000000", "300.000000",
     ["direct_vault"; "convex"]), "100.00")].
Proof. reflexivity. Qed.

(** ** C6: records with zero or negative shares *)

Lemma output_ext (ld ld' : LenderData) (cd cd' : ConvexData) (now : string) :
  ingested ld cd = ingested ld' cd' ->
  cd_vault_state cd = cd_vault_state cd' ->
  cd_contracts cd = cd_contracts cd' ->
  ld_timestamp ld = ld_timestamp ld' ->
  cd_timestamp cd = cd_timestamp cd' ->
  cd_block cd = cd_block cd' ->
  cd_chain cd = cd_chain cd' ->
  output ld cd now = output ld' cd' now.
Proof.
  intros Hi Hv Hc Ht Ht' Hb Hch.
  assert (Hs : sorted ld cd = sorted ld' cd').
  { unfold sorted, merged, setPct, totalVaultShares. rewrite Hi, Hv.
    reflexivity. }
  unfold output, formattedLenders, sourceSummary, multiSourceCount,
    totalMergedShares, totalMergedCrvusd, totalVaultShares.
  rewrite Hs, Hv, Hc, Ht, Ht', Hb, Hch. reflexivity.
Qed.

Lemma filter_skip {A : Type} (p : A -> bool) (l1 l2 : list A) (x : A) :
  p x = false -> filter p (l1 ++ x :: l2) = filter p (l1 ++ l2).
Proof.
  intros H. rewrite !filter_app. cbn [filter]. rewrite H. reflexivity.
Qed.

(** C6: a record whose parsed shares are zero or negative, at any place
    of any of the three sequences, leaves no trace: the output is the
    output of the same inputs without the record. *)
Theorem C6_nonpositive_shares_are_skipped
  (lenderData : LenderData) (convexData : ConvexData) (now : string)
  (c : Category) (h : Holder) (l1 l2 : list Holder) :
  source lenderData convexData c = l1 ++ h :: l2 ->
  (parseFloat (h_shares h) <=? 0) = true ->
  output lenderData convexData now =
  output (fst (withSource c (l1 ++ l2) lenderData convexData))
         (snd (withSource c (l1 ++ l2) lenderData convexData)) now.
Proof.
  intros Hsrc Hle.
  assert (Hacc : accepted convexData c h = false).
  { unfold accepted. rewrite Hle. reflexivity. }
  apply output_ext; try (destruct c; reflexivity).
  rewrite !ingested_replay.
  replace (pricePerShare (snd (withSource c (l1 ++ l2) lenderData convexData)))
    with (pricePerShare convexData) by (destruct c; reflexivity).
  f_equal. unfold events, tagged.
  destruct c; cbn [withSource fst snd source] in *;
    rewrite Hsrc;
    change (accepted _ ?c') with (accepted convexData c');
    rewrite (filter_skip _ l1 l2 h Hacc); reflexivity.
Qed.

Lemma C6_nonpositive_shares_are_skipped_witness :
  source c6_lenderData c1_convexData DirectVault =
    [holder "0xAAa0001" "10"] ++ holder "0xEEe0006" "0" ::
    [holder "0xBBb0002" "30"] /\
  (parseFloat "0" <=? 0) = true /\
  output c6_lenderData c1_convexData "t" =
  output (sampleLenderData [holder "0xAAa0001" "10"; holder "0xBBb0002" "30"])
         c1_convexData "t".
Proof.
  split; [reflexivity|]. split; [reflexivity|].
  apply (C6_nonpositive_shares_are_skipped c6_lenderData c1_convexData "t"
           DirectVault (holder "0xEEe0006" "0")
           [holder "0xAAa0001" "10"] [holder "0xBBb0002" "30"]).
  - reflexivity.
  - reflexivity.
Defined.

(** ** C8: determinism *)

Lemma append_assoc (a b c : string) :
  ((a ++ b) ++ c)%string = (a ++ (b ++ c))%string.
Proof.
  induction a as [| x a IH]; cbn [append]; [reflexivity|].
  rewrite IH. reflexivity.
Qed.

(** C8: two runs on the same input files differ in [generated_at] only.
    The object of a run at time [now'] is the object of a run at time
    [now] with its [generated_at] set to [now'], and the file written is
    its opening lines, the time of the run in quotes, and a rest that
    is the same for every run on these inputs. *)
Theorem C8_output_is_a_function_of_the_inputs
  (lenderData : LenderData) (convexData : ConvexData) :
  (forall now now',
     generated_at (output lenderData convexData now) = now /\
     output lenderData convexData now' =
     withGeneratedAt now' (output lenderData convexData now)) /\
  exists rest,
    forall now,
      written lenderData convexData now =
      (openingLines ++ quote now ++ rest)%string.
Proof.
  split; [intros now now'; split; reflexivity|].
  eexists. intros now. unfold written, outputJSON, openingLines.
  cbn [stringify map fst snd String.concat output generated_at description
       source_timestamps vault summary lenders].
  repeat rewrite append_assoc. reflexivity.
Qed.

(** ** C9: the same address twice in one source *)

Lemma events_split (lenderData : LenderData) (convexData : ConvexData)
  (c : Category) :
  exists X Y,
    events lenderData convexData = X ++ tagged lenderData convexData c ++ Y /\
    (forall e, In e X \/ In e Y -> fst e <> c).
Proof.
  assert (Ht : forall c' e, In e (tagged lenderData convexData c') -> fst e = c').
  { intros c' e He. unfold tagged in He. apply in_map_iff in He.
    destruct He as (h & <- & _). reflexivity. }
  unfold events. destruct c.
  - exists [], (tagged lenderData convexData Convex ++
                tagged lenderData convexData DirectGauge).
    split; [reflexivity|]. intros e [[] | He].
    apply in_app_or in He. destruct He as [He | He];
      rewrite (Ht _ _ He); discriminate.
  - exists (tagged lenderData convexData DirectVault),
           (tagged lenderData convexData DirectGauge).
    split; [reflexivity|]. intros e [He | He];
      rewrite (Ht _ _ He); discriminate.
  - exists (tagged lenderData convexData DirectVault ++
            tagged lenderData convexData Convex), [].
    split; [rewrite app_nil_r, app_assoc; reflexivity|].
    intros e [He | []]. apply in_app_or in He. destruct He as [He | He];
      rewrite (Ht _ _ He); discriminate.
Qed.

(** C9: when two records of one source, both with positive shares and
    not excluded, carry the same address up to letter case, and no later
    accepted record of that source carries it, the record of the address
    holds under that category the position of the second; its totals
    are sums in which the first and the second are separate terms; and
    the category occurs once in its sources. *)
Theorem C9_second_position_replaces_first_totals_add
  (lenderData : LenderData) (convexData : ConvexData)
  (c : Category) (h1 h2 : Holder) (l1 l2 l3 : list Holder) :
  source lenderData convexData c = l1 ++ h1 :: l2 ++ h2 :: l3 ->
  (0 <? parseFloat (h_shares h1)) = true ->
  (0 <? parseFloat (h_shares h2)) = true ->
  excluded convexData c h2 = false ->
  toLowerCase (h_address h1) = toLowerCase (h_address h2) ->
  (forall h, In h l3 -> accepted convexData c h = true ->
             toLowerCase (h_address h) <> toLowerCase (h_address h2)) ->
  let price := pricePerShare convexData in
  exists r a b d,
    In r (sorted lenderData convexData) /\
    toLowerCase (address r) = toLowerCase (h_address h2) /\
    about (toLowerCase (h_address h2)) (events lenderData convexData) =
      a ++ (c, h1) :: b ++ (c, h2) :: d /\
    position c (positions r) =
      Some {| shares := parseFloat (h_shares h2);
              crvusd_value := parseFloat (h_shares h2) * price |} /\
    total_shares r =
      fold_left PrimFloat.add
        (map sharesOf (a ++ (c, h1) :: b ++ (c, h2) :: d)) 0 /\
    total_crvusd_value r =
      fold_left PrimFloat.add
        (map (valueOf price) (a ++ (c, h1) :: b ++ (c, h2) :: d)) 0 /\
    count_occ string_dec (sources r) (name c) = 1%nat.
Proof.
  intros Hsrc Hpos1 Hpos2 Hex Hk Hlast. cbv zeta.
  set (k := toLowerCase (h_address h2)).
  assert (Hex1 : excluded convexData c h1 = false).
  { unfold excluded in *. rewrite Hk. exact Hex. }
  assert (Hacc1 : accepted convexData c h1 = true).
  { unfold accepted. rewrite (NumberFacts.ltb_0_not_leb _ Hpos1), Hex1.
    reflexivity. }
  assert (Hacc2 : accepted convexData c h2 = true).
  { unfold accepted. rewrite (NumberFacts.ltb_0_not_leb _ Hpos2), Hex.
    reflexivity. }
  destruct (events_split lenderData convexData c) as (X & Y & Hev & Hxy).
  set (T := fun l => map (pair c) (filter (accepted convexData c) l)).
  assert (Htag : tagged lenderData convexData c =
                 T l1 ++ (c, h1) :: T l2 ++ (c, h2) :: T l3).
  { unfold tagged, T. rewrite Hsrc.
    rewrite filter_app. cbn [filter]. rewrite Hacc1.
    rewrite filter_app. cbn [filter]. rewrite Hacc2.
    rewrite map_app. cbn [map]. rewrite map_app. reflexivity. }
  set (a := about k (X ++ T l1)).
  set (b := about k (T l2)).
  set (d := about k (T l3 ++ Y)).
  assert (Hab : about k (events lenderData convexData) =
                a ++ (c, h1) :: b ++ (c, h2) :: d).
  { rewrite Hev, Htag. unfold a, b, d, about.
    rewrite <- app_assoc.
    repeat (rewrite filter_app || cbn [filter snd app]).
    unfold identity. rewrite Hk. fold k. rewrite String.eqb_refl.
    repeat (rewrite <- app_assoc || rewrite <- app_comm_cons).
    reflexivity. }
  assert (Hd : forall e, In e d -> fst e <> c).
  { intros e He. unfold d in He. apply In_about_gen in He.
    destruct He as [He Hid]. apply in_app_or in He. destruct He as [He | He].
    - unfold T in He. apply in_map_iff in He.
      destruct He as (h & <- & Hh). apply filter_In in Hh.
      destruct Hh as [Hh Hacc]. exfalso.
      apply (Hlast h Hh Hacc). exact Hid.
    - apply Hxy. right. exact He. }
  assert (Hl : lastOf c (a ++ (c, h1) :: b ++ (c, h2) :: d) = Some (c, h2)).
  { rewrite lastOf_app. cbn [lastOf]. rewrite lastOf_app. cbn [lastOf].
    rewrite (lastOf_none c d Hd). cbn [fst].
    replace (sameCategory c c) with true
      by (symmetry; apply sameCategory_eq; reflexivity).
    reflexivity. }
  destruct (about k (events lenderData convexData)) as [| e rest] eqn:Eh.
  { exfalso. symmetry in Hab. apply app_eq_nil in Hab.
    destruct Hab as [_ Hab]. discriminate Hab. }
  destruct (history_sorted _ _ _ _ _ Eh) as (r0 & Hr0 & Hid & Hf).
  destruct Hf as (_ & _ & Hs & Hv & Hp & Hi & Hn).
  rewrite Hab in Hs, Hv, Hp, Hi.
  exists (setPct convexData r0), a, b, d.
  cbn [setPct address positions sources total_shares total_crvusd_value].
  split; [exact Hr0|]. split; [exact Hid|]. split; [exact Hab|].
  split; [rewrite Hp, Hl; reflexivity|].
  split; [exact Hs|]. split; [exact Hv|].
  apply NoDup_count_occ'.
  - apply Hn. constructor.
  - apply Hi. right. exists (c, h1). split; [|reflexivity].
    apply in_or_app. right. left. reflexivity.
Qed.

Lemma C9_second_position_replaces_first_totals_add_witness :
  source c9_lenderData c1_convexData DirectVault =
    [] ++ holder "0xAbC0001" "1" :: [holder "0xBBb0002" "5"] ++
    holder "0xabc0001" "2" :: [] /\
  (0 <? parseFloat "1") = true /\
  (0 <? parseFloat "2") = true /\
  map entry (sorted c9_lenderData c1_convexData) =
    [("0xBBb0002", 5, 10, ["direct_vault"], Some 5, None, None);
     ("0xAbC0001", 3, 6, ["direct_vault"], Some 2, None, None)] /\
  exists r a b d,
    In r (sorted c9_lenderData c1_convexData) /\
    toLowerCase (address r) = "0xabc0001" /\
    about "0xabc0001" (events c9_lenderData c1_convexData) =
      a ++ (DirectVault, holder "0xAbC0001" "1") :: b ++
      (DirectVault, holder "0xabc0001" "2") :: d /\
    position DirectVault (positions r) =
      Some {| shares := 2; crvusd_value := 2 * 2 |} /\
    total_shares r =
      fold_left PrimFloat.add
        (map sharesOf
             (a ++ (DirectVault, holder "0xAbC0001" "1") :: b ++
              (DirectVault, holder "0xabc0001" "2") :: d)) 0 /\
    total_crvusd_value r =
      fold_left PrimFloat.add
        (map (valueOf 2)
             (a ++ (DirectVault, holder "0xAbC0001" "1") :: b ++
              (DirectVault, holder "0xabc0001" "2") :: d)) 0 /\
    count_occ string_dec (sources r) "direct_vault" = 1%nat.
Proof.
  split; [reflexivity|]. split; [reflexivity|]. split; [reflexivity|].
  split; [reflexivity|].
  apply (C9_second_position_replaces_first_totals_add
           c9_lenderData c1_convexData DirectVault
           (holder "0xAbC0001" "1") (holder "0xabc0001" "2")
           [] [holder "0xBBb0002" "5"] []).
  - reflexivity.
  - reflexivity.
  - reflexivity.
  - reflexivity.
  - reflexivity.
  - intros h [].
Defined.

(* ================================================================== *)
(** * Properties of the event classifier *)
(* ================================================================== *)

Lemma own_mutate_same (k : string) (f : Borrower -> Borrower)
  (obj : list (string * Borrower)) :
  own k (mutate k f obj) = option_map f (own k obj).
Proof.
  unfold mutate. induction obj as [| [k' b] obj IH]; [reflexivity|].
  cbn [map fst snd own].
  destruct (String.eqb k' k) eqn:E; cbn [own]; rewrite E;
    [reflexivity | exact IH].
Qed.

Lemma own_snoc (k : string) (b : Borrower)
  (obj : list (string * Borrower)) :
  own k obj = None -> own k (obj ++ [(k, b)]) = Some b.
Proof.
  induction obj as [| [k' b'] obj IH]; cbn [app own].
  - rewrite String.eqb_refl. reflexivity.
  - destruct (String.eqb k' k); [discriminate | exact IH].
Qed.

Lemma property_Own {V : Type} (k : string) (obj : list (string * V)) (v : V) :
  property k obj = Own v <-> own k obj = Some v.
Proof.
  unfold property. destruct (own k obj) as [v' |].
  - split; intros [= ->]; reflexivity.
  - destruct (isInherited k); split; discriminate.
Qed.

Lemma property_not_Own {V : Type} (k : string) (obj : list (string * V)) :
  (forall v, property k obj <> Own v) <-> own k obj = None.
Proof.
  unfold property. destruct (own k obj) as [v' |].
  - split; [intros H; exfalso; apply (H v'); reflexivity | discriminate].
  - split; [reflexivity|]. intros _ v. destruct (isInherited k); discriminate.
Qed.

(** The six labels an event can get *)
Lemma classification_cases (event : Event) (classification : string) :
  classificationOf event = Some classification ->
  In classification
     [ "create_loan (standard)"; "create_loan_extended (LEVERAGE)";
       "borrow_more_extended (LEVERAGE)"; "borrow_more (standard)";
       "add_collateral (no borrow)"; "UNKNOWN" ].
Proof.
  unfold classificationOf, property, OBSERVED_SELECTORS. cbn [own].
  repeat (destruct (String.eqb _ (functionSelector event));
          [intros [= <-]; cbn; tauto|]).
  destruct (isInherited _); [discriminate|].
  intros [= <-]. cbn. tauto.
Qed.

(** No label is read exactly for the selectors that name a property of
    [Object.prototype]. *)
Lemma classificationOf_None (event : Event) :
  classificationOf event = None <-> isInherited (functionSelector event) = true.
Proof.
  unfold classificationOf, property, OBSERVED_SELECTORS. cbn [own].
  destruct (String.eqb_spec "0x23cfed03" (functionSelector event)) as [<- | _];
    [split; discriminate|].
  destruct (String.eqb_spec "0x4ba96d46" (functionSelector event)) as [<- | _];
    [split; discriminate|].
  destruct (String.eqb_spec "0x24977ef3" (functionSelector event)) as [<- | _];
    [split; discriminate|].
  destruct (String.eqb_spec "0xdd171e7c" (functionSelector event)) as [<- | _];
    [split; discriminate|].
  destruct (String.eqb_spec "0x24049e57" (functionSelector event)) as [<- | _];
    [split; discriminate|].
  destruct (isInherited (functionSelector event)); split; congruence.
Qed.

(** A turn of the loop: it throws on a selector or a user that reads
    an inherited value, and otherwise ends in the state [turn]. *)
Lemma step_turn (st : State) (event : Event) :
  step st event =
  match classificationOf event with
  | None => TypeError (console st)
  | Some _ =>
      match property (user event) (borrowerSummary st) with
      | Inherited => TypeError (console (turn st event))
      | _ => Normal (turn st event)
      end
  end.
Proof.
  unfold step, turn, labelOf, isLeverage, property.
  destruct (classificationOf event) as [classification |]; [|reflexivity].
  cbv zeta. rewrite N.ltb_antisym, negb_involutive. cbn [console].
  assert (Hc : (if includes classification "LEVERAGE" &&
                   (totalLogCount event <=? 10)%N
                then console st ++ [warning event] else console st) =
               console st ++
               (if includes classification "LEVERAGE" &&
                   (totalLogCount event <=? 10)%N
                then [warning event] else [])).
  { destruct (_ && _); [reflexivity | rewrite app_nil_r; reflexivity]. }
  rewrite Hc.
  destruct (own (user event) (borrowerSummary st)); [reflexivity|].
  destruct (isInherited (user event)); reflexivity.
Qed.

Lemma step_Normal (st st' : State) (event : Event) :
  step st event = Normal st' ->
  st' = turn st event /\
  classificationOf event = Some (labelOf event) /\
  property (user event) (borrowerSummary st) <> Inherited.
Proof.
  rewrite step_turn. unfold labelOf.
  destruct (classificationOf event); [|discriminate].
  destruct (property (user event) (borrowerSummary st));
    try discriminate; intros [= <-]; repeat split; discriminate.
Qed.

Lemma step_TypeError (st : State) (event : Event) :
  (exists printed, step st event = TypeError printed) <->
  classificationOf event = None \/
  property (user event) (borrowerSummary st) = Inherited.
Proof.
  rewrite step_turn.
  destruct (classificationOf event).
  - destruct (property (user event) (borrowerSummary st)); split.
    + intros (p & H). discriminate H.
    + intros [H | H]; discriminate H.
    + intros _. right. reflexivity.
    + intros _. eexists. reflexivity.
    + intros (p & H). discriminate H.
    + intros [H | H]; discriminate H.
  - split; [intros _; left; reflexivity | intros _; eexists; reflexivity].
Qed.

(** The borrower of the event after a turn that completes is the tally
    of the event on the borrower as it stood, or on a fresh one. *)
Lemma turn_borrower (st : State) (event : Event) :
  own (user event) (borrowerSummary (turn st event)) =
  Some (tally (labelOf event) event
          match own (user event) (borrowerSummary st) with
          | Some b => b
          | None => fresh event
          end).
Proof.
  unfold turn. cbn [borrowerSummary]. rewrite own_mutate_same.
  destruct (own (user event) (borrowerSummary st)) as [b |] eqn:E.
  - rewrite E. reflexivity.
  - rewrite own_snoc by exact E. reflexivity.
Qed.

(** ** C7: the table and the log-count heuristic *)

Lemma apartFromLogCount_tally (n : N) (classification : string)
  (event : Event) (b : Borrower) :
  apartFromLogCount (tally classification (withLogCount n event) b) =
  apartFromLogCount (tally classification event b).
Proof.
  unfold apartFromLogCount. cbn [tally b_events]. rewrite !map_app.
  reflexivity.
Qed.

Lemma summaryApartFromLogCount_turn (n : N) (st : State) (event : Event) :
  summaryApartFromLogCount (turn st (withLogCount n event)) =
  summaryApartFromLogCount (turn st event).
Proof.
  unfold summaryApartFromLogCount, turn. cbn [borrowerSummary withLogCount user].
  change (labelOf (withLogCount n event)) with (labelOf event).
  unfold mutate. rewrite !map_map.
  destruct (own (user event) (borrowerSummary st)) as [b0 |].
  - apply map_ext. intros [k b]. cbn [fst snd].
    destruct (String.eqb k (user event)); cbn [fst snd];
      rewrite ?apartFromLogCount_tally; reflexivity.
  - rewrite !map_app. f_equal.
    + apply map_ext. intros [k b]. cbn [fst snd].
      destruct (String.eqb k (user event)); cbn [fst snd];
        rewrite ?apartFromLogCount_tally; reflexivity.
    + cbn [map fst snd]. destruct (String.eqb _ _); cbn [fst snd];
        rewrite ?apartFromLogCount_tally; reflexivity.
Qed.

(** C7 (as the code behaves): a turn of the loop throws a [TypeError]
    exactly when the selector or the user of the event reads a value
    inherited from [Object.prototype], the selector doing so exactly
    when it names one of its properties, and whether it throws does not
    depend on the log count.  On a turn that completes, the entry
    recorded for the event carries the label of its selector in the
    table, or [UNKNOWN], and is a leverage entry exactly when that
    label contains [LEVERAGE]; no field of any borrower but the log
    count noted in the entry, so none of the totals, depends on the log
    count; and the console gets one line more, a warning, exactly when
    the table says leverage and the event has 10 logs or fewer,
    otherwise nothing. *)
Theorem C7_table_classifies_heuristic_warns_one_way
  (st : State) (event : Event) :
  ((exists printed, step st event = TypeError printed) <->
   isInherited (functionSelector event) = true \/
   property (user event) (borrowerSummary st) = Inherited) /\
  (forall n,
     match step st event, step st (withLogCount n event) with
     | Normal st1, Normal st2 =>
         summaryApartFromLogCount st2 = summaryApartFromLogCount st1
     | TypeError _, TypeError _ => True
     | _, _ => False
     end) /\
  (forall st',
     step st event = Normal st' ->
     (exists b earlier entry,
        property (user event) (borrowerSummary st') = Own b /\
        b_events b = earlier ++ [entry] /\
        e_classification entry =
          orElse (own (functionSelector event) OBSERVED_SELECTORS)
                 "UNKNOWN" /\
        e_isLeverage entry = includes (e_classification entry) "LEVERAGE" /\
        isLeverage event = e_isLeverage entry) /\
     console st' =
       console st ++
       (if isLeverage event && (totalLogCount event <=? 10)%N
        then [warning event] else [])).
Proof.
  split; [|split].
  - rewrite step_TypeError, classificationOf_None. reflexivity.
  - intros n. rewrite !step_turn.
    change (classificationOf (withLogCount n event))
      with (classificationOf event).
    change (user (withLogCount n event)) with (user event).
    destruct (classificationOf event); [|exact I].
    destruct (property (user event) (borrowerSummary st)); try exact I;
      apply summaryApartFromLogCount_turn.
  - intros st' H. apply step_Normal in H. destruct H as (-> & Hc & _).
    split; [|reflexivity].
    eexists. eexists. eexists.
    split; [apply property_Own, turn_borrower|].
    cbn [tally b_events]. split; [reflexivity|].
    cbn [e_classification e_isLeverage]. split; [|split; [reflexivity|]].
    + revert Hc. unfold labelOf, classificationOf, property.
      destruct (own (functionSelector event) OBSERVED_SELECTORS);
        [reflexivity|].
      destruct (isInherited _); [discriminate | reflexivity].
    + unfold isLeverage. rewrite Hc. reflexivity.
Qed.

(** C7 fails as stated: a standard [create_loan] with 50 logs is a
    mismatch between the table and the heuristic, and no warning is
    printed, the warning existing for the other direction only; and
    for a selector that names a property of [Object.prototype] no
    category is assigned, the turn ending in a [TypeError]. *)
Lemma C7_counterexample :
  isLeverage (sampleEvent "0x23cfed03" 50) = false /\
  isExtended (sampleEvent "0x23cfed03" 50) = true /\
  (exists st,
     classifyAll [sampleEvent "0x23cfed03" 50] = Normal st /\
     console st = []) /\
  (exists st,
     classifyAll [sampleEvent "0x4ba96d46" 6] = Normal st /\
     console st =
       ["  WARNING: 0x7e57 classified as leverage but only 6 logs"]) /\
  classifyAll [sampleEvent "constructor" 50] = TypeError [].
Proof.
  split; [reflexivity|]. split; [reflexivity|].
  split; [eexists; split; reflexivity|].
  split; [eexists; split; reflexivity|]. reflexivity.
Qed.

(** ** C10: which totals an event adds to *)

(** C10: the label [add_collateral (no borrow)], the one the selector
    [0x24049e57] reads, falls in the standard branch, [UNKNOWN] is the
    only label that falls in neither branch, and a turn of the loop
    that completes adds the event's collateral and loan to the totals
    of the branch of its label, and one to its count, leaving the other
    totals as they were. *)
Theorem C10_add_collateral_counts_as_standard
  (st st' : State) (event : Event) :
  step st event = Normal st' ->
  let b0 := match property (user event) (borrowerSummary st) with
            | Own b => b
            | _ => fresh event
            end in
  let collateral := collateral_increase_squid event in
  let loan := loan_increase_crvusd event in
  includes "add_collateral (no borrow)" "LEVERAGE" = false /\
  includes "add_collateral (no borrow)" "borrow" = true /\
  bucket "add_collateral (no borrow)" = Standard /\
  exists label b,
    classificationOf event = Some label /\
    (functionSelector event = "0x24049e57" ->
     label = "add_collateral (no borrow)") /\
    (bucket label = Neither <-> label = "UNKNOWN") /\
    property (user event) (borrowerSummary st') = Own b /\
    match bucket label with
    | Leverage =>
        (leverageCollateral b, leverageBorrowed b, leverageCount b) =
          ((leverageCollateral b0 + collateral)%float,
           (leverageBorrowed b0 + loan)%float,
           (leverageCount b0 + 1)%float) /\
        (standardCollateral b, standardBorrowed b, standardCount b) =
          (standardCollateral b0, standardBorrowed b0, standardCount b0)
    | Standard =>
        (leverageCollateral b, leverageBorrowed b, leverageCount b) =
          (leverageCollateral b0, leverageBorrowed b0, leverageCount b0) /\
        (standardCollateral b, standardBorrowed b, standardCount b) =
          ((standardCollateral b0 + collateral)%float,
           (standardBorrowed b0 + loan)%float,
           (standardCount b0 + 1)%float)
    | Neither =>
        (leverageCollateral b, leverageBorrowed b, leverageCount b) =
          (leverageCollateral b0, leverageBorrowed b0, leverageCount b0) /\
        (standardCollateral b, standardBorrowed b, standardCount b) =
          (standardCollateral b0, standardBorrowed b0, standardCount b0)
    end.
Proof.
  intros H. cbv zeta. split; [reflexivity|]. split; [reflexivity|].
  split; [reflexivity|].
  apply step_Normal in H. destruct H as (-> & Hc & _).
  exists (labelOf event). eexists.
  split; [exact Hc|]. split; [|split; [|split]].
  - intros Hs. revert Hc. unfold classificationOf. rewrite Hs. cbn.
    intros [= <-]. reflexivity.
  - pose proof (classification_cases event _ Hc) as Hin. cbn [In] in Hin.
    destruct Hin as [<- | [<- | [<- | [<- | [<- | [<- | []]]]]]];
      split; intros E; try reflexivity; discriminate E.
  - apply property_Own, turn_borrower.
  - assert (Hb : match property (user event) (borrowerSummary st) with
                 | Own b => b
                 | _ => fresh event
                 end =
                 match own (user event) (borrowerSummary st) with
                 | Some b => b
                 | None => fresh event
                 end).
    { unfold property. destruct (own _ _); [reflexivity|].
      destruct (isInherited _); reflexivity. }
    rewrite Hb.
    unfold bucket. cbn [tally leverageCollateral leverageBorrowed
      leverageCount standardCollateral standardBorrowed standardCount].
    destruct (includes (labelOf event) "LEVERAGE"); cbn [negb andb].
    + split; reflexivity.
    + destruct (includes (labelOf event) "borrow" ||
                includes (labelOf event) "create");
        split; reflexivity.
Qed.

Lemma C10_add_collateral_counts_as_standard_witness :
  exists st' b,
    step start (sampleEvent "0x24049e57" 6) = Normal st' /\
    classificationOf (sampleEvent "0x24049e57" 6) =
      Some "add_collateral (no borrow)" /\
    property (user (sampleEvent "0x24049e57" 6)) (borrowerSummary st') =
      Own b /\
    (standardCollateral b, standardBorrowed b, standardCount b) =
      (1000, 25, 1) /\
    (leverageCollateral b, leverageBorrowed b, leverageCount b) = (0, 0, 0).
Proof.
  eexists.
  destruct (C10_add_collateral_counts_as_standard
              start _ (sampleEvent "0x24049e57" 6) eq_refl)
    as (_ & _ & _ & label & b & Hc & _ & _ & Hb & Ht).
  exists b. split; [reflexivity|]. split; [reflexivity|].
  split; [exact Hb|].
  injection Hc as <-. cbn in Ht. destruct Ht as [Hl Hs].
  rewrite Hs, Hl. split; reflexivity.
Defined.

(* ================================================================== *)
(** * Facts on sums of binary64 numbers *)
(* ================================================================== *)

Module SumFacts.

Import Number NumberFacts.

(** Adding a positive value to one that is zero or positive gives a
    positive value: rounding does not reach zero. *)
Lemma SFadd_pos (x y : spec_float) :
  valid_binary x = true -> valid_binary y = true ->
  SFleb (S754_zero false) x = true -> SFltb (S754_zero false) y = true ->
  SFltb (S754_zero false) (SFadd prec emax x y) = true.
Proof.
  intros Vx Vy Hx Hy.
  destruct x as [sx | sx | | sx mx ex], y as [sy | sy | | sy my ey];
    try discriminate;
    try (destruct sx; try discriminate);
    try (destruct sy; try discriminate);
    try reflexivity.
  cbn [valid_binary] in Vx, Vy.
  destruct (canonical_inv _ _ Vx) as (Hex & _).
  destruct (canonical_inv _ _ Vy) as (Hey & _).
  cbn [SFadd cond_Zopp Z.add binary_normalize].
  destruct (binary_round_signed false
              (fst (shl_align mx ex (Z.min ex ey)) +
               fst (shl_align my ey (Z.min ex ey)))%positive
              (Z.min ex ey) ltac:(lia));
    reflexivity.
Qed.

Local Open Scope float_scope.

Lemma add_pos (x y : float) :
  (0 <=? x) = true -> (0 <? y) = true -> (0 <? x + y) = true.
Proof.
  rewrite leb_spec, !ltb_spec, add_spec.
  change (Prim2SF 0) with (S754_zero false).
  apply SFadd_pos; apply Prim2SF_valid.
Qed.

(** A number that fails the test [x <= 0] is positive or NaN. *)
Lemma not_leb_0 (x : float) :
  (x <=? 0) = false -> isNaN x = true \/ (0 <? x) = true.
Proof.
  intros H. destruct (isNaN x) eqn:E; [left; reflexivity | right].
  rewrite leb_ord in H by (exact E || reflexivity).
  rewrite ltb_ord by (exact E || reflexivity).
  apply Z.leb_gt in H. apply Z.ltb_lt. exact H.
Qed.

(** The test [x <= 0] fails for a sum of two numbers it fails for,
    and for the sum of zero and one such number. *)
Lemma add_not_leb_0 (x y : float) :
  x = 0 \/ (x <=? 0) = false -> (y <=? 0) = false -> (x + y <=? 0) = false.
Proof.
  intros Hx Hy. apply not_leb_0 in Hy. destruct Hy as [Hy | Hy].
  { apply isNaN_nan in Hy. subst y. rewrite add_nan_r. apply leb_nan_l. }
  destruct Hx as [-> | Hx].
  { apply ltb_0_not_leb. apply add_pos; [reflexivity | exact Hy]. }
  apply not_leb_0 in Hx. destruct Hx as [Hx | Hx].
  - apply isNaN_nan in Hx. subst x. rewrite add_nan_l. apply leb_nan_l.
  - apply ltb_0_not_leb. apply add_pos; [apply ltb_leb, Hx | exact Hy].
Qed.

Lemma fold_add_not_leb_0 (l : list float) (a : float) :
  l <> [] ->
  Forall (fun s => (s <=? 0) = false) l ->
  a = 0 \/ (a <=? 0) = false ->
  (fold_left PrimFloat.add l a <=? 0) = false.
Proof.
  intros Hne Hall. revert a. induction Hall as [| s l Hs Hall IH];
    intros a Ha; [congruence|].
  cbn [fold_left].
  pose proof (add_not_leb_0 a s Ha Hs) as H1.
  destruct l as [| s' l]; [exact H1|].
  apply IH; [discriminate | right; exact H1].
Qed.

(** A counter that starts at zero and goes up by one is positive once
    it has gone up. *)
Lemma succ_pos (x : float) : (0 <=? x) = true -> (0 <? x + 1) = true.
Proof. intros H. apply add_pos; [exact H | reflexivity]. Qed.

End SumFacts.

(* ================================================================== *)
(** * Further facts on the ledger *)
(* ================================================================== *)

Module LedgerFacts.

Import MergeAllLenders.

(** The record of a ledger entry is what the accepted records of its
    address make of a record absent at first. *)
Lemma ledger_record (lenderData : LenderData) (convexData : ConvexData)
  (r : Rec) :
  In r (sorted lenderData convexData) ->
  exists r0,
    r = setPct convexData r0 /\
    fold_left (stepRec (pricePerShare convexData))
              (about (toLowerCase (address r0))
                     (events lenderData convexData)) None = Some r0.
Proof.
  intros H. apply In_sorted, In_values in H.
  destruct H as (r0 & Hget & ->). exists r0. split; [reflexivity|].
  rewrite <- get_ingested. exact Hget.
Qed.

Lemma sources_fold (price : float) (hist : list (Category * Holder))
  (r0 r : Rec) :
  fold_left (stepRec price) hist (Some r0) = Some r ->
  sources r = fold_left pushNew (map (fun e => name (fst e)) hist) (sources r0).
Proof.
  revert r0. induction hist as [| e hist IH]; intros r0 H;
    cbn [fold_left map] in *.
  - injection H as <-. reflexivity.
  - unfold stepRec at 2 in H. apply IH in H. rewrite H. reflexivity.
Qed.

Lemma sources_history (price : float) (hist : list (Category * Holder))
  (r : Rec) :
  fold_left (stepRec price) hist None = Some r ->
  sources r = fold_left pushNew (map (fun e => name (fst e)) hist) [].
Proof.
  destruct hist as [| e hist]; [discriminate|].
  cbn [fold_left map]. unfold stepRec at 2. intros H.
  apply sources_fold in H. rewrite H. reflexivity.
Qed.

Lemma pushNew_includes (acc : list string) (x : string) :
  arrayIncludes (pushNew acc x) x = true.
Proof.
  unfold pushNew. destruct (arrayIncludes acc x) eqn:E; [exact E|].
  apply arrayIncludes_In. apply in_or_app. right. left. reflexivity.
Qed.

Lemma pushNew_repeat {A : Type} (x : string) (l : list A) (acc : list string) :
  fold_left pushNew (map (fun _ => x) l) acc =
  match l with
  | [] => acc
  | _ :: _ => pushNew acc x
  end.
Proof.
  revert acc. induction l as [| a l IH]; intros acc; [reflexivity|].
  cbn [map fold_left]. rewrite IH. destruct l; [reflexivity|].
  unfold pushNew at 1. rewrite pushNew_includes. reflexivity.
Qed.

Lemma lastOf_some (c : Category) (evs : list (Category * Holder))
  (e : Category * Holder) :
  lastOf c evs = Some e -> In e evs /\ fst e = c.
Proof.
  induction evs as [| e0 evs IH]; [discriminate|].
  cbn [lastOf]. destruct (lastOf c evs) as [e' |].
  - intros [= <-]. destruct (IH eq_refl) as [H1 H2].
    split; [right; exact H1 | exact H2].
  - destruct (sameCategory (fst e0) c) eqn:E; [|discriminate].
    intros [= <-]. apply sameCategory_eq in E.
    split; [left; reflexivity | exact E].
Qed.

(** A record holds a position under a category exactly when an
    accepted record of that category carries its address. *)
Lemma held_history (price : float) (hist : list (Category * Holder))
  (r : Rec) (c : Category) :
  fold_left (stepRec price) hist None = Some r ->
  held c r = existsb (fun e => sameCategory (fst e) c) hist.
Proof.
  intros H. destruct (fold_stepRec_none _ _ _ H) as (e & rest & _ & Hf).
  destruct Hf as (_ & _ & _ & _ & Hp & _).
  unfold held. rewrite Hp.
  replace (position c (positions (blank (h_address (snd e))))) with
    (@None Position) by (destruct c; reflexivity).
  destruct (existsb (fun e0 => sameCategory (fst e0) c) hist) eqn:E.
  - apply existsb_exists in E. destruct E as ([c' h] & Hin & Hc).
    cbn [fst] in Hc. apply sameCategory_eq in Hc. subst c'.
    destruct (lastOf_In _ _ _ Hin) as (h' & -> & _). reflexivity.
  - destruct (lastOf c hist) as [e' |] eqn:El; [|reflexivity].
    apply lastOf_some in El. destruct El as [Hin Hc].
    assert (Ht : existsb (fun e0 => sameCategory (fst e0) c) hist = true).
    { apply existsb_exists. exists e'. split; [exact Hin|].
      apply sameCategory_eq. exact Hc. }
    congruence.
Qed.

Lemma existsb_tagged (c c' : Category) (l : list Holder) :
  existsb (fun e : Category * Holder => sameCategory (fst e) c)
          (map (pair c') l) =
  match l with
  | [] => false
  | _ :: _ => sameCategory c' c
  end.
Proof.
  induction l as [| h l IH]; [reflexivity|].
  cbn [map existsb fst]. rewrite IH.
  destruct (sameCategory c' c), l; reflexivity.
Qed.

(** The sources of a record are the categories it holds a position
    under, in the order of the loops, and there is one at least. *)
Lemma sources_held (lenderData : LenderData) (convexData : ConvexData)
  (r : Rec) :
  In r (sorted lenderData convexData) ->
  sources r = map name (filter (fun c => held c r) loopOrder) /\
  sources r <> [].
Proof.
  intros Hin. destruct (ledger_record _ _ _ Hin) as (r0 & -> & Hf).
  set (k := toLowerCase (address r0)) in *.
  pose proof (sources_history _ _ _ Hf) as Hs.
  pose proof (fun c => held_history _ _ _ c Hf) as Hh.
  assert (Hne : about k (events lenderData convexData) <> []).
  { intros E. rewrite E in Hf. discriminate. }
  rewrite about_events in Hs, Hh, Hne.
  unfold loopOrder. cbn [filter].
  change (held DirectVault (setPct convexData r0)) with (held DirectVault r0).
  change (held Convex (setPct convexData r0)) with (held Convex r0).
  change (held DirectGauge (setPct convexData r0)) with (held DirectGauge r0).
  cbn [setPct sources].
  rewrite (Hh DirectVault), (Hh Convex), (Hh DirectGauge), Hs.
  rewrite !map_app, !map_map, !existsb_app, !existsb_tagged, !fold_left_app.
  cbn [fst]. rewrite !pushNew_repeat.
  destruct (acceptedAbout lenderData convexData DirectVault k),
           (acceptedAbout lenderData convexData Convex k),
           (acceptedAbout lenderData convexData DirectGauge k);
    try (exfalso; apply Hne; reflexivity);
    split; (reflexivity || discriminate).
Qed.


Lemma listed_formatLender (c : Category) (r : Rec) (idx : nat) :
  listed c (formatLender r idx) = held c r.
Proof.
  unfold listed, held. destruct c; cbn [formatLender l_positions breakdownOf
    position]; destruct (positions r) as [[?|] [?|] [?|]]; reflexivity.
Qed.

(** Every term of a lender's totals fails the test [shares <= 0]. *)
Lemma history_not_dust (lenderData : LenderData) (convexData : ConvexData)
  (k : string) (e : Category * Holder) :
  In e (about k (events lenderData convexData)) ->
  (sharesOf e <=? 0) = false.
Proof.
  intros H. apply In_about_gen in H. destruct H as [H _].
  destruct e as [c h]. apply In_events in H. destruct H as [_ H].
  unfold accepted in H. apply andb_prop in H. destruct H as [H _].
  apply negb_true_iff in H. exact H.
Qed.

End LedgerFacts.

Import LedgerFacts.

(* ================================================================== *)
(** * Further properties of the position merger *)
(* ================================================================== *)

(** X1: in every line of the output the sources are exactly the
    categories the line shows a position under, listed in the order of
    the three loops (direct_vault, convex, direct_gauge) whatever the
    order of the values, and no line is without a source. *)
Theorem X1_sources_mirror_positions
  (lenderData : LenderData) (convexData : ConvexData) (now : string)
  (l : Lender) :
  In l (lenders (output lenderData convexData now)) ->
  l_sources l = map name (filter (fun c => listed c l) loopOrder) /\
  l_sources l <> [].
Proof.
  intros Hin. apply In_mapIdx in Hin. destruct Hin as (r & idx & Hr & ->).
  destruct (sources_held _ _ _ Hr) as [Hs Hne].
  split; [|exact Hne].
  cbn [formatLender l_sources]. rewrite Hs.
  unfold loopOrder. cbn [filter]. rewrite !listed_formatLender. reflexivity.
Qed.

Lemma X1_sources_mirror_positions_witness :
  exists l,
    In l (lenders (output c5_lenderData c5_convexData "t")) /\
    l_sources l = ["direct_vault"; "convex"] /\
    map (fun c => listed c l) loopOrder = [true; true; false] /\
    l_sources l = map name (filter (fun c => listed c l) loopOrder) /\
    l_sources l <> [].
Proof.
  eexists. split; [left; reflexivity|].
  split; [reflexivity|]. split; [reflexivity|].
  apply (X1_sources_mirror_positions c5_lenderData c5_convexData "t").
  left. reflexivity.
Defined.

(** X2: a lender whose address occurs at most once among the accepted
    records of each source has totals that are the sums over the
    positions it holds, whatever repetitions other addresses have. *)
Theorem X2_totals_are_sums_without_repeats
  (lenderData : LenderData) (convexData : ConvexData) (r : Rec) :
  In r (sorted lenderData convexData) ->
  (forall c,
     (List.length (acceptedAbout lenderData convexData c
                                 (toLowerCase (address r))) <= 1)%nat) ->
  conserved r.
Proof.
  intros Hin Hlen. destruct (ledger_record _ _ _ Hin) as (r0 & -> & Hf).
  cbn [setPct address] in Hlen.
  destruct (fold_stepRec_none _ _ _ Hf) as (e & rest & Hev & Hfo).
  destruct Hfo as (_ & _ & Hs & Hv & Hp & _).
  assert (Hne : about (toLowerCase (address r0))
                  (events lenderData convexData) <> [])
    by (rewrite Hev; discriminate).
  clear Hev Hf Hin. revert Hne Hs Hv Hp. rewrite about_events.
  pose proof (Hlen DirectVault) as L1.
  pose proof (Hlen Convex) as L2.
  pose proof (Hlen DirectGauge) as L3.
  destruct (acceptedAbout lenderData convexData DirectVault _)
    as [| h1 [| h1' l1]]; [| |cbn [List.length] in L1; lia];
  destruct (acceptedAbout lenderData convexData Convex _)
    as [| h2 [| h2' l2]]; try (cbn [List.length] in L2; lia);
  destruct (acceptedAbout lenderData convexData DirectGauge _)
    as [| h3 [| h3' l3]]; try (cbn [List.length] in L3; lia);
  cbn [map app fold_left]; intros Hne Hs Hv Hp;
    try (exfalso; apply Hne; reflexivity);
    pose proof (Hp DirectVault) as P1;
    pose proof (Hp Convex) as P2;
    pose proof (Hp DirectGauge) as P3;
    cbn [lastOf fst sameCategory position] in P1, P2, P3;
    unfold conserved, sumOver, present;
    cbn [setPct positions total_shares total_crvusd_value];
    rewrite P1, P2, P3, Hs, Hv; split; reflexivity.
Qed.

Lemma X2_totals_are_sums_without_repeats_witness :
  exists r,
    In r (sorted x2_lenderData x2_convexData) /\
    address r = "0xAbC0001" /\
    (total_shares r, sumOver shares r) = (14, 14) /\
    conserved r.
Proof.
  exists (hd (blank "") (sorted x2_lenderData x2_convexData)).
  split; [vm_compute; left; reflexivity|].
  split; [vm_compute; reflexivity|]. split; [vm_compute; reflexivity|].
  apply (X2_totals_are_sums_without_repeats x2_lenderData x2_convexData).
  - vm_compute. left. reflexivity.
  - intros c. destruct c; vm_compute; lia.
Defined.

(** X3: the test that skips a record, [shares <= 0], fails for the
    total shares of every record of the ledger and for the shares of
    every position it holds: each is positive or NaN, never zero or
    negative. *)
Theorem X3_no_dust_in_the_ledger
  (lenderData : LenderData) (convexData : ConvexData) (r : Rec) :
  In r (sorted lenderData convexData) ->
  (total_shares r <=? 0) = false /\
  forall c p, position c (positions r) = Some p -> (shares p <=? 0) = false.
Proof.
  intros Hin. destruct (ledger_record _ _ _ Hin) as (r0 & -> & Hf).
  destruct (fold_stepRec_none _ _ _ Hf) as (e & rest & Hev & Hfo).
  destruct Hfo as (_ & _ & Hs & _ & Hp & _).
  cbn [setPct total_shares positions]. split.
  - rewrite Hs. apply SumFacts.fold_add_not_leb_0.
    + rewrite Hev. discriminate.
    + apply Forall_forall. intros s Hs'. apply in_map_iff in Hs'.
      destruct Hs' as (e' & <- & He'). eapply history_not_dust. exact He'.
    + left. reflexivity.
  - intros c p Hc. rewrite Hp in Hc.
    destruct (lastOf c _) as [e' |] eqn:El.
    + injection Hc as <-. apply lastOf_some in El. destruct El as [He' _].
      cbn [positionOf shares]. eapply history_not_dust. exact He'.
    + destruct c; discriminate Hc.
Qed.

Lemma X3_no_dust_in_the_ledger_witness :
  exists r,
    In r (sorted c1_lenderData c1_convexData) /\
    address r = "0xBaD0001" /\
    Number.isNaN (total_shares r) = true /\
    (total_shares r <=? 0) = false /\
    forall c p, position c (positions r) = Some p -> (shares p <=? 0) = false.
Proof.
  eexists. split; [left; reflexivity|].
  split; [reflexivity|]. split; [reflexivity|].
  apply (X3_no_dust_in_the_ledger c1_lenderData c1_convexData).
  left. reflexivity.
Defined.

Lemma sorted_ext (ld ld' : LenderData) (cd : ConvexData) :
  ingested ld cd = ingested ld' cd -> sorted ld cd = sorted ld' cd.
Proof. intros H. unfold sorted, merged. rewrite H. reflexivity. Qed.

Lemma consoleSummary_ext (ld ld' : LenderData) (cd : ConvexData)
  (outPath : string) :
  sorted ld cd = sorted ld' cd ->
  consoleSummary ld cd outPath = consoleSummary ld' cd outPath.
Proof.
  intros H. unfold consoleSummary, formattedLenders, sourceCount,
    multiSourceCount, totalMergedShares, totalMergedCrvusd.
  rewrite H. reflexivity.
Qed.

(** X4: a direct-holder record of an excluded contract leaves no trace:
    the object written, the file and the console summary are those of
    a run on the input without the record. *)
Theorem X4_excluded_direct_holder_leaves_no_trace
  (lenderData : LenderData) (convexData : ConvexData) (now outPath : string)
  (h : Holder) (l1 l2 : list Holder) :
  ld_holders lenderData = l1 ++ h :: l2 ->
  arrayIncludes (EXCLUDED_CONTRACTS convexData)
                (toLowerCase (h_address h)) = true ->
  let without := fst (withSource DirectVault (l1 ++ l2)
                                 lenderData convexData) in
  output lenderData convexData now = output without convexData now /\
  written lenderData convexData now = written without convexData now /\
  consoleSummary lenderData convexData outPath =
    consoleSummary without convexData outPath.
Proof.
  intros Hsrc Hex. cbv zeta. cbn [withSource fst].
  assert (Hacc : accepted convexData DirectVault h = false).
  { unfold accepted. cbn [excluded]. rewrite Hex. apply andb_false_r. }
  assert (Hi : ingested lenderData convexData =
               ingested {| ld_holders := l1 ++ l2;
                           ld_timestamp := ld_timestamp lenderData |}
                        convexData).
  { rewrite !ingested_replay. f_equal. unfold events, tagged.
    cbn [source ld_holders]. rewrite Hsrc.
    rewrite (filter_skip _ l1 l2 h Hacc). reflexivity. }
  assert (Ho : output lenderData convexData now =
               output {| ld_holders := l1 ++ l2;
                         ld_timestamp := ld_timestamp lenderData |}
                      convexData now)
    by (apply output_ext; (exact Hi || reflexivity)).
  split; [exact Ho|]. split.
  - unfold written. rewrite Ho. reflexivity.
  - apply consoleSummary_ext, sorted_ext, Hi.
Qed.

Lemma X4_excluded_direct_holder_leaves_no_trace_witness :
  ld_holders x4_lenderData =
    [holder "0xAAa0001" "10"] ++ holder "0xGAUGE1" "100" ::
    [holder "0xBBb0002" "30"] /\
  arrayIncludes (EXCLUDED_CONTRACTS c1_convexData)
                (toLowerCase "0xGAUGE1") = true /\
  output x4_lenderData c1_convexData "t" =
    output (sampleLenderData [holder "0xAAa0001" "10"; holder "0xBBb0002" "30"])
           c1_convexData "t".
Proof.
  split; [reflexivity|]. split; [reflexivity|].
  apply (X4_excluded_direct_holder_leaves_no_trace
           x4_lenderData c1_convexData "t" "all_lenders.json"
           (holder "0xGAUGE1" "100")
           [holder "0xAAa0001" "10"] [holder "0xBBb0002" "30"]);
    reflexivity.
Defined.

Lemma filter_none {A : Type} (p : A -> bool) (l : list A) :
  (forall x, In x l -> p x = false) -> filter p l = [].
Proof.
  induction l as [| x l IH]; intros H; [reflexivity|].
  cbn [filter]. rewrite (H x (or_introl eq_refl)).
  apply IH. intros y Hy. apply H. right. exact Hy.
Qed.

(** X5: when every record of the three sources is skipped (the sources
    may be empty), the output lists no lender, every count is 0, the
    tracked totals and the totals by source print as zero, and the
    coverage is that of zero shares: ["0.00"] for a positive total
    supply, ["NaN"] for a total supply of zero. *)
Theorem X5_nothing_accepted
  (lenderData : LenderData) (convexData : ConvexData) (now : string) :
  (forall c h, In h (source lenderData convexData c) ->
               accepted convexData c h = false) ->
  lenders (output lenderData convexData now) = [] /\
  summary (output lenderData convexData now) =
    {| unique_lenders := 0;
       multi_source_lenders := 0;
       total_tracked_shares := "0.000000000000000000";
       total_tracked_crvusd := "0.000000";
       coverage_pct := toFixed ((0 / totalVaultShares convexData) * 100) 2;
       by_direct_vault := {| ss_count := 0; ss_total_crvusd := "0.000000" |};
       by_convex := {| ss_count := 0; ss_total_crvusd := "0.000000" |};
       by_direct_gauge :=
         {| ss_count := 0; ss_total_crvusd := "0.000000" |} |}.
Proof.
  intros Hskip.
  assert (Hs : sorted lenderData convexData = []).
  { unfold sorted, merged. rewrite ingested_replay.
    unfold events, tagged. rewrite !filter_none by (apply Hskip).
    reflexivity. }
  cbn [output lenders summary].
  unfold formattedLenders, multiSourceCount, totalMergedShares,
    totalMergedCrvusd, sourceSummary.
  rewrite Hs. split; reflexivity.
Qed.

Lemma X5_nothing_accepted_witness :
  lenders (output x5_lenderData x5_convexData "t") = [] /\
  coverage_pct (summary (output x5_lenderData x5_convexData "t")) = "0.00" /\
  coverage_pct (summary (output (sampleLenderData [])
                                (sampleConvexData "2.0" "0" [] []) "t")) =
    "NaN".
Proof.
  assert (Hskip : forall c h, In h (source x5_lenderData x5_convexData c) ->
                              accepted x5_convexData c h = false).
  { intros c h Hin. destruct c; cbn in Hin;
      repeat (destruct Hin as [<- | Hin]; [reflexivity|]); destruct Hin. }
  destruct (X5_nothing_accepted x5_lenderData x5_convexData "t" Hskip)
    as (Hl & Hsum).
  split; [exact Hl|]. split; [rewrite Hsum; reflexivity|].
  destruct (X5_nothing_accepted (sampleLenderData [])
              (sampleConvexData "2.0" "0" [] []) "t") as (_ & Hsum').
  { intros c h Hin. destruct c; destruct Hin. }
  rewrite Hsum'. reflexivity.
Defined.







(** X7: the console summary prints the figures of the file written:
    thirteen lines of counts and totals, one line for each of the
    first ten lenders in rank order, and two closing lines.  On every
    lender line the bracket holds the sources joined by [+], the two
    branches of the tag agreeing because no lender is without a
    source, so that [undefined] is never printed. *)
Theorem X7_console_summary
  (lenderData : LenderData) (convexData : ConvexData) (now outPath : string) :
  let out := output lenderData convexData now in
  let s := summary out in
  consoleSummary lenderData convexData outPath =
    [ "=== ALL LENDERS MERGED ===";
      ("Unique addresses:       " ++ showLength (unique_lenders s))%string;
      ("Multi-source holders:   " ++
       showLength (multi_source_lenders s))%string;
      ("Total tracked crvUSD:   " ++ total_tracked_crvusd s)%string;
      ("Vault total crvUSD:     " ++ v_total_assets_crvusd (vault out))%string;
      ("Coverage:               " ++ coverage_pct s ++ "%")%string;
      "";
      "Per-source breakdown:";
      ("  direct_vault:  " ++ showLength (ss_count (by_direct_vault s)) ++
       " addresses")%string;
      ("  convex:        " ++ showLength (ss_count (by_convex s)) ++
       " addresses")%string;
      ("  direct_gauge:  " ++ showLength (ss_count (by_direct_gauge s)) ++
       " addresses")%string;
      "";
      "Top 10 lenders by total crvUSD value:" ] ++
    map topLine (firstn 10 (lenders out)) ++
    [ ""; ("Written to: " ++ outPath)%string ] /\
  List.length (consoleSummary lenderData convexData outPath) =
    (15 + Nat.min 10 (unique_lenders s))%nat /\
  forall l,
    In l (lenders out) ->
    srcTag l = (" [" ++ String.concat "+" (l_sources l) ++ "]")%string /\
    In (firstSource l) ["direct_vault"; "convex"; "direct_gauge"].
Proof.
  cbv zeta. split; [reflexivity|].
  cbn [output summary lenders unique_lenders]. split.
  - unfold consoleSummary. rewrite !length_app, length_map, length_firstn.
    unfold formattedLenders. rewrite mapIdx_length. cbn [List.length]. lia.
  - intros l Hin. apply In_mapIdx in Hin. destruct Hin as (r & idx & Hr & ->).
    destruct (sources_held _ _ _ Hr) as [Hs Hne].
    unfold srcTag, firstSource. cbn [formatLender l_sources].
    unfold loopOrder in Hs. cbn [filter] in Hs.
    destruct (held DirectVault r), (held Convex r), (held DirectGauge r);
      cbn [map name] in Hs; rewrite Hs in *;
      try (exfalso; apply Hne; reflexivity);
      split; (reflexivity || (cbn; tauto)).
Qed.

Lemma X7_console_summary_witness :
  exists l,
    In l (lenders (output c5_lenderData c5_convexData "t")) /\
    topLine l =
      "  #1  0xAAA  300.000000 crvUSD  (100.00%) [direct_vault+convex]" /\
    srcTag l = (" [" ++ String.concat "+" (l_sources l) ++ "]")%string /\
    In (firstSource l) ["direct_vault"; "convex"; "direct_gauge"].
Proof.
  eexists. split; [left; reflexivity|]. split; [reflexivity|].
  apply (X7_console_summary c5_lenderData c5_convexData "t" "all_lenders.json").
  left. reflexivity.
Defined.

(** X8: the line of a lender depends on the accepted records of its
    own address and on the vault state only: in a run on other input
    files with the same vault state and the same accepted records of
    that address, the ledger holds the same record, and the output the
    same line up to its rank. *)
Theorem X8_other_addresses_leave_a_lender_alone
  (lenderData lenderData' : LenderData) (convexData convexData' : ConvexData)
  (now : string) (r : Rec) :
  cd_vault_state convexData = cd_vault_state convexData' ->
  In r (sorted lenderData convexData) ->
  about (toLowerCase (address r)) (events lenderData convexData) =
    about (toLowerCase (address r)) (events lenderData' convexData') ->
  In r (sorted lenderData' convexData') /\
  exists idx idx',
    In (formatLender r idx) (lenders (output lenderData convexData now)) /\
    In (formatLender r idx') (lenders (output lenderData' convexData' now)).
Proof.
  intros Hv Hin Hev.
  assert (Hin' : In r (sorted lenderData' convexData')).
  { destruct (ledger_record _ _ _ Hin) as (r0 & -> & Hf).
    cbn [setPct address] in Hev.
    apply In_sorted, In_values. exists r0. split.
    - rewrite get_ingested. rewrite <- Hev.
      unfold pricePerShare in *. rewrite <- Hv. exact Hf.
    - unfold setPct, totalVaultShares. rewrite Hv. reflexivity. }
  split; [exact Hin'|].
  destruct (mapIdx_In formatLender _ 0%nat _ Hin) as (idx & Hidx).
  destruct (mapIdx_In formatLender _ 0%nat _ Hin') as (idx' & Hidx').
  exists idx, idx'. split; assumption.
Qed.

Lemma X8_other_addresses_leave_a_lender_alone_witness :
  exists r,
    In r (sorted c3_lenderData c3_convexData) /\
    address r = "0xBBb0002" /\
    In r (sorted (sampleLenderData [holder "0xBBb0002" "30"])
                 (sampleConvexData "2.0" "150" [] [])).
Proof.
  exists (hd (blank "") (sorted c3_lenderData c3_convexData)).
  split; [vm_compute; left; reflexivity|].
  split; [vm_compute; reflexivity|].
  apply (X8_other_addresses_leave_a_lender_alone
           c3_lenderData (sampleLenderData [holder "0xBBb0002" "30"])
           c3_convexData (sampleConvexData "2.0" "150" [] []) "t").
  - reflexivity.
  - vm_compute. left. reflexivity.
  - vm_compute. reflexivity.
Defined.

(* ================================================================== *)
(** * Facts on the order of strings *)
(* ================================================================== *)

Module StringFacts.

Local Open Scope string_scope.

Lemma str_compare_refl (s : string) : (s ?= s) = Eq.
Proof.
  induction s as [| a s IH]; [reflexivity|].
  cbn [String.compare]. unfold Ascii.compare. rewrite N.compare_refl.
  exact IH.
Qed.

Lemma str_compare_lt_trans (s1 s2 s3 : string) :
  (s1 ?= s2) = Lt -> (s2 ?= s3) = Lt -> (s1 ?= s3) = Lt.
Proof.
  revert s2 s3. induction s1 as [| a s1 IH]; intros [| b s2] [| c s3];
    cbn [String.compare]; try discriminate; try reflexivity.
  unfold Ascii.compare.
  destruct (N.compare_spec (N_of_ascii a) (N_of_ascii b)) as [E1 | E1 | E1],
           (N.compare_spec (N_of_ascii b) (N_of_ascii c)) as [E2 | E2 | E2],
           (N.compare_spec (N_of_ascii a) (N_of_ascii c)) as [E3 | E3 | E3];
    try discriminate; try lia; try reflexivity.
  apply IH.
Qed.

Lemma str_ltb_lt (s t : string) : (s <? t) = true <-> (s ?= t) = Lt.
Proof. unfold String.ltb. destruct (s ?= t); split; congruence. Qed.

Lemma str_leb_cases (s t : string) :
  (s <=? t) = true <-> (s ?= t) = Lt \/ s = t.
Proof.
  unfold String.leb. destruct (s ?= t) eqn:E; split; intros H;
    try discriminate; try reflexivity.
  - right. apply String.compare_eq_iff. exact E.
  - left. reflexivity.
  - destruct H as [H | ->]; [discriminate|].
    rewrite str_compare_refl in E. discriminate.
Qed.

Lemma str_leb_refl (s : string) : (s <=? s) = true.
Proof. apply str_leb_cases. right. reflexivity. Qed.

Lemma str_ltb_leb_trans (a b c : string) :
  (a <? b) = true -> (b <=? c) = true -> (a <=? c) = true.
Proof.
  intros H1 H2. apply str_ltb_lt in H1. apply str_leb_cases in H2.
  apply str_leb_cases. left. destruct H2 as [H2 | <-]; [|exact H1].
  eapply str_compare_lt_trans; eassumption.
Qed.

Lemma str_leb_ltb_trans (a b c : string) :
  (a <=? b) = true -> (b <? c) = true -> (a <=? c) = true.
Proof.
  intros H1 H2. apply str_ltb_lt in H2. apply str_leb_cases in H1.
  apply str_leb_cases. left. destruct H1 as [H1 | ->]; [|exact H2].
  eapply str_compare_lt_trans; eassumption.
Qed.

Lemma str_ltb_false_leb (a b : string) : (a <? b) = false -> (b <=? a) = true.
Proof.
  unfold String.ltb, String.leb. rewrite (String.compare_antisym a b).
  destruct (b ?= a); cbn [CompOpp]; congruence.
Qed.

End StringFacts.

(* ================================================================== *)
(** * Facts on the borrower summary *)
(* ================================================================== *)

Module SummaryFacts.

Import AnalyzeSelectors.

(** ** A run of the loop that completes *)

Lemma run_Normal (events : list Event) (st st' : State) :
  run events st = Normal st' ->
  st' = fold_left turn events st /\
  Forall (fun e => classificationOf e = Some (labelOf e)) events.
Proof.
  revert st. induction events as [| e events IH]; intros st H; cbn [run] in H.
  - injection H as <-. split; [reflexivity | constructor].
  - destruct (step st e) as [st1 | printed] eqn:E; [|discriminate].
    apply step_Normal in E. destruct E as (-> & Hc & _).
    destruct (IH _ H) as [-> Hall].
    split; [reflexivity | constructor; assumption].
Qed.

Lemma classifyAll_Normal (events : list Event) (st : State) :
  classifyAll events = Normal st ->
  st = fold_left turn events start /\
  Forall (fun e => classificationOf e = Some (labelOf e)) events.
Proof. apply run_Normal. Qed.

Lemma analysisOutput_Normal (events : list Event) (now : string)
  (out : AnalysisOutput) :
  analysisOutput events now = Normal out ->
  exists st,
    classifyAll events = Normal st /\
    borrower_summaries out = sortedBorrowers st /\
    sam_combined out = samCombined st /\
    leverage_usage out = leverageUsage st.
Proof.
  unfold analysisOutput. destruct (classifyAll events) as [st | printed];
    [|discriminate].
  intros [= <-]. exists st. repeat split.
Qed.

(** ** The borrower of a user *)

Lemma own_mutate_other (k k' : string) (f : Borrower -> Borrower)
  (obj : list (string * Borrower)) :
  k <> k' -> own k (mutate k' f obj) = own k obj.
Proof.
  intros Hne. unfold mutate. induction obj as [| [k0 b] obj IH]; [reflexivity|].
  cbn [map fst snd own].
  destruct (String.eqb k0 k') eqn:E'; cbn [own].
  - apply String.eqb_eq in E'. subst k0.
    destruct (String.eqb k' k) eqn:E.
    + apply String.eqb_eq in E. congruence.
    + exact IH.
  - destruct (String.eqb k0 k); [reflexivity | exact IH].
Qed.

Lemma own_app_other (k k' : string) (b : Borrower)
  (obj : list (string * Borrower)) :
  k' <> k -> own k (obj ++ [(k', b)]) = own k obj.
Proof.
  intros Hne. induction obj as [| [k0 b0] obj IH]; cbn [app own].
  - destruct (String.eqb k' k) eqn:E; [|reflexivity].
    apply String.eqb_eq in E. congruence.
  - destruct (String.eqb k0 k); [reflexivity | exact IH].
Qed.

Lemma own_turn (u : string) (st : State) (e : Event) :
  own u (borrowerSummary (turn st e)) =
  if String.eqb (user e) u
  then stepBorrower (own u (borrowerSummary st)) e
  else own u (borrowerSummary st).
Proof.
  destruct (String.eqb (user e) u) eqn:E.
  - apply String.eqb_eq in E. subst u. apply turn_borrower.
  - assert (Hne : u <> user e).
    { intros ->. rewrite String.eqb_refl in E. discriminate. }
    unfold turn. cbn [borrowerSummary].
    rewrite own_mutate_other by exact Hne.
    destruct (own (user e) (borrowerSummary st)); [reflexivity|].
    apply own_app_other. congruence.
Qed.

Lemma own_fold (u : string) (events : list Event) (st : State) :
  own u (borrowerSummary (fold_left turn events st)) =
  fold_left stepBorrower (eventsOf u events) (own u (borrowerSummary st)).
Proof.
  revert st. induction events as [| e events IH]; intros st; [reflexivity|].
  cbn [fold_left eventsOf filter]. rewrite IH, own_turn.
  fold (eventsOf u events). destruct (String.eqb (user e) u); reflexivity.
Qed.

Lemma stepBorrower_some (es : list Event) (b0 : Borrower) :
  fold_left stepBorrower es (Some b0) = Some (tallyAll es b0).
Proof.
  revert b0. induction es as [| e es IH]; intros b0; [reflexivity|].
  cbn [fold_left tallyAll]. unfold stepBorrower at 2. rewrite IH. reflexivity.
Qed.

(** The borrower of a user is the tally of the events of that user, in
    order, on the fresh borrower of the first. *)
Lemma own_classify (u : string) (events : list Event) :
  own u (borrowerSummary (fold_left turn events start)) =
  match eventsOf u events with
  | [] => None
  | e :: rest => Some (tallyAll rest (tally (labelOf e) e (fresh e)))
  end.
Proof.
  rewrite own_fold. cbn [start borrowerSummary own].
  destruct (eventsOf u events) as [| e rest]; [reflexivity|].
  cbn [fold_left]. unfold stepBorrower at 2. apply stepBorrower_some.
Qed.

Lemma tallyAll_snoc (es : list Event) (e : Event) (b0 : Borrower) :
  tallyAll (es ++ [e]) b0 = tally (labelOf e) e (tallyAll es b0).
Proof. unfold tallyAll. rewrite fold_left_app. reflexivity. Qed.

Lemma tallyAll_ind (R : list Event -> Borrower -> Prop) (b0 : Borrower) :
  R [] b0 ->
  (forall es e b, R es b -> R (es ++ [e]) (tally (labelOf e) e b)) ->
  forall es, R es (tallyAll es b0).
Proof.
  intros H0 Hstep es. induction es as [| e es IH] using rev_ind.
  - exact H0.
  - rewrite tallyAll_snoc. apply Hstep, IH.
Qed.

Lemma tallyAll_entries (es : list Event) (b0 : Borrower) :
  b_address (tallyAll es b0) = b_address b0 /\
  b_events (tallyAll es b0) =
    b_events b0 ++ map (fun e => entryWith (labelOf e) e) es /\
  b_isSam (tallyAll es b0) = b_isSam b0 /\
  b_samWallet (tallyAll es b0) = b_samWallet b0.
Proof.
  apply (tallyAll_ind
           (fun es b => b_address b = b_address b0 /\
                        b_events b =
                          b_events b0 ++
                          map (fun e => entryWith (labelOf e) e) es /\
                        b_isSam b = b_isSam b0 /\
                        b_samWallet b = b_samWallet b0)).
  - cbn [map]. rewrite app_nil_r. repeat split.
  - intros es' e b (H1 & H2 & H3 & H4).
    cbn [tally b_address b_events b_isSam b_samWallet].
    rewrite map_app, app_assoc, H2. repeat split; assumption.
Qed.

Lemma entryOf_labelled (es : list Event) :
  Forall (fun e => classificationOf e = Some (labelOf e)) es ->
  map Some (map (fun e => entryWith (labelOf e) e) es) = map entryOf es.
Proof.
  intros H. rewrite map_map. apply map_ext_in. intros e He.
  rewrite Forall_forall in H. unfold entryOf. rewrite (H e He). reflexivity.
Qed.

Lemma eventsOf_user (u : string) (events : list Event) (e : Event) :
  In e (eventsOf u events) <-> In e events /\ user e = u.
Proof. unfold eventsOf. rewrite filter_In, String.eqb_eq. reflexivity. Qed.

(** The borrower of a user with an event *)
Lemma borrower_of_user (u : string) (events : list Event) (e : Event)
  (rest : list Event) :
  Forall (fun e => classificationOf e = Some (labelOf e)) events ->
  eventsOf u events = e :: rest ->
  exists b,
    own u (borrowerSummary (fold_left turn events start)) = Some b /\
    b_address b = u /\
    map Some (b_events b) = map entryOf (eventsOf u events) /\
    b_isSam b = isSam e /\ b_samWallet b = samWallet e.
Proof.
  intros Hall E. rewrite own_classify, E. eexists. split; [reflexivity|].
  assert (He : user e = u).
  { apply (eventsOf_user u events e). rewrite E. left. reflexivity. }
  assert (Hall' : Forall (fun e => classificationOf e = Some (labelOf e))
                         (e :: rest)).
  { rewrite <- E. apply Forall_forall. intros x Hx.
    apply eventsOf_user in Hx. destruct Hx as [Hx _].
    rewrite Forall_forall in Hall. apply Hall, Hx. }
  change (tallyAll rest (tally (labelOf e) e (fresh e)))
    with (tallyAll (e :: rest) (fresh e)).
  destruct (tallyAll_entries (e :: rest) (fresh e)) as (H1 & H2 & H3 & H4).
  rewrite H1, H2, H3, H4.
  cbn [fresh b_address b_events b_isSam b_samWallet app].
  rewrite (entryOf_labelled _ Hall'). repeat split. exact He.
Qed.

Lemma own_In_keys {V : Type} (k : string) (obj : list (string * V)) (v : V) :
  own k obj = Some v -> In k (map fst obj).
Proof.
  induction obj as [| [k0 v0] obj IH]; [discriminate|].
  cbn [own map fst]. destruct (String.eqb_spec k0 k) as [-> | _].
  - intros _. left. reflexivity.
  - intros H. right. apply IH, H.
Qed.

(** ** First and last borrow *)

Lemma unset_some (t : string) : t <> "" -> unset (Some t) = false.
Proof. destruct t; [congruence | reflexivity]. Qed.

Lemma first_borrow_least (es : list Event) (b0 : Borrower) :
  firstBorrow b0 = None ->
  (forall e, In e es -> timestamp e <> "") ->
  match firstBorrow (tallyAll es b0) with
  | None => es = []
  | Some first =>
      In first (map timestamp es) /\
      forall e, In e es -> (first <=? timestamp e)%string = true
  end.
Proof.
  intros H0.
  apply (tallyAll_ind
           (fun es b =>
              (forall e, In e es -> timestamp e <> "") ->
              match firstBorrow b with
              | None => es = []
              | Some first =>
                  In first (map timestamp es) /\
                  forall e, In e es -> (first <=? timestamp e)%string = true
              end)).
  - intros _. rewrite H0. reflexivity.
  - intros es' e b IH Hne.
    specialize (IH (fun e' He' => Hne e' (in_or_app _ _ _ (or_introl He')))).
    cbn [tally firstBorrow].
    destruct (firstBorrow b) as [first |].
    + destruct IH as [Hin Hle].
      assert (Hf : first <> "").
      { apply in_map_iff in Hin. destruct Hin as (e1 & <- & He1).
        apply Hne. apply in_or_app. left. exact He1. }
      rewrite (unset_some _ Hf). cbn [orb before].
      destruct (timestamp e <? first)%string eqn:El.
      * split.
        -- rewrite map_app. apply in_or_app. right. left. reflexivity.
        -- intros e' He'. apply in_app_or in He'.
           destruct He' as [He' | [<- | []]].
           ++ eapply StringFacts.str_ltb_leb_trans;
                [exact El | apply Hle, He'].
           ++ apply StringFacts.str_leb_refl.
      * split.
        -- rewrite map_app. apply in_or_app. left. exact Hin.
        -- intros e' He'. apply in_app_or in He'.
           destruct He' as [He' | [<- | []]].
           ++ apply Hle, He'.
           ++ apply StringFacts.str_ltb_false_leb, El.
    + subst es'. cbn [unset orb app map]. split; [left; reflexivity|].
      intros e' [<- | []]. apply StringFacts.str_leb_refl.
Qed.

Lemma last_borrow_greatest (es : list Event) (b0 : Borrower) :
  lastBorrow b0 = None ->
  (forall e, In e es -> timestamp e <> "") ->
  match lastBorrow (tallyAll es b0) with
  | None => es = []
  | Some last =>
      In last (map timestamp es) /\
      forall e, In e es -> (timestamp e <=? last)%string = true
  end.
Proof.
  intros H0.
  apply (tallyAll_ind
           (fun es b =>
              (forall e, In e es -> timestamp e <> "") ->
              match lastBorrow b with
              | None => es = []
              | Some last =>
                  In last (map timestamp es) /\
                  forall e, In e es -> (timestamp e <=? last)%string = true
              end)).
  - intros _. rewrite H0. reflexivity.
  - intros es' e b IH Hne.
    specialize (IH (fun e' He' => Hne e' (in_or_app _ _ _ (or_introl He')))).
    cbn [tally lastBorrow].
    destruct (lastBorrow b) as [last |].
    + destruct IH as [Hin Hle].
      assert (Hf : last <> "").
      { apply in_map_iff in Hin. destruct Hin as (e1 & <- & He1).
        apply Hne. apply in_or_app. left. exact He1. }
      rewrite (unset_some _ Hf). cbn [orb].
      destruct (last <? timestamp e)%string eqn:El.
      * split.
        -- rewrite map_app. apply in_or_app. right. left. reflexivity.
        -- intros e' He'. apply in_app_or in He'.
           destruct He' as [He' | [<- | []]].
           ++ eapply StringFacts.str_leb_ltb_trans;
                [apply Hle, He' | exact El].
           ++ apply StringFacts.str_leb_refl.
      * split.
        -- rewrite map_app. apply in_or_app. left. exact Hin.
        -- intros e' He'. apply in_app_or in He'.
           destruct He' as [He' | [<- | []]].
           ++ apply Hle, He'.
           ++ apply StringFacts.str_ltb_false_leb, El.
    + subst es'. cbn [unset orb app map]. split; [left; reflexivity|].
      intros e' [<- | []]. apply StringFacts.str_leb_refl.
Qed.

(** ** Invariants of the borrowers *)

(** What holds of a fresh borrower and is kept by every tally holds of
    every borrower of the summary. *)
Lemma classify_Forall (P : Borrower -> Prop) (events : list Event)
  (st : State) :
  (forall e, P (fresh e)) ->
  (forall c e b, P b -> P (tally c e b)) ->
  Forall (fun kb => P (snd kb)) (borrowerSummary st) ->
  Forall (fun kb => P (snd kb)) (borrowerSummary (fold_left turn events st)).
Proof.
  intros Hfresh Htally. revert st.
  induction events as [| e events IH]; intros st Hst; [exact Hst|].
  cbn [fold_left]. apply IH. unfold turn. cbn [borrowerSummary].
  unfold mutate. apply Forall_map.
  assert (Hall : Forall (fun kb : string * Borrower => P (snd kb))
                   match own (user e) (borrowerSummary st) with
                   | Some _ => borrowerSummary st
                   | None => borrowerSummary st ++ [(user e, fresh e)]
                   end).
  { destruct (own _ _); [exact Hst|].
    apply Forall_app. split; [exact Hst|].
    constructor; [apply Hfresh | constructor]. }
  apply Forall_impl with (2 := Hall). intros [k b] Hb. cbn [fst snd] in *.
  destruct (String.eqb k (user e)); cbn [snd]; [apply Htally|]; exact Hb.
Qed.

(** ** The order of [Object.keys] and [Object.values] *)

Lemma insertIndexed_perm {V : Type} (n : N) (e : string * V)
  (l : list (N * (string * V))) :
  Permutation (insertIndexed n e l) ((n, e) :: l).
Proof.
  induction l as [| [m e'] l IH]; cbn [insertIndexed]; [reflexivity|].
  destruct (n <? m)%N; [reflexivity|].
  rewrite IH. apply perm_swap.
Qed.

Lemma indexed_perm {V : Type} (obj : list (string * V)) :
  Permutation (map snd (indexed obj))
              (filter (fun e => isArrayIndex (fst e)) obj).
Proof.
  induction obj as [| e obj IH]; [reflexivity|].
  cbn [indexed fold_right filter]. fold (indexed obj). unfold isArrayIndex at 1.
  destruct (arrayIndex (fst e)) as [n |]; [|exact IH].
  rewrite insertIndexed_perm. cbn [map snd]. constructor. exact IH.
Qed.

Lemma filter_split_perm {A : Type} (p : A -> bool) (l : list A) :
  Permutation (filter p l ++ filter (fun x => negb (p x)) l) l.
Proof.
  induction l as [| x l IH]; [reflexivity|].
  cbn [filter]. destruct (p x); cbn [negb app].
  - constructor. exact IH.
  - symmetry. apply Permutation_cons_app. symmetry. exact IH.
Qed.

Lemma ownProperties_perm {V : Type} (obj : list (string * V)) :
  Permutation (ownProperties obj) obj.
Proof.
  unfold ownProperties. rewrite indexed_perm.
  apply (filter_split_perm (fun e => isArrayIndex (fst e))).
Qed.

Lemma objectValues_perm {V : Type} (obj : list (string * V)) :
  Permutation (objectValues obj) (map snd obj).
Proof. apply Permutation_map, ownProperties_perm. Qed.

Lemma objectKeys_perm {V : Type} (obj : list (string * V)) :
  Permutation (objectKeys obj) (map fst obj).
Proof. apply Permutation_map, ownProperties_perm. Qed.

Lemma filter_all {A : Type} (p : A -> bool) (l : list A) :
  (forall x, In x l -> p x = true) -> filter p l = l.
Proof.
  induction l as [| x l IH]; intros H; [reflexivity|].
  cbn [filter]. rewrite (H x (or_introl eq_refl)). f_equal.
  apply IH. intros y Hy. apply H. right. exact Hy.
Qed.

(** An object none of whose keys is an array index is listed in order
    of creation. *)
Lemma ownProperties_plain {V : Type} (obj : list (string * V)) :
  (forall k, In k (map fst obj) -> isArrayIndex k = false) ->
  ownProperties obj = obj.
Proof.
  intros H. unfold ownProperties.
  assert (Hi : indexed obj = []).
  { induction obj as [| e obj IH]; [reflexivity|].
    cbn [indexed fold_right]. fold (indexed obj).
    pose proof (H (fst e) (or_introl eq_refl)) as He.
    unfold isArrayIndex in He. destruct (arrayIndex (fst e)); [discriminate|].
    apply IH. intros k Hk. apply H. right. exact Hk. }
  rewrite Hi. cbn [map app]. apply filter_all. intros e He.
  rewrite H; [reflexivity|]. apply in_map. exact He.
Qed.

Lemma insertIndexed_sorted {V : Type} (n : N) (e : string * V)
  (l : list (N * (string * V))) :
  StronglySorted (fun a b => (fst a <= fst b)%N) l ->
  StronglySorted (fun a b => (fst a <= fst b)%N) (insertIndexed n e l).
Proof.
  intros Hs. induction Hs as [| [m e'] l Hs IH Hall]; cbn [insertIndexed].
  - repeat constructor.
  - destruct (n <? m)%N eqn:E.
    + apply N.ltb_lt in E. constructor; [constructor; assumption|].
      constructor; [cbn [fst]; lia|].
      apply Forall_impl with (2 := Hall). intros a Ha. cbn [fst] in *. lia.
    + apply N.ltb_ge in E. constructor; [exact IH|].
      apply Forall_forall. intros a Ha.
      apply (Permutation_in _ (insertIndexed_perm n e l)) in Ha.
      destruct Ha as [<- | Ha]; [cbn [fst]; exact E|].
      rewrite Forall_forall in Hall. apply Hall, Ha.
Qed.

Lemma indexed_sorted {V : Type} (obj : list (string * V)) :
  StronglySorted (fun a b => (fst a <= fst b)%N) (indexed obj).
Proof.
  induction obj as [| e obj IH]; [constructor|].
  cbn [indexed fold_right]. fold (indexed obj).
  destruct (arrayIndex (fst e)); [apply insertIndexed_sorted|]; exact IH.
Qed.

Lemma indexed_index {V : Type} (obj : list (string * V)) :
  Forall (fun a => arrayIndex (fst (snd a)) = Some (fst a)) (indexed obj).
Proof.
  induction obj as [| e obj IH]; [constructor|].
  cbn [indexed fold_right]. fold (indexed obj).
  destruct (arrayIndex (fst e)) as [n |] eqn:E; [|exact IH].
  apply Forall_forall. intros a Ha.
  apply (Permutation_in _ (insertIndexed_perm n e (indexed obj))) in Ha.
  destruct Ha as [<- | Ha]; [exact E|].
  rewrite Forall_forall in IH. apply IH, Ha.
Qed.

Lemma sorted_map {A B : Type} (R : A -> A -> Prop) (R' : B -> B -> Prop)
  (f : A -> B) (l : list A) :
  (forall a b, In a l -> In b l -> R a b -> R' (f a) (f b)) ->
  StronglySorted R l -> StronglySorted R' (map f l).
Proof.
  intros H Hs. induction Hs as [| a l Hs IH Hall]; [constructor|].
  cbn [map]. constructor.
  - apply IH. intros x y Hx Hy. apply H; right; assumption.
  - apply Forall_map. rewrite Forall_forall in *. intros b Hb.
    apply H; [left; reflexivity | right; exact Hb | apply Hall, Hb].
Qed.

Lemma map_fst_filter {V : Type} (p : string -> bool)
  (obj : list (string * V)) :
  map fst (filter (fun e => p (fst e)) obj) = filter p (map fst obj).
Proof.
  induction obj as [| e obj IH]; [reflexivity|].
  cbn [filter map]. destruct (p (fst e)); cbn [map]; rewrite IH; reflexivity.
Qed.

(** The keys listed: the array indices in ascending order, then the
    other keys in order of creation. *)
Lemma objectKeys_order {V : Type} (obj : list (string * V)) :
  exists idx,
    objectKeys obj =
      idx ++ filter (fun k => negb (isArrayIndex k)) (map fst obj) /\
    Permutation idx (filter isArrayIndex (map fst obj)) /\
    StronglySorted indexLe idx.
Proof.
  exists (map fst (map snd (indexed obj))). split; [|split].
  - unfold objectKeys, ownProperties. rewrite map_app.
    rewrite (map_fst_filter (fun k => negb (isArrayIndex k))). reflexivity.
  - rewrite <- (map_fst_filter isArrayIndex). apply Permutation_map.
    apply indexed_perm.
  - rewrite map_map.
    apply sorted_map with (R := fun a b => (fst a <= fst b)%N);
      [|apply indexed_sorted].
    intros a b Ha Hb Hle. unfold indexLe.
    pose proof (indexed_index obj) as Hi. rewrite Forall_forall in Hi.
    rewrite (Hi a Ha), (Hi b Hb). exact Hle.
Qed.

Lemma sortedBorrowers_In (st : State) (b : Borrower) :
  In b (sortedBorrowers st) <-> In b (map snd (borrowerSummary st)).
Proof.
  unfold sortedBorrowers.
  assert (Hp : Permutation
                 (sort byBorrowedDesc (objectValues (borrowerSummary st)))
                 (map snd (borrowerSummary st))).
  { rewrite sort_perm. apply objectValues_perm. }
  split; apply Permutation_in; [|symmetry]; exact Hp.
Qed.

Lemma sortedBorrowers_Forall (P : Borrower -> Prop) (events : list Event) :
  (forall e, P (fresh e)) ->
  (forall c e b, P b -> P (tally c e b)) ->
  Forall P (sortedBorrowers (fold_left turn events start)).
Proof.
  intros Hfresh Htally. apply Forall_forall. intros b Hb.
  apply sortedBorrowers_In, in_map_iff in Hb.
  destruct Hb as (kb & <- & Hkb).
  pose proof (classify_Forall P events start Hfresh Htally
                ltac:(constructor)) as Hall.
  rewrite Forall_forall in Hall. apply (Hall kb Hkb).
Qed.

(** ** Keys *)

Lemma own_keys {V : Type} (k : string) (obj : list (string * V)) :
  arrayIncludes (map fst obj) k =
  match own k obj with
  | Some _ => true
  | None => false
  end.
Proof.
  unfold arrayIncludes. induction obj as [| [k0 v] obj IH]; [reflexivity|].
  cbn [map fst existsb own]. rewrite String.eqb_sym.
  destruct (String.eqb k0 k); [reflexivity | exact IH].
Qed.

Lemma keys_mutate (k : string) (f : Borrower -> Borrower)
  (obj : list (string * Borrower)) :
  map fst (mutate k f obj) = map fst obj.
Proof.
  unfold mutate. rewrite map_map. apply map_ext.
  intros [k' b]. cbn [fst snd]. destruct (String.eqb k' k); reflexivity.
Qed.

Lemma keys_turn (st : State) (e : Event) :
  map fst (borrowerSummary (turn st e)) =
  pushNew (map fst (borrowerSummary st)) (user e).
Proof.
  unfold turn, pushNew. cbn [borrowerSummary]. rewrite keys_mutate.
  rewrite own_keys.
  destruct (own (user e) (borrowerSummary st)); [reflexivity|].
  rewrite map_app. reflexivity.
Qed.

Lemma keys_fold (events : list Event) (st : State) :
  map fst (borrowerSummary (fold_left turn events st)) =
  fold_left pushNew (map user events) (map fst (borrowerSummary st)).
Proof.
  revert st. induction events as [| e events IH]; intros st; [reflexivity|].
  cbn [fold_left map]. rewrite IH, keys_turn. reflexivity.
Qed.

Lemma keys_classify (events : list Event) :
  map fst (borrowerSummary (fold_left turn events start)) =
  firstSeen (map user events).
Proof. rewrite keys_fold. reflexivity. Qed.

Lemma pushNew_NoDup (acc : list string) (k : string) :
  NoDup acc -> NoDup (pushNew acc k).
Proof.
  intros H. unfold pushNew. destruct (arrayIncludes acc k) eqn:E; [exact H|].
  apply NoDup_app_remove_l with (l := []). cbn [app].
  apply Permutation_NoDup with (l := k :: acc).
  - apply Permutation_cons_append.
  - constructor; [|exact H]. intros Hin. apply arrayIncludes_In in Hin.
    congruence.
Qed.

Lemma fold_pushNew_NoDup (ks acc : list string) :
  NoDup acc -> NoDup (fold_left pushNew ks acc).
Proof.
  revert acc. induction ks as [| k ks IH]; intros acc H; [exact H|].
  cbn [fold_left]. apply IH, pushNew_NoDup, H.
Qed.

Lemma fold_pushNew_In (ks acc : list string) (k : string) :
  In k (fold_left pushNew ks acc) -> In k acc \/ In k ks.
Proof.
  revert acc. induction ks as [| k0 ks IH]; intros acc H; [left; exact H|].
  cbn [fold_left] in H. apply IH in H. destruct H as [H | H].
  - unfold pushNew in H. destruct (arrayIncludes acc k0); [left; exact H|].
    apply in_app_or in H. destruct H as [H | [<- | []]];
      [left; exact H | right; left; reflexivity].
  - right. right. exact H.
Qed.

Lemma find_fold_pushNew (p : string -> bool) (ks acc : list string) :
  find p (fold_left pushNew ks acc) =
  match find p acc with
  | Some k => Some k
  | None => find p ks
  end.
Proof.
  revert acc. induction ks as [| k ks IH]; intros acc; cbn [fold_left find].
  - destruct (find p acc); reflexivity.
  - rewrite IH. unfold pushNew. destruct (arrayIncludes acc k) eqn:E.
    + destruct (find p acc) eqn:Ef; [reflexivity|].
      apply arrayIncludes_In in E.
      rewrite (find_none _ _ Ef k E). reflexivity.
    + clear IH E. induction acc as [| a acc IHa]; cbn [app find].
      * destruct (p k); reflexivity.
      * destruct (p a); [reflexivity | exact IHa].
Qed.

Lemma find_map {A B : Type} (p : B -> bool) (f : A -> B) (l : list A) :
  find p (map f l) = option_map f (find (fun x => p (f x)) l).
Proof.
  induction l as [| x l IH]; [reflexivity|].
  cbn [map find]. destruct (p (f x)); [reflexivity | exact IH].
Qed.

(** ** Runs that throw *)

Lemma isInherited_In (k : string) : isInherited k = true <-> In k inherited.
Proof.
  unfold isInherited. rewrite existsb_exists. split.
  - intros (x & Hin & E). apply String.eqb_eq in E. subst x. exact Hin.
  - intros Hin. exists k. split; [exact Hin | apply String.eqb_refl].
Qed.

(** In a summary none of whose keys names a property of
    [Object.prototype], a read gives an inherited value exactly for
    such a name. *)
Lemma property_Inherited (st : State) (k : string) :
  (forall k', In k' (map fst (borrowerSummary st)) -> isInherited k' = false) ->
  (property k (borrowerSummary st) = Inherited <-> isInherited k = true).
Proof.
  intros Hinv. unfold property.
  destruct (own k (borrowerSummary st)) as [b |] eqn:E.
  - apply own_In_keys in E. rewrite (Hinv _ E). split; discriminate.
  - destruct (isInherited k); split; congruence.
Qed.

Lemma step_plain (st : State) (e : Event) :
  (forall k, In k (map fst (borrowerSummary st)) -> isInherited k = false) ->
  if plain e then step st e = Normal (turn st e)
  else exists printed, step st e = TypeError printed.
Proof.
  intros Hinv. unfold plain.
  destruct (isInherited (functionSelector e)) eqn:Es; cbn [negb andb].
  - apply step_TypeError. left. apply classificationOf_None. exact Es.
  - destruct (isInherited (user e)) eqn:Eu; cbn [negb].
    + apply step_TypeError. right. apply property_Inherited; assumption.
    + rewrite step_turn.
      destruct (classificationOf e) eqn:Ec.
      * destruct (property (user e) (borrowerSummary st)) eqn:Ep;
          try reflexivity.
        apply property_Inherited in Ep; [congruence | exact Hinv].
      * apply classificationOf_None in Ec. congruence.
Qed.

Lemma run_plain (events : list Event) (st : State) :
  (forall k, In k (map fst (borrowerSummary st)) -> isInherited k = false) ->
  if forallb plain events then run events st = Normal (fold_left turn events st)
  else exists printed, run events st = TypeError printed.
Proof.
  revert st. induction events as [| e events IH]; intros st Hinv;
    [reflexivity|].
  cbn [forallb run fold_left]. pose proof (step_plain st e Hinv) as Hs.
  destruct (plain e) eqn:P; cbn [andb].
  - rewrite Hs. apply IH. intros k Hk. rewrite keys_turn in Hk.
    unfold pushNew in Hk. destruct (arrayIncludes _ _); [apply Hinv, Hk|].
    apply in_app_or in Hk. destruct Hk as [Hk | [<- | []]]; [apply Hinv, Hk|].
    unfold plain in P. apply andb_prop in P. destruct P as [_ P].
    apply negb_true_iff in P. exact P.
  - destruct Hs as (printed & ->). exists printed. reflexivity.
Qed.

(** ** Letter case and array indices *)

Lemma lowerChar_digit (c : ascii) :
  isDigit (lowerChar c) = true -> lowerChar c = c.
Proof.
  destruct c as [[] [] [] [] [] [] [] []]; vm_compute;
    intros H; (reflexivity || discriminate H).
Qed.

Lemma digit_lowerChar (c : ascii) : isDigit c = true -> lowerChar c = c.
Proof.
  destruct c as [[] [] [] [] [] [] [] []]; vm_compute;
    intros H; (reflexivity || discriminate H).
Qed.

Lemma decimal_lower (s : string) (acc n : N) :
  decimalValue s acc = Some n -> toLowerCase s = s.
Proof.
  revert acc. induction s as [| c s IH]; intros acc; [reflexivity|].
  cbn [decimalValue toLowerCase]. destruct (isDigit c) eqn:E; [|discriminate].
  intros H. rewrite (digit_lowerChar c E). f_equal. eapply IH, H.
Qed.

Lemma lower_decimal (s : string) (acc n : N) :
  decimalValue (toLowerCase s) acc = Some n -> toLowerCase s = s.
Proof.
  revert acc. induction s as [| c s IH]; intros acc; [reflexivity|].
  cbn [decimalValue toLowerCase].
  destruct (isDigit (lowerChar c)) eqn:E; [|discriminate].
  intros H. rewrite (lowerChar_digit c E). f_equal. eapply IH, H.
Qed.

Lemma arrayIndex_decimal (k : string) (n : N) :
  arrayIndex k = Some n -> decimalValue k 0 = Some n.
Proof.
  unfold arrayIndex. destruct k as [| c rest]; [discriminate|].
  destruct (Ascii.eqb c "0" && negb (String.eqb rest "")); [discriminate|].
  destruct (decimalValue (String c rest) 0) as [m |]; [|discriminate].
  destruct (m <? 4294967295)%N; [|discriminate]. intros [= ->]. reflexivity.
Qed.

(** An array index has no letter, and is the only string of its
    lower-case form. *)
Lemma index_lower (k : string) :
  isArrayIndex k = true -> toLowerCase k = k.
Proof.
  unfold isArrayIndex. destruct (arrayIndex k) as [n |] eqn:E; [|discriminate].
  intros _. eapply decimal_lower, arrayIndex_decimal, E.
Qed.

Lemma lower_index (k : string) :
  isArrayIndex (toLowerCase k) = true -> toLowerCase k = k.
Proof.
  unfold isArrayIndex.
  destruct (arrayIndex (toLowerCase k)) as [n |] eqn:E; [|discriminate].
  intros _. eapply lower_decimal, arrayIndex_decimal, E.
Qed.

Lemma find_app_none {A : Type} (p : A -> bool) (l l' : list A) :
  (forall x, In x l -> p x = false) -> find p (l ++ l') = find p l'.
Proof.
  induction l as [| x l IH]; intros H; [reflexivity|].
  cbn [app find]. rewrite (H x (or_introl eq_refl)).
  apply IH. intros y Hy. apply H. right. exact Hy.
Qed.

Lemma find_filter {A : Type} (p q : A -> bool) (l : list A) :
  (forall x, p x = true -> q x = true) -> find p (filter q l) = find p l.
Proof.
  intros H. induction l as [| x l IH]; [reflexivity|].
  cbn [filter find]. destruct (q x) eqn:Q; cbn [find].
  - destruct (p x); [reflexivity | exact IH].
  - destruct (p x) eqn:P; [|exact IH]. rewrite (H x P) in Q. discriminate.
Qed.

Lemma find_perm_unique {A : Type} (p : A -> bool) (l l' : list A) :
  (forall x y, p x = true -> p y = true -> x = y) ->
  Permutation l l' -> find p l = find p l'.
Proof.
  intros Hu Hp.
  destruct (find p l) as [x |] eqn:E, (find p l') as [y |] eqn:E'.
  - apply find_some in E, E'. f_equal. apply Hu; [apply E | apply E'].
  - apply find_some in E. destruct E as [Hin Hx].
    apply (Permutation_in _ Hp) in Hin.
    rewrite (find_none _ _ E' x Hin) in Hx. discriminate.
  - apply find_some in E'. destruct E' as [Hin Hy].
    apply (Permutation_in _ (Permutation_sym Hp)) in Hin.
    rewrite (find_none _ _ E y Hin) in Hy. discriminate.
  - reflexivity.
Qed.

(** The key found for a wallet is the first in order of creation that
    matches it up to letter case, also where [Object.keys] lists array
    indices first. *)
Lemma find_objectKeys {V : Type} (wallet : string) (obj : list (string * V)) :
  find (fun k => String.eqb (toLowerCase k) (toLowerCase wallet))
       (objectKeys obj) =
  find (fun k => String.eqb (toLowerCase k) (toLowerCase wallet))
       (map fst obj).
Proof.
  set (p := fun k => String.eqb (toLowerCase k) (toLowerCase wallet)).
  destruct (isArrayIndex (toLowerCase wallet)) eqn:Ew.
  - apply find_perm_unique; [|apply objectKeys_perm].
    assert (Hp : forall x, p x = true -> x = toLowerCase wallet).
    { intros x Hx. apply String.eqb_eq in Hx.
      rewrite <- Hx in Ew. rewrite <- (lower_index x Ew). exact Hx. }
    intros x y Hx Hy. rewrite (Hp x Hx), (Hp y Hy). reflexivity.
  - assert (Hp : forall x, p x = true -> negb (isArrayIndex x) = true).
    { intros x Hx. apply String.eqb_eq in Hx.
      destruct (isArrayIndex x) eqn:Ex; [|reflexivity].
      rewrite (index_lower x Ex) in Hx. congruence. }
    destruct (objectKeys_order obj) as (idx & -> & Hperm & _).
    rewrite find_app_none.
    + apply find_filter. exact Hp.
    + intros x Hx. apply (Permutation_in _ Hperm) in Hx.
      apply filter_In in Hx. destruct Hx as [_ Hx].
      destruct (p x) eqn:Px; [|reflexivity].
      apply Hp in Px. rewrite Hx in Px. discriminate.
Qed.

End SummaryFacts.

Import SummaryFacts.

(* ================================================================== *)
(** * Further properties of the event classifier *)
(* ================================================================== *)

(** X9: in a run whose loop completes, events are grouped by the user
    address as it is spelled: a read of the summary finds a borrower
    for a user exactly when some event names that user, its address is
    that spelling, its entries are the events of that user, all of them
    and in their order, and its Sam flags are those of the first.  The
    keys that [Object.keys] lists are the users met, none twice: those
    that are array indices first, in ascending order, then the others
    in the order they are first met; with no array index among the
    users, all in the order they are first met. *)
Theorem X9_borrower_holds_the_events_of_its_user
  (events : list Event) (st : State) :
  classifyAll events = Normal st ->
  let users := firstSeen (map user events) in
  let keys := objectKeys (borrowerSummary st) in
  (forall u,
     match property u (borrowerSummary st) with
     | Own b =>
         b_address b = u /\
         map Some (b_events b) = map entryOf (eventsOf u events) /\
         exists e rest,
           eventsOf u events = e :: rest /\
           b_isSam b = isSam e /\ b_samWallet b = samWallet e
     | _ => eventsOf u events = []
     end) /\
  NoDup keys /\
  Permutation keys users /\
  (exists idx,
     keys = idx ++ filter (fun k => negb (isArrayIndex k)) users /\
     Permutation idx (filter isArrayIndex users) /\
     StronglySorted indexLe idx) /\
  ((forall e, In e events -> isArrayIndex (user e) = false) -> keys = users).
Proof.
  intros Hrun. apply classifyAll_Normal in Hrun. destruct Hrun as [-> Hall].
  cbv zeta.
  assert (Hnd : NoDup (firstSeen (map user events))).
  { apply fold_pushNew_NoDup. constructor. }
  split; [|split; [|split; [|split]]].
  - intros u. unfold property.
    destruct (eventsOf u events) as [| e rest] eqn:E.
    + rewrite own_classify, E. destruct (isInherited u); reflexivity.
    + destruct (borrower_of_user _ _ _ _ Hall E)
        as (b & -> & H1 & H2 & H3 & H4).
      split; [exact H1|]. split; [rewrite H2, E; reflexivity|].
      exists e, rest. split; [reflexivity|]. split; assumption.
  - apply Permutation_NoDup with (l := firstSeen (map user events));
      [|exact Hnd].
    rewrite <- keys_classify. symmetry. apply objectKeys_perm.
  - rewrite <- keys_classify. apply objectKeys_perm.
  - rewrite <- keys_classify. apply objectKeys_order.
  - intros Hplain. unfold objectKeys. rewrite ownProperties_plain.
    + apply keys_classify.
    + intros k Hk. rewrite keys_classify in Hk.
      apply fold_pushNew_In in Hk. destruct Hk as [[] | Hk].
      apply in_map_iff in Hk. destruct Hk as (e & <- & He).
      apply Hplain, He.
Qed.

Lemma X9_borrower_holds_the_events_of_its_user_witness :
  exists st,
    classifyAll indexedEvents = Normal st /\
    map user indexedEvents = ["0xb"; "10"; "0xa"; "7"] /\
    objectKeys (borrowerSummary st) = ["7"; "10"; "0xb"; "0xa"] /\
    Permutation (objectKeys (borrowerSummary st))
                (firstSeen (map user indexedEvents)).
Proof.
  assert (Hrun : classifyAll indexedEvents =
                 Normal (fold_left turn indexedEvents start))
    by (vm_compute; reflexivity).
  exists (fold_left turn indexedEvents start). split; [exact Hrun|].
  split; [reflexivity|]. split; [vm_compute; reflexivity|].
  apply (X9_borrower_holds_the_events_of_its_user indexedEvents _ Hrun).
Defined.

Lemma consistent_fresh (e : Event) : consistent (fresh e).
Proof. repeat split. Qed.

Lemma consistent_tally (c : string) (e : Event) (b : Borrower) :
  consistent b -> consistent (tally c e b).
Proof.
  intros (H1 & H2 & H3 & H4 & H5 & H6 & H7 & H8).
  unfold consistent, standardEntry, bucket, sumOf, countOf in *.
  cbn [tally b_events totalCollateralDeposited totalCrvUSDBorrowed
       leverageCollateral leverageBorrowed leverageCount
       standardCollateral standardBorrowed standardCount].
  rewrite !filter_app, !map_app.
  cbn [filter map e_isLeverage e_classification e_collateral e_borrowed].
  destruct (includes c "LEVERAGE");
    destruct (includes c "borrow" || includes c "create");
    cbn [negb andb map e_collateral e_borrowed];
    rewrite ?app_nil_r, ?fold_left_app; cbn [fold_left];
    repeat split; congruence.
Qed.

(** X10: the totals of every borrower saved agree with the entries
    listed for it: the two grand totals are the sums, in order, of the
    collateral and of the loans of its entries, the leverage totals
    those over the entries flagged as leverage, the standard totals
    those over the entries whose label falls in the standard branch,
    and each count goes up by one for each such entry. *)
Theorem X10_totals_agree_with_entries
  (events : list Event) (now : string) (out : AnalysisOutput) :
  analysisOutput events now = Normal out ->
  Forall consistent (borrower_summaries out).
Proof.
  intros H. apply analysisOutput_Normal in H.
  destruct H as (st & Hrun & -> & _).
  apply classifyAll_Normal in Hrun. destruct Hrun as [-> _].
  apply sortedBorrowers_Forall; [apply consistent_fresh | apply consistent_tally].
Qed.

Lemma X10_totals_agree_with_entries_witness :
  exists out,
    analysisOutput sampleEvents "t" = Normal out /\
    map (fun b => (totalCrvUSDBorrowed b, leverageBorrowed b,
                   standardBorrowed b))
        (borrower_summaries out) =
      [(100, 100, 0); (75, 50, 25); (10, 0, 10)] /\
    Forall consistent (borrower_summaries out).
Proof.
  assert (Hout : analysisOutput sampleEvents "t" =
                 Normal (analysisOf (fold_left turn sampleEvents start) "t"))
    by (vm_compute; reflexivity).
  exists (analysisOf (fold_left turn sampleEvents start) "t").
  split; [exact Hout|]. split; [vm_compute; reflexivity|].
  apply (X10_totals_agree_with_entries sampleEvents "t" _ Hout).
Defined.

(** X11: a loop that completes has printed the warnings of the events
    that the table calls leverage and that have ten logs or fewer, one
    line for each, in the order of the events, and nothing else. *)
Theorem X11_warnings_printed (events : list Event) (st : State) :
  classifyAll events = Normal st ->
  console st = map warning (filter warned events).
Proof.
  intros Hrun. apply classifyAll_Normal in Hrun. destruct Hrun as [-> _].
  enough (H : forall st0,
            console (fold_left turn events st0) =
            console st0 ++ map warning (filter warned events))
    by (rewrite H; reflexivity).
  induction events as [| e events IH]; intros st0.
  - cbn [fold_left filter map]. rewrite app_nil_r. reflexivity.
  - cbn [fold_left filter]. rewrite IH. unfold turn. cbn [console].
    fold (warned e). destruct (warned e); cbn [map].
    + rewrite <- app_assoc. reflexivity.
    + rewrite app_nil_r. reflexivity.
Qed.

Lemma X11_warnings_printed_witness :
  exists st,
    classifyAll sampleEvents = Normal st /\
    console st = ["  WARNING: 0x7e57 classified as leverage but only 8 logs"] /\
    console st = map warning (filter warned sampleEvents).
Proof.
  assert (Hrun : classifyAll sampleEvents =
                 Normal (fold_left turn sampleEvents start))
    by (vm_compute; reflexivity).
  exists (fold_left turn sampleEvents start). split; [exact Hrun|].
  split; [vm_compute; reflexivity|].
  apply (X11_warnings_printed sampleEvents _ Hrun).
Defined.

(** X12: when no event of a user has an empty timestamp, the first and
    the last borrow of its borrower are the least and the greatest
    timestamp of its events, compared as strings. *)
Theorem X12_first_and_last_borrow
  (events : list Event) (st : State) (u : string) (b : Borrower) :
  classifyAll events = Normal st ->
  property u (borrowerSummary st) = Own b ->
  (forall e, In e (eventsOf u events) -> timestamp e <> "") ->
  exists first last,
    firstBorrow b = Some first /\
    lastBorrow b = Some last /\
    In first (map timestamp (eventsOf u events)) /\
    In last (map timestamp (eventsOf u events)) /\
    forall e,
      In e (eventsOf u events) ->
      (first <=? timestamp e)%string = true /\
      (timestamp e <=? last)%string = true.
Proof.
  intros Hrun Hb Hne.
  apply classifyAll_Normal in Hrun. destruct Hrun as [-> _].
  apply property_Own in Hb. rewrite own_classify in Hb.
  destruct (eventsOf u events) as [| e0 rest] eqn:E; [discriminate|].
  injection Hb as <-.
  change (tallyAll rest (tally (labelOf e0) e0 (fresh e0)))
    with (tallyAll (e0 :: rest) (fresh e0)).
  pose proof (first_borrow_least (e0 :: rest) (fresh e0) eq_refl Hne) as Hf.
  pose proof (last_borrow_greatest (e0 :: rest) (fresh e0) eq_refl Hne) as Hl.
  destruct (firstBorrow (tallyAll (e0 :: rest) (fresh e0))) as [first |];
    [|discriminate].
  destruct (lastBorrow (tallyAll (e0 :: rest) (fresh e0))) as [last |];
    [|discriminate].
  destruct Hf as [Hf1 Hf2]. destruct Hl as [Hl1 Hl2].
  exists first, last. repeat split; auto.
Qed.

Lemma X12_first_and_last_borrow_witness :
  exists st b,
    classifyAll sampleEvents = Normal st /\
    property wallet1 (borrowerSummary st) = Own b /\
    map e_timestamp (b_events b) =
      ["2025-03-02T12:00:00.000Z"; "2025-03-04T12:00:00.000Z";
       "2025-03-03T12:00:00.000Z"] /\
    firstBorrow b = Some "2025-03-02T12:00:00.000Z" /\
    lastBorrow b = Some "2025-03-04T12:00:00.000Z" /\
    exists first last,
      firstBorrow b = Some first /\
      lastBorrow b = Some last /\
      In first (map timestamp (eventsOf wallet1 sampleEvents)) /\
      In last (map timestamp (eventsOf wallet1 sampleEvents)) /\
      forall e,
        In e (eventsOf wallet1 sampleEvents) ->
        (first <=? timestamp e)%string = true /\
        (timestamp e <=? last)%string = true.
Proof.
  assert (Hrun : classifyAll sampleEvents =
                 Normal (fold_left turn sampleEvents start))
    by (vm_compute; reflexivity).
  assert (Hb : property wallet1
                        (borrowerSummary (fold_left turn sampleEvents start)) =
               Own (match own wallet1
                                (borrowerSummary
                                   (fold_left turn sampleEvents start)) with
                    | Some b => b
                    | None => fresh (sampleEvent "" 0)
                    end))
    by (vm_compute; reflexivity).
  exists (fold_left turn sampleEvents start).
  exists (match own wallet1
                    (borrowerSummary (fold_left turn sampleEvents start)) with
          | Some b => b
          | None => fresh (sampleEvent "" 0)
          end).
  split; [exact Hrun|]. split; [exact Hb|].
  split; [vm_compute; reflexivity|]. split; [vm_compute; reflexivity|].
  split; [vm_compute; reflexivity|].
  apply (X12_first_and_last_borrow sampleEvents _ wallet1 _ Hrun Hb).
  intros e He. vm_compute in He.
  repeat (destruct He as [<- | He]; [discriminate|]). destruct He.
Defined.

Lemma usage_fresh (e : Event) :
  (0 <=? leverageCount (fresh e)) = true /\
  (0 <? leverageCount (fresh e)) =
    existsb e_isLeverage (b_events (fresh e)).
Proof. split; reflexivity. Qed.

Lemma usage_tally (c : string) (e : Event) (b : Borrower) :
  (0 <=? leverageCount b) = true /\
  (0 <? leverageCount b) = existsb e_isLeverage (b_events b) ->
  (0 <=? leverageCount (tally c e b)) = true /\
  (0 <? leverageCount (tally c e b)) =
    existsb e_isLeverage (b_events (tally c e b)).
Proof.
  intros [H1 H2]. cbn [tally leverageCount b_events].
  rewrite existsb_app. cbn [existsb e_isLeverage].
  destruct (includes c "LEVERAGE").
  - pose proof (SumFacts.succ_pos _ H1) as Hp.
    split; [apply NumberFacts.ltb_leb, Hp|].
    rewrite Hp, orb_true_r. reflexivity.
  - rewrite orb_false_r. split; assumption.
Qed.

(** X13: the loop that counts leverage usage takes its first branch
    for a borrower exactly when one of the entries listed for that
    borrower is flagged as leverage: every borrower saved is counted as
    leveraged if it has such an entry and as standard only if it has
    none. *)
Theorem X13_leverage_usage_follows_entries
  (events : list Event) (now : string) (out : AnalysisOutput) :
  analysisOutput events now = Normal out ->
  Forall
    (fun b =>
       forall u,
         countUsage u b =
         if existsb e_isLeverage (b_events b)
         then {| leveraged_borrowers := leveraged_borrowers u + 1;
                 standard_only_borrowers := standard_only_borrowers u |}
         else {| leveraged_borrowers := leveraged_borrowers u;
                 standard_only_borrowers := standard_only_borrowers u + 1 |})
    (borrower_summaries out).
Proof.
  intros H. apply analysisOutput_Normal in H.
  destruct H as (st & Hrun & -> & _).
  apply classifyAll_Normal in Hrun. destruct Hrun as [-> _].
  eapply Forall_impl;
    [|apply (sortedBorrowers_Forall _ events usage_fresh usage_tally)].
  cbv beta. intros b [_ H] u. unfold countUsage. rewrite H. reflexivity.
Qed.

Lemma X13_leverage_usage_follows_entries_witness :
  exists out,
    analysisOutput sampleEvents "t" = Normal out /\
    map (fun b => existsb e_isLeverage (b_events b))
        (borrower_summaries out) = [true; true; false] /\
    leverage_usage out =
      {| leveraged_borrowers := 2; standard_only_borrowers := 1 |} /\
    Forall
      (fun b =>
         forall u,
           countUsage u b =
           if existsb e_isLeverage (b_events b)
           then {| leveraged_borrowers := leveraged_borrowers u + 1;
                   standard_only_borrowers := standard_only_borrowers u |}
           else {| leveraged_borrowers := leveraged_borrowers u;
                   standard_only_borrowers :=
                     standard_only_borrowers u + 1 |})
      (borrower_summaries out).
Proof.
  assert (Hout : analysisOutput sampleEvents "t" =
                 Normal (analysisOf (fold_left turn sampleEvents start) "t"))
    by (vm_compute; reflexivity).
  exists (analysisOf (fold_left turn sampleEvents start) "t").
  split; [exact Hout|]. split; [vm_compute; reflexivity|].
  split; [vm_compute; reflexivity|].
  apply (X13_leverage_usage_follows_entries sampleEvents "t" _ Hout).
Defined.

(** X14: the borrowers saved are those of the summary, each once,
    sorted from the list [Object.values] gives, which holds the
    borrowers keyed by an array index first and the others in order of
    creation (all in order of creation when no user is an array
    index).  When no total borrowed is NaN the borrowers saved come in
    non-increasing order of total borrowed, and borrowers of equal
    total keep the order of that list. *)
Theorem X14_borrowers_sorted
  (events : list Event) (now : string) (st : State) (out : AnalysisOutput) :
  classifyAll events = Normal st ->
  analysisOutput events now = Normal out ->
  let saved := borrower_summaries out in
  let listed := objectValues (borrowerSummary st) in
  Permutation saved listed /\
  Permutation listed (map snd (borrowerSummary st)) /\
  ((forall e, In e events -> isArrayIndex (user e) = false) ->
   listed = map snd (borrowerSummary st)) /\
  (Forall numericBorrowed listed ->
   StronglySorted geBorrowed saved /\
   forall v, filter (tieBorrowed v) saved = filter (tieBorrowed v) listed).
Proof.
  intros Hrun Hout. apply analysisOutput_Normal in Hout.
  destruct Hout as (st' & Hrun' & -> & _).
  rewrite Hrun in Hrun'. injection Hrun' as <-.
  cbv zeta. unfold sortedBorrowers.
  split; [apply sort_perm|]. split; [apply objectValues_perm|]. split.
  - intros Hplain. apply classifyAll_Normal in Hrun. destruct Hrun as [-> _].
    unfold objectValues. rewrite ownProperties_plain; [reflexivity|].
    intros k Hk. rewrite keys_classify in Hk.
    apply fold_pushNew_In in Hk. destruct Hk as [[] | Hk].
    apply in_map_iff in Hk. destruct Hk as (e & <- & He).
    apply Hplain, He.
  - intros Hnum. rewrite Forall_forall in Hnum. split.
    + apply sort_sorted.
      * unfold geBorrowed. intros a b c Hab Hbc.
        eapply NumberFacts.leb_trans; eassumption.
      * unfold geBorrowed, byBorrowedDesc. intros x y _ _ H.
        rewrite NumberFacts.sub_pos in H. apply NumberFacts.ltb_leb. exact H.
      * unfold geBorrowed, byBorrowedDesc. intros x y Hx Hy H.
        rewrite NumberFacts.sub_pos in H.
        apply NumberFacts.ltb_false_leb;
          [apply Hnum, Hx | apply Hnum, Hy | exact H].
    + intros v. apply sort_filter.
      unfold tieBorrowed, byBorrowedDesc. intros x y Hx Hy.
      rewrite NumberFacts.sub_pos. eapply NumberFacts.eqb_not_ltb; eassumption.
Qed.

Lemma X14_borrowers_sorted_witness :
  exists st out,
    classifyAll indexedEvents = Normal st /\
    analysisOutput indexedEvents "t" = Normal out /\
    map fst (borrowerSummary st) = ["0xb"; "10"; "0xa"; "7"] /\
    map (fun b => (b_address b, totalCrvUSDBorrowed b))
        (borrower_summaries out) =
      [("7", 5); ("10", 5); ("0xb", 5); ("0xa", 5)] /\
    Forall numericBorrowed (objectValues (borrowerSummary st)) /\
    StronglySorted geBorrowed (borrower_summaries out) /\
    forall v,
      filter (tieBorrowed v) (borrower_summaries out) =
      filter (tieBorrowed v) (objectValues (borrowerSummary st)).
Proof.
  assert (Hrun : classifyAll indexedEvents =
                 Normal (fold_left turn indexedEvents start))
    by (vm_compute; reflexivity).
  assert (Hout : analysisOutput indexedEvents "t" =
                 Normal (analysisOf (fold_left turn indexedEvents start) "t"))
    by (vm_compute; reflexivity).
  assert (H : Forall numericBorrowed
                (objectValues
                   (borrowerSummary (fold_left turn indexedEvents start)))).
  { vm_compute. repeat constructor. }
  exists (fold_left turn indexedEvents start).
  exists (analysisOf (fold_left turn indexedEvents start) "t").
  split; [exact Hrun|]. split; [exact Hout|].
  split; [vm_compute; reflexivity|]. split; [vm_compute; reflexivity|].
  split; [exact H|].
  apply (X14_borrowers_sorted indexedEvents "t" _ _ Hrun Hout).
  exact H.
Defined.

Lemma findKey_classify (wallet : string) (events : list Event) :
  findKey wallet (borrowerSummary (fold_left turn events start)) =
  option_map user (firstOf wallet events).
Proof.
  unfold findKey, firstOf. rewrite find_objectKeys, keys_fold.
  cbn [start borrowerSummary map]. rewrite find_fold_pushNew. cbn [find].
  apply find_map.
Qed.

Lemma walletOf_classify (wallet : string) (events : list Event) :
  Forall (fun e => classificationOf e = Some (labelOf e)) events ->
  (forall e, In e events -> user e <> "undefined") ->
  match firstOf wallet events with
  | None =>
      walletOf wallet (borrowerSummary (fold_left turn events start)) =
      Undefined
  | Some e =>
      exists b,
        walletOf wallet (borrowerSummary (fold_left turn events start)) =
        Own b /\
        b_address b = user e /\
        map Some (b_events b) = map entryOf (eventsOf (user e) events)
  end.
Proof.
  intros Hall Hu. unfold walletOf. rewrite findKey_classify.
  destruct (firstOf wallet events) as [e |] eqn:E; cbn [option_map].
  - apply find_some in E. destruct E as [Hin _].
    assert (He : In e (eventsOf (user e) events))
      by (apply eventsOf_user; split; [exact Hin | reflexivity]).
    destruct (eventsOf (user e) events) as [| e0 rest] eqn:Ee; [destruct He|].
    destruct (borrower_of_user _ _ _ _ Hall Ee) as (b & Hb & H1 & H2 & _).
    exists b. rewrite Ee in H2. split; [|split; assumption].
    apply property_Own. exact Hb.
  - unfold property. rewrite own_classify.
    replace (eventsOf "undefined" events) with (@nil Event); [reflexivity|].
    symmetry. apply filter_none. intros e He.
    apply String.eqb_neq. apply Hu, He.
Qed.

(** X15: Sam's wallets are looked up without regard to letter case
    while borrowers are kept by the address as it is spelled.  In a
    run whose loop completes and in which no user is named
    [undefined], a wallet is found exactly when some event names it in
    some spelling, and what is found is the borrower of the first such
    spelling met, holding the events of that spelling only;
    [sam_combined] is [null] exactly when one of the two wallets has no
    event, and when it is not its flag
    [wallet2_opened_while_wallet1_active] is [true]. *)
Theorem X15_sam_wallets_lookup
  (events : list Event) (now : string) (st : State) (out : AnalysisOutput) :
  classifyAll events = Normal st ->
  analysisOutput events now = Normal out ->
  (forall e, In e events -> user e <> "undefined") ->
  let summary := borrowerSummary st in
  (forall wallet,
     match firstOf wallet events with
     | None => walletOf wallet summary = Undefined
     | Some e =>
         exists b,
           walletOf wallet summary = Own b /\
           b_address b = user e /\
           map Some (b_events b) = map entryOf (eventsOf (user e) events)
     end) /\
  (sam_combined out = None <->
   firstOf wallet1 events = None \/ firstOf wallet2 events = None) /\
  (forall c,
     sam_combined out = Some c ->
     wallet2_opened_while_wallet1_active c = true).
Proof.
  intros Hrun Hout Hu. apply analysisOutput_Normal in Hout.
  destruct Hout as (st' & Hrun' & _ & -> & _).
  rewrite Hrun in Hrun'. injection Hrun' as <-.
  apply classifyAll_Normal in Hrun. destruct Hrun as [-> Hall].
  cbv zeta. split; [|split].
  - intros wallet. apply walletOf_classify; assumption.
  - unfold samCombined, samWallet1, samWallet2.
    pose proof (walletOf_classify wallet1 events Hall Hu) as H1.
    pose proof (walletOf_classify wallet2 events Hall Hu) as H2.
    destruct (firstOf wallet1 events) as [e1 |],
             (firstOf wallet2 events) as [e2 |].
    + destruct H1 as (b1 & -> & _). destruct H2 as (b2 & -> & _).
      split; [discriminate | intros [H | H]; discriminate H].
    + destruct H1 as (b1 & -> & _). rewrite H2.
      split; [right; reflexivity | reflexivity].
    + rewrite H1. split; [left; reflexivity | reflexivity].
    + rewrite H1. split; [left; reflexivity | reflexivity].
  - unfold samCombined. intros c.
    destruct (samWallet1 (fold_left turn events start)),
             (samWallet2 (fold_left turn events start));
      try discriminate; intros [= <-]; reflexivity.
Qed.

Lemma X15_sam_wallets_lookup_witness :
  exists st out,
    classifyAll sampleEvents = Normal st /\
    analysisOutput sampleEvents "t" = Normal out /\
    map user (eventsOf wallet1 sampleEvents) = [wallet1; wallet1; wallet1] /\
    map user (eventsOf (toLowerCase wallet1) sampleEvents) =
      [toLowerCase wallet1] /\
    (exists b,
       walletOf (toLowerCase wallet1) (borrowerSummary st) = Own b /\
       b_address b = wallet1 /\
       map Some (b_events b) = map entryOf (eventsOf wallet1 sampleEvents)) /\
    sam_combined out <> None.
Proof.
  assert (Hu : forall e, In e sampleEvents -> user e <> "undefined").
  { intros e He. vm_compute in He.
    repeat (destruct He as [<- | He]; [discriminate|]). destruct He. }
  assert (Hrun : classifyAll sampleEvents =
                 Normal (fold_left turn sampleEvents start))
    by (vm_compute; reflexivity).
  assert (Hout : analysisOutput sampleEvents "t" =
                 Normal (analysisOf (fold_left turn sampleEvents start) "t"))
    by (vm_compute; reflexivity).
  assert (Hf : firstOf (toLowerCase wallet1) sampleEvents =
               Some (borrowEvent "2025-03-02T12:00:00.000Z" wallet1
                                 "0x23cfed03" 25 6))
    by (vm_compute; reflexivity).
  exists (fold_left turn sampleEvents start).
  exists (analysisOf (fold_left turn sampleEvents start) "t").
  split; [exact Hrun|]. split; [exact Hout|].
  destruct (X15_sam_wallets_lookup sampleEvents "t" _ _ Hrun Hout Hu)
    as (H1 & H2 & _).
  split; [vm_compute; reflexivity|]. split; [vm_compute; reflexivity|]. split.
  - pose proof (H1 (toLowerCase wallet1)) as Hw. rewrite Hf in Hw. exact Hw.
  - intros E. apply H2 in E.
    destruct E as [E | E]; vm_compute in E; discriminate E.
Defined.

(** X16: the selector alone, compared as it is spelled, decides what a
    turn of the loop does with an event.  A selector that names a
    property of [Object.prototype] reads no label and the turn throws
    a [TypeError] before it prints or records anything.  Any other
    selector reads a label: the two extended selectors of the table go
    to the leverage totals, its three other selectors to the standard
    totals, and every selector that is not a key of the table (also
    one of the five in another letter case) to neither. *)
Theorem X16_selector_decides_the_branch (event : Event) :
  (classificationOf event = None <->
   In (functionSelector event) inherited) /\
  (forall st,
     In (functionSelector event) inherited ->
     step st event = TypeError (console st)) /\
  (forall label,
     classificationOf event = Some label ->
     (bucket label = Leverage <->
      In (functionSelector event) ["0x4ba96d46"; "0x24977ef3"]) /\
     (bucket label = Standard <->
      In (functionSelector event)
         ["0x23cfed03"; "0xdd171e7c"; "0x24049e57"]) /\
     (bucket label = Neither <->
      own (functionSelector event) OBSERVED_SELECTORS = None) /\
     isLeverage event =
       match bucket label with
       | Leverage => true
       | _ => false
       end) /\
  classificationOf (sampleEvent "0x4BA96D46" 60) = Some "UNKNOWN" /\
  classificationOf (sampleEvent "toString" 60) = None.
Proof.
  split; [|split; [|split; [|split; reflexivity]]].
  - rewrite classificationOf_None. apply isInherited_In.
  - intros st Hin. apply isInherited_In, classificationOf_None in Hin.
    unfold step. rewrite Hin. reflexivity.
  - intros label. unfold isLeverage.
    unfold classificationOf, property, OBSERVED_SELECTORS. cbn [own].
    destruct (String.eqb_spec "0x23cfed03" (functionSelector event))
      as [<- | N1]; [intros [= <-]; cbn; intuition discriminate|].
    destruct (String.eqb_spec "0x4ba96d46" (functionSelector event))
      as [<- | N2]; [intros [= <-]; cbn; intuition discriminate|].
    destruct (String.eqb_spec "0x24977ef3" (functionSelector event))
      as [<- | N3]; [intros [= <-]; cbn; intuition discriminate|].
    destruct (String.eqb_spec "0xdd171e7c" (functionSelector event))
      as [<- | N4]; [intros [= <-]; cbn; intuition discriminate|].
    destruct (String.eqb_spec "0x24049e57" (functionSelector event))
      as [<- | N5]; [intros [= <-]; cbn; intuition discriminate|].
    destruct (isInherited (functionSelector event)); [discriminate|].
    intros [= <-]. cbn. intuition (discriminate || congruence).
Qed.

(** X17: the loop completes exactly when no event has a selector or a
    user that names a property of [Object.prototype]; otherwise a turn
    throws a [TypeError], the script ends there and nothing is
    saved. *)
Theorem X17_loop_completes_unless_inherited_name
  (events : list Event) (now : string) :
  ((exists st, classifyAll events = Normal st) <->
   forallb plain events = true) /\
  ((exists out, analysisOutput events now = Normal out) <->
   forallb plain events = true) /\
  (forallb plain events = false ->
   exists printed,
     classifyAll events = TypeError printed /\
     analysisOutput events now = TypeError printed).
Proof.
  pose proof (run_plain events start ltac:(intros k [])) as H.
  change (run events start) with (classifyAll events) in H.
  unfold analysisOutput.
  destruct (forallb plain events).
  - rewrite H. split; [|split].
    + split; [reflexivity | intros _; eexists; reflexivity].
    + split; [reflexivity | intros _; eexists; reflexivity].
    + discriminate.
  - destruct H as (printed & ->). split; [|split].
    + split; [intros (st & E); discriminate E | discriminate].
    + split; [intros (st & E); discriminate E | discriminate].
    + intros _. exists printed. split; reflexivity.
Qed.

Lemma X17_loop_completes_unless_inherited_name_witness :
  forallb plain
          [sampleEvent "0x23cfed03" 6;
           borrowEvent "2025-03-06T12:00:00.000Z" "__proto__"
                       "0x4ba96d46" 5 6;
           sampleEvent "0x23cfed03" 6] = false /\
  classifyAll
    [sampleEvent "0x23cfed03" 6;
     borrowEvent "2025-03-06T12:00:00.000Z" "__proto__" "0x4ba96d46" 5 6;
     sampleEvent "0x23cfed03" 6] =
    TypeError ["  WARNING: 0x7e57 classified as leverage but only 6 logs"] /\
  exists printed,
    classifyAll
      [sampleEvent "0x23cfed03" 6;
       borrowEvent "2025-03-06T12:00:00.000Z" "__proto__" "0x4ba96d46" 5 6;
       sampleEvent "0x23cfed03" 6] = TypeError printed /\
    analysisOutput
      [sampleEvent "0x23cfed03" 6;
       borrowEvent "2025-03-06T12:00:00.000Z" "__proto__" "0x4ba96d46" 5 6;
       sampleEvent "0x23cfed03" 6] "t" = TypeError printed.
Proof.
  split; [reflexivity|]. split; [reflexivity|].
  apply (X17_loop_completes_unless_inherited_name _ "t"). reflexivity.
Defined.
